(** * MultiSig coordinator: script analysis, transaction building, witness
      collection and submission

    A shallow embedding of the JavaScript sources
    - [txStore.js]   (session store, and the fixed-fee transaction builder
                      with its multi-asset arithmetic),
    - [multisig.js]  ([bumpAdaIfTokens], [assembleAndSerializeTx]),
    - the server with the hard-coded multisig configuration
      ([deriveSummary], [collectScriptInfo], the [/api/...] handlers),
    - [server.js]    (the witness handler of the earlier server).

    The cardano-serialization-lib (CSL) is an external library: its data
    (values, witness sets, transaction bodies, native scripts) is modelled
    structurally, its codecs and hashes are the fields of [CSLib]. *)

From Stdlib Require Import ZArith List String Ascii Bool Lia Permutation.
From Stdlib.Strings Require Import Byte.
From stdpp Require Import base gmap strings list fin_maps pretty.
Import ListNotations.
Open Scope string_scope.
Open Scope list_scope.

(* ================================================================== *)
(** * Part I: the program                                               *)
(* ================================================================== *)

(** ** JavaScript strings and buffers *)

(** [c.toLowerCase()] on one ASCII character. *)
Definition lower_ascii (c : ascii) : ascii :=
  let n := nat_of_ascii c in
  if (65 <=? n)%nat && (n <=? 90)%nat then ascii_of_nat (n + 32) else c.

(** [s.toLowerCase()]; the strings handled here are hexadecimal. *)
Fixpoint toLowerCase (s : string) : string :=
  match s with
  | EmptyString => EmptyString
  | String c s' => String (lower_ascii c) (toLowerCase s')
  end.

Definition hex_digit (n : N) : ascii :=
  match n with
  | 0 => "0" | 1 => "1" | 2 => "2" | 3 => "3" | 4 => "4" | 5 => "5"
  | 6 => "6" | 7 => "7" | 8 => "8" | 9 => "9" | 10 => "a" | 11 => "b"
  | 12 => "c" | 13 => "d" | 14 => "e" | _ => "f"
  end%N%char.

Definition hex_value (c : ascii) : option N :=
  let n := N_of_ascii c in
  if (48 <=? n)%N && (n <=? 57)%N then Some (n - 48)%N
  else if (97 <=? n)%N && (n <=? 102)%N then Some (n - 87)%N
  else if (65 <=? n)%N && (n <=? 70)%N then Some (n - 55)%N
  else None.

Definition byteToHex (b : byte) : string :=
  let n := Byte.to_N b in
  String (hex_digit (n / 16)) (String (hex_digit (n mod 16)) EmptyString).

(** [bytesToHex b = Buffer.from(b).toString('hex')]. *)
Fixpoint bytesToHex (b : list byte) : string :=
  match b with
  | [] => EmptyString
  | x :: b' => byteToHex x +:+ bytesToHex b'
  end.

(** [hexToBytes h = Buffer.from(h, 'hex')]: decoding stops at the first
    pair that is not two hexadecimal digits. *)
Fixpoint hexToBytes (h : string) : list byte :=
  match h with
  | String a (String b h') =>
      match hex_value a, hex_value b with
      | Some x, Some y =>
          match Byte.of_N (16 * x + y) with
          | Some c => c :: hexToBytes h'
          | None => []
          end
      | _, _ => []
      end
  | _ => []
  end.

(** ** JavaScript [Set] of strings: insertion ordered, no duplicates *)

Module JsSet.
Definition t := list string.
Definition empty : t := [].
Definition has (x : string) (s : t) : bool := bool_decide (x ∈ s).
Definition add (x : string) (s : t) : t := if has x s then s else s ++ [x].
(** [new Set(array)] *)
Definition of_list (l : list string) : t := foldl (fun s x => add x s) empty l.
(** [Array.from(set)] *)
Definition to_list (s : t) : list string := s.
End JsSet.

(** ** JavaScript [Map] with string keys: insertion ordered.
    [set] on a present key replaces the value in place, on a new key it
    appends the entry; iteration follows the entry list. *)

Module JsMap.
Definition t (V : Type) := list (string * V).
Definition empty {V} : t V := [].
Fixpoint get {V} (k : string) (m : t V) : option V :=
  match m with
  | [] => None
  | (k', v) :: m' => if String.eqb k k' then Some v else get k m'
  end.
Definition has {V} (k : string) (m : t V) : bool :=
  match get k m with Some _ => true | None => false end.
Fixpoint set {V} (k : string) (v : V) (m : t V) : t V :=
  match m with
  | [] => [(k, v)]
  | (k', v') :: m' =>
      if String.eqb k k' then (k, v) :: m' else (k', v') :: set k v m'
  end.
Fixpoint delete {V} (k : string) (m : t V) : t V :=
  match m with
  | [] => []
  | (k', v') :: m' =>
      if String.eqb k k' then m' else (k', v') :: delete k m'
  end.
Definition size {V} (m : t V) : nat := length m.
Definition keys {V} (m : t V) : list string := map fst m.
Definition values {V} (m : t V) : list V := map snd m.
Definition entries {V} (m : t V) : list (string * V) := m.
End JsMap.

(** ** Exceptions *)

Inductive Exn : Type :=
| Error (message : string)      (* [throw new Error(message)] *)
| TypeError                      (* a property read on [undefined], or a
                                    call of what is not a function *)
| CslError                       (* thrown by the serialization library *)
| HttpError (detail : string).   (* rejected request of the indexer client *)

Inductive Result (A : Type) : Type :=
| Ok (a : A)
| Throw (e : Exn).
Arguments Ok {A} a.
Arguments Throw {A} e.

#[global] Instance Result_ret : MRet Result := fun A a => Ok a.
#[global] Instance Result_bind : MBind Result := fun A B f r =>
  match r with
  | Ok a => f a
  | Throw e => Throw e
  end.

(** A library call that throws when it has no result. *)
Definition csl {A : Type} (o : option A) : Result A :=
  match o with
  | Some a => Ok a
  | None => Throw CslError
  end.

(** [for (const x of xs) acc = body(acc, x)], stopping at the first throw. *)
Fixpoint foldM {A B : Type} (body : B -> A -> Result B) (acc : B) (xs : list A)
  : Result B :=
  match xs with
  | [] => Ok acc
  | x :: xs' => acc' ← body acc x; foldM body acc' xs'
  end.

(** [for (let i = 0; i < xs.len(); i++) body(i, xs.get(i))] over a state,
    stopping at the first throw. *)
Definition forIndexed {A St : Type} (body : nat -> A -> St -> Result St)
  : nat -> list A -> St -> Result St :=
  fix loop (i : nat) (xs : list A) (s : St) : Result St :=
    match xs with
    | [] => Ok s
    | x :: xs' =>
        match body i x s with
        | Ok s' => loop (S i) xs' s'
        | Throw e => Throw e
        end
    end.

(** ** Native scripts *)

(** [CSL.NativeScript]: the six kinds of [K]; the children of a container
    are what [getChildScripts] returns. The [default] branch of
    [collectScriptInfo] is not reachable for a parsed script. *)
#[warnings="-register-all"]
Inductive NativeScript : Type :=
| ScriptPubkey (addr_keyhash : list byte)
| ScriptAll (native_scripts : list NativeScript)
| ScriptAny (native_scripts : list NativeScript)
| ScriptNOfK (n : nat) (native_scripts : list NativeScript)
| TimelockStart (slot : N)
| TimelockExpiry (slot : N).

Module K.
Definition SCRIPT_PUBKEY := 0%nat.
Definition SCRIPT_ALL := 1%nat.
Definition SCRIPT_ANY := 2%nat.
Definition SCRIPT_N_OF_K := 3%nat.
Definition SCRIPT_INVALID_BEFORE := 4%nat.
Definition SCRIPT_INVALID_HEREAFTER := 5%nat.
End K.

Definition kind (s : NativeScript) : nat :=
  match s with
  | ScriptPubkey _ => K.SCRIPT_PUBKEY
  | ScriptAll _ => K.SCRIPT_ALL
  | ScriptAny _ => K.SCRIPT_ANY
  | ScriptNOfK _ _ => K.SCRIPT_N_OF_K
  | TimelockStart _ => K.SCRIPT_INVALID_BEFORE
  | TimelockExpiry _ => K.SCRIPT_INVALID_HEREAFTER
  end.

(** Structural induction with the children of a container as a [Forall]. *)
Section NativeScript_induction.
Variable P : NativeScript -> Prop.
Hypothesis Hpubkey : forall kh, P (ScriptPubkey kh).
Hypothesis Hall : forall l, Forall P l -> P (ScriptAll l).
Hypothesis Hany : forall l, Forall P l -> P (ScriptAny l).
Hypothesis Hnofk : forall n l, Forall P l -> P (ScriptNOfK n l).
Hypothesis Hstart : forall slot, P (TimelockStart slot).
Hypothesis Hexpiry : forall slot, P (TimelockExpiry slot).

Fixpoint NativeScript_tree_ind (t : NativeScript) : P t :=
  let fix children (l : list NativeScript) : Forall P l :=
    match l with
    | [] => @List.Forall_nil _ P
    | x :: l' => @List.Forall_cons _ P x l' (NativeScript_tree_ind x) (children l')
    end in
  match t with
  | ScriptPubkey kh => Hpubkey kh
  | ScriptAll l => Hall l (children l)
  | ScriptAny l => Hany l (children l)
  | ScriptNOfK n l => Hnofk n l (children l)
  | TimelockStart slot => Hstart slot
  | TimelockExpiry slot => Hexpiry slot
  end.
End NativeScript_induction.

(** One entry of the structure trace [acc.tree]. *)
Inductive TreeNode : Type :=
| node_pubkey (keyHash : string) (path : list string)
| node_all (path : list string)
| node_any (path : list string)
| node_atLeast (n k : nat) (path : list string)
| node_invalid_before (slot : N) (path : list string)
| node_invalid_hereafter (slot : N) (path : list string).

Definition node_type (x : TreeNode) : string :=
  match x with
  | node_pubkey _ _ => "pubkey"
  | node_all _ => "all"
  | node_any _ => "any"
  | node_atLeast _ _ _ => "atLeast"
  | node_invalid_before _ _ => "invalid_before"
  | node_invalid_hereafter _ _ => "invalid_hereafter"
  end.

(** The accumulator [acc] of [collectScriptInfo]. *)
Record ScriptInfo : Type := mkScriptInfo {
  keys : JsSet.t;
  thresholds : list nat;
  invalidBefore : option N;
  invalidHereafter : option N;
  tree : list TreeNode
}.

Definition add_key (h : string) (acc : ScriptInfo) : ScriptInfo :=
  mkScriptInfo (JsSet.add h (keys acc)) (thresholds acc)
    (invalidBefore acc) (invalidHereafter acc) (tree acc).
Definition push_threshold (n : nat) (acc : ScriptInfo) : ScriptInfo :=
  mkScriptInfo (keys acc) (thresholds acc ++ [n])
    (invalidBefore acc) (invalidHereafter acc) (tree acc).
Definition push_tree (x : TreeNode) (acc : ScriptInfo) : ScriptInfo :=
  mkScriptInfo (keys acc) (thresholds acc)
    (invalidBefore acc) (invalidHereafter acc) (tree acc ++ [x]).
Definition set_invalidBefore (v : N) (acc : ScriptInfo) : ScriptInfo :=
  mkScriptInfo (keys acc) (thresholds acc)
    (Some v) (invalidHereafter acc) (tree acc).
Definition set_invalidHereafter (v : N) (acc : ScriptInfo) : ScriptInfo :=
  mkScriptInfo (keys acc) (thresholds acc)
    (invalidBefore acc) (Some v) (tree acc).

Definition MAX_SAFE_INTEGER : N := (2 ^ 53 - 1)%N.

(** [slot.to_str()], where [slot] is what [as_timelock_start().slot()]
    or [as_timelock_expiry().slot()] returned. The library returns the
    slot as a JavaScript number, which has no method [to_str]: the call
    throws a [TypeError], whatever the slot. *)
Definition slot_to_str (slot : N) : Result N := Throw TypeError.

(** [collectScriptInfo(nativeScript, acc, path)]. The walk of a script
    with a time lock does not return: both time-lock branches read the
    slot with [Number(slot.to_str())]. *)
Fixpoint collectScriptInfo (nativeScript : NativeScript) (acc : ScriptInfo)
    (path : list string) : Result ScriptInfo :=
  match nativeScript with
  | ScriptPubkey kh =>
      let hex := bytesToHex kh in
      let acc := add_key (toLowerCase hex) acc in
      Ok (push_tree (node_pubkey (toLowerCase hex) path) acc)
  | ScriptAll scripts =>
      let acc := push_tree (node_all path) acc in
      forIndexed (fun i s acc =>
        collectScriptInfo s acc (path ++ ["all[" +:+ pretty i +:+ "]"]))
        0%nat scripts acc
  | ScriptAny scripts =>
      let acc := push_tree (node_any path) acc in
      forIndexed (fun i s acc =>
        collectScriptInfo s acc (path ++ ["any[" +:+ pretty i +:+ "]"]))
        0%nat scripts acc
  | ScriptNOfK n scripts =>
      let acc := push_threshold n acc in
      let acc := push_tree (node_atLeast n (length scripts) path) acc in
      forIndexed (fun i s acc =>
        collectScriptInfo s acc
          (path ++ ["atLeast(n=" +:+ pretty n +:+ ")[" +:+ pretty i +:+ "]"]))
        0%nat scripts acc
  | TimelockStart slot =>
      match slot_to_str slot with
      | Throw e => Throw e
      | Ok s =>
          let acc :=
            set_invalidBefore (N.max (default 0%N (invalidBefore acc)) s) acc in
          Ok (push_tree (node_invalid_before s path) acc)
      end
  | TimelockExpiry slot =>
      match slot_to_str slot with
      | Throw e => Throw e
      | Ok s =>
          let acc :=
            set_invalidHereafter
              (N.min (default MAX_SAFE_INTEGER (invalidHereafter acc)) s) acc in
          Ok (push_tree (node_invalid_hereafter s path) acc)
      end
  end.

(** The object returned by [deriveSummary]. *)
Record ScriptSummary : Type := mkScriptSummary {
  mRequired : nat;
  totalKeys : nat;
  requiredKeyHashes : list string;
  hasTimeConstraints : bool;
  summaryInvalidBefore : option N;
  summaryInvalidHereafter : option N;
  scriptHash : string;
  structure : list TreeNode
}.

(** [deriveSummary] after [CSL.NativeScript.from_bytes]: [ns] is the parsed
    script and [scriptHashHex] the hex of [ns.hash(...)]. An exception of
    the walk leaves [deriveSummary] uncaught. *)
Definition summarize (ns : NativeScript) (scriptHashHex : string)
  : Result ScriptSummary :=
  info ← collectScriptInfo ns (mkScriptInfo JsSet.empty [] None None []) [];
  let requiredKeyHashes := JsSet.to_list (keys info) in
  let mRequired :=
    if (0 <? length (thresholds info))%nat then max_list (thresholds info)
    else
      let hasAny := existsb (fun n => String.eqb (node_type n) "any") (tree info) in
      if hasAny then 1%nat else length requiredKeyHashes in
  let hasTimeConstraints :=
    bool_decide (invalidBefore info <> None)
    || bool_decide (invalidHereafter info <> None) in
  Ok (mkScriptSummary mRequired (length requiredKeyHashes) requiredKeyHashes
        hasTimeConstraints (invalidBefore info)
        (if bool_decide (invalidHereafter info = Some MAX_SAFE_INTEGER) then None
         else invalidHereafter info)
        scriptHashHex (tree info)).

(** ** What the specification says about a script tree *)

(** The [n] of every [AtLeast(n, ...)] node of the tree. *)
Fixpoint atLeastThresholds (t : NativeScript) : list nat :=
  match t with
  | ScriptNOfK n l => n :: flat_map atLeastThresholds l
  | ScriptAll l | ScriptAny l => flat_map atLeastThresholds l
  | _ => []
  end.

(** Whether the tree has an [Any] node. *)
Fixpoint containsAny (t : NativeScript) : bool :=
  match t with
  | ScriptAny _ => true
  | ScriptAll l | ScriptNOfK _ l => existsb containsAny l
  | _ => false
  end.

(** The key hashes of the pubkey leaves, left to right. *)
Fixpoint pubkeyHashes (t : NativeScript) : list (list byte) :=
  match t with
  | ScriptPubkey kh => [kh]
  | ScriptAll l | ScriptAny l | ScriptNOfK _ l => flat_map pubkeyHashes l
  | _ => []
  end.

(** Whether the tree has a time lock, [InvalidBefore] or
    [InvalidHereafter]. *)
Fixpoint hasTimelock (t : NativeScript) : bool :=
  match t with
  | TimelockStart _ | TimelockExpiry _ => true
  | ScriptAll l | ScriptAny l | ScriptNOfK _ l => existsb hasTimelock l
  | ScriptPubkey _ => false
  end.

(** The key under which a pubkey leaf is recorded. *)
Definition keyOf (kh : list byte) : string := toLowerCase (bytesToHex kh).

Definition is_any (x : TreeNode) : bool := String.eqb (node_type x) "any".

(** What one walk adds to the accumulator. *)
Definition collects (t : NativeScript) (acc r : ScriptInfo) : Prop :=
  thresholds r = thresholds acc ++ atLeastThresholds t
  /\ keys r = foldl (fun s h => JsSet.add (keyOf h) s) (keys acc) (pubkeyHashes t)
  /\ existsb is_any (tree r) = existsb is_any (tree acc) || containsAny t.

#[global] Instance byte_eq_decision : EqDecision byte := Byte.byte_eq_dec.

(** Number of distinct pubkey key hashes of the tree. *)
Definition distinctKeys (t : NativeScript) : nat :=
  length (remove_dups (pubkeyHashes t)).


(** ** Library data: numbers, hashes, values *)

(** Quantities travel as decimal strings; a string is modelled by the
    integer it denotes ([BigInt(s)]). [CSL.BigNum] is an unsigned 64-bit
    integer with checked arithmetic. *)
Definition U64_MAX : Z := (2 ^ 64 - 1)%Z.

Module BigNum.
Definition from_str (s : Z) : Result Z :=
  if (0 <=? s)%Z && (s <=? U64_MAX)%Z then Ok s else Throw CslError.
Definition checked_add (a b : Z) : Result Z :=
  if (a + b <=? U64_MAX)%Z then Ok (a + b)%Z else Throw CslError.
(** [a.compare(b)] *)
Definition compare (a b : Z) : Z :=
  match Z.compare a b with Lt => (-1)%Z | Eq => 0%Z | Gt => 1%Z end.
End BigNum.

Definition bigAdd (a b : Z) : Z := (a + b)%Z.
Definition bigSub (a b : Z) : Z := (a - b)%Z.
Definition bigGtEq (a b : Z) : bool := (b <=? a)%Z.

#[global] Instance byte_countable : Countable byte :=
  inj_countable Byte.to_N Byte.of_N Byte.of_to_N.

(** The order of hashes in the library: byte by byte. *)
Fixpoint bytes_compare (a b : list byte) : comparison :=
  match a, b with
  | [], [] => Eq
  | [], _ :: _ => Lt
  | _ :: _, [] => Gt
  | x :: a', y :: b' =>
      match N.compare (Byte.to_N x) (Byte.to_N y) with
      | Eq => bytes_compare a' b'
      | c => c
      end
  end.

(** The order of asset names: shorter names first, then byte by byte. *)
Definition name_compare (a b : list byte) : comparison :=
  match Nat.compare (length a) (length b) with
  | Eq => bytes_compare a b
  | c => c
  end.

(** Fixed-length hashes and bounded names are refused at the wrong length. *)
Definition TransactionHash_from_bytes (b : list byte) : Result (list byte) :=
  if (length b =? 32)%nat then Ok b else Throw CslError.
Definition ScriptHash_from_bytes (b : list byte) : Result (list byte) :=
  if (length b =? 28)%nat then Ok b else Throw CslError.
Definition Ed25519KeyHash_from_bytes (b : list byte) : Result (list byte) :=
  if (length b =? 28)%nat then Ok b else Throw CslError.
Definition AssetName_new (b : list byte) : Result (list byte) :=
  if (length b <=? 32)%nat then Ok b else Throw CslError.

(** [CSL.Assets]: asset name -> quantity; [CSL.MultiAsset]: policy id ->
    assets. Both are keyed containers whose [keys()] enumerate each key
    once. *)
Abbreviation Assets := (gmap (list byte) Z).
Abbreviation MultiAsset := (gmap (list byte) (gmap (list byte) Z)).

(** [m.keys()] with [m.get(k)] for each key: the entries of a keyed
    container, in the order of its keys. *)
Fixpoint insert_entry {V : Type} (cmp : list byte -> list byte -> comparison)
    (x : list byte * V) (l : list (list byte * V)) : list (list byte * V) :=
  match l with
  | [] => [x]
  | y :: l' =>
      match cmp (fst x) (fst y) with
      | Gt => y :: insert_entry cmp x l'
      | _ => x :: y :: l'
      end
  end.

Definition entries_by {V : Type} (cmp : list byte -> list byte -> comparison)
    (m : gmap (list byte) V) : list (list byte * V) :=
  foldr (insert_entry cmp) [] (map_to_list m).

(** The policies of a multi-asset and the names of the assets of a
    policy, as the loops over [keys()] visit them. *)
Abbreviation policies ma := (entries_by bytes_compare ma).
Abbreviation assetNames a := (entries_by name_compare a).

Record Value : Type := mkValue {
  coin : Z;
  multiasset : option MultiAsset
}.

Definition Value_new (c : Z) : Value := mkValue c None.
Definition set_coin (c : Z) (v : Value) : Value := mkValue c (multiasset v).
Definition set_multiasset (ma : MultiAsset) (v : Value) : Value :=
  mkValue (coin v) (Some ma).

(** One entry [{unit, quantity}] of an amount as the indexer and the
    clients send it. *)
Record AmountEntry : Type := mkAmount {
  unit : string;
  quantity : Z
}.

(** [unit.toLowerCase()] cut into [slice(0, 56)] and [slice(56)]. *)
Definition splitUnit (u : string) : string * string :=
  let u := toLowerCase u in
  (substring 0 56 u, substring 56 (String.length u - 56) u).

Definition insertQty (inner : Assets) (aname : list byte) (qty : Z)
  : Result Assets :=
  q ← match inner !! aname with
      | Some prev => BigNum.checked_add prev qty
      | None => Ok qty
      end;
  Ok (<[aname := q]> inner).

Definition addAsset (ma : MultiAsset) (a : AmountEntry) : Result MultiAsset :=
  let '(policy, nameHex) := splitUnit (unit a) in
  pid ← ScriptHash_from_bytes (hexToBytes policy);
  aname ← AssetName_new (hexToBytes nameHex);
  qty ← BigNum.from_str (quantity a);
  inner ← insertQty (default ∅ (ma !! pid)) aname qty;
  Ok (<[pid := inner]> ma).

Definition addAssetsToValue (value : Value) (assets : list AmountEntry)
  : Result Value :=
  if (length assets =? 0)%nat then Ok value
  else
    ma ← foldM addAsset (default ∅ (multiasset value)) assets;
    Ok (set_multiasset ma value).

(** [mergeValue(a, b)]: coins and every asset of [b] added to [a]. *)
Definition mergeAssets (dAssets bAssets : Assets) : Result Assets :=
  foldM (fun d '(nm, addQty) => insertQty d nm addQty) dAssets
    (assetNames bAssets).

Definition mergeValue (a b : Value) : Result Value :=
  c ← BigNum.checked_add (coin a) (coin b);
  let out := mkValue c (multiasset a) in
  match multiasset b with
  | None => Ok out
  | Some mb =>
      merged ← foldM (fun merged '(pid, bAssets) =>
                  dAssets ← mergeAssets (default ∅ (merged !! pid)) bAssets;
                  Ok (<[pid := dAssets]> merged))
                (default ∅ (multiasset out)) (policies mb);
      Ok (set_multiasset merged out)
  end.

(** ** Multi-asset arithmetic on the JavaScript side *)

Abbreviation JsAssets := (JsMap.t (JsMap.t Z)).

(** The object [{ coin, assets }] of [valueToJs]. *)
Record JsValue : Type := mkJsValue {
  js_coin : Z;
  js_assets : JsAssets
}.

(** [m.set(nm, m.get(nm) ? bigAdd(m.get(nm), q) : q)]; a stored quantity
    is a non-empty string, hence truthy. *)
Definition jsAddQty (m : JsMap.t Z) (nm : string) (q : Z) : JsMap.t Z :=
  JsMap.set nm
    (match JsMap.get nm m with Some cur => bigAdd cur q | None => q end) m.

(** [valueToJs(value)] *)
Definition valueToJs (value : Value) : JsValue :=
  match multiasset value with
  | None => mkJsValue (coin value) JsMap.empty
  | Some ma =>
      mkJsValue (coin value)
        (foldl (fun out '(pid, assets) =>
                  let pidHex := bytesToHex pid in
                  let m := default JsMap.empty (JsMap.get pidHex out) in
                  JsMap.set pidHex
                    (foldl (fun m '(nm, qty) => jsAddQty m (bytesToHex nm) qty)
                       m (assetNames assets))
                    out)
           JsMap.empty (policies ma))
  end.

Definition jsAssetsAdd (dst add : JsAssets) : JsAssets :=
  foldl (fun dst '(pid, inner) =>
           let d := default JsMap.empty (JsMap.get pid dst) in
           JsMap.set pid (foldl (fun d '(nm, q) => jsAddQty d nm q) d
                            (JsMap.entries inner)) dst)
    dst (JsMap.entries add).

Definition jsAssetsFromOutputSpec (specAssets : list AmountEntry) : JsAssets :=
  foldl (fun m a =>
           let '(pid, nm) := splitUnit (unit a) in
           let d := default JsMap.empty (JsMap.get pid m) in
           JsMap.set pid (jsAddQty d nm (quantity a)) m)
    JsMap.empty specAssets.

Definition insufficient_tokens : string :=
  "insufficient tokens for requested outputs".

(** The inner loop of [jsAssetsSub], over the assets of one policy. *)
Definition subInner (innerB : JsMap.t Z) (resInner : option (JsMap.t Z))
    (e : string * Z) : Result (option (JsMap.t Z)) :=
  let '(nm, qa) := e in
  let qb := default 0%Z (JsMap.get nm innerB) in
  let diff := (qa - qb)%Z in
  if (diff <? 0)%Z then Throw (Error insufficient_tokens)
  else if (0 <? diff)%Z
    then Ok (Some (JsMap.set nm diff (default JsMap.empty resInner)))
    else Ok resInner.

(** [jsAssetsSub(a, b)]: "returns a - b, throws if negative". *)
Definition jsAssetsSub (a b : JsAssets) : Result JsAssets :=
  foldM (fun out '(pid, innerA) =>
           let innerB := default JsMap.empty (JsMap.get pid b) in
           resInner ← foldM (subInner innerB) None (JsMap.entries innerA);
           Ok (match resInner with
               | Some r => JsMap.set pid r out
               | None => out
               end))
    JsMap.empty (JsMap.entries a).

Definition jsAssetsIsEmpty (m : JsAssets) : bool :=
  forallb (fun '(_, inner) => (JsMap.size inner =? 0)%nat) (JsMap.entries m).

Definition jsAssetsToValue (value : Value) (assetsMap : JsAssets)
  : Result Value :=
  ma ← foldM (fun (ma : MultiAsset) '(pidHex, inner) =>
          pid ← ScriptHash_from_bytes (hexToBytes pidHex);
          assets ← foldM (fun (assets : Assets) '(nmHex, qtyStr) =>
                      nm ← AssetName_new (hexToBytes nmHex);
                      q ← BigNum.from_str qtyStr;
                      Ok (<[nm := q]> assets))
                    ∅ (JsMap.entries inner);
          Ok (<[pid := assets]> ma))
        ∅ (JsMap.entries assetsMap);
  Ok (set_multiasset ma value).

(** ** Library data: transactions and witnesses *)

Record Vkeywitness : Type := mkVkeywitness {
  vkey : list byte;        (* the public key *)
  signature : list byte
}.

(** A witness set: key witnesses, native scripts, and whatever else a
    witness set may carry (bootstrap witnesses, Plutus scripts and data,
    redeemers), kept as opaque items. *)
Record TransactionWitnessSet : Type := mkWitnessSet {
  vkeys : option (list Vkeywitness);
  native_scripts : option (list NativeScript);
  other_witnesses : list (list byte)
}.

Definition TransactionWitnessSet_new : TransactionWitnessSet :=
  mkWitnessSet None None [].
Definition set_vkeys (vws : list Vkeywitness) (ws : TransactionWitnessSet)
  : TransactionWitnessSet :=
  mkWitnessSet (Some vws) (native_scripts ws) (other_witnesses ws).
Definition set_native_scripts (ns : list NativeScript)
    (ws : TransactionWitnessSet) : TransactionWitnessSet :=
  mkWitnessSet (vkeys ws) (Some ns) (other_witnesses ws).

Record TransactionInput : Type := mkInput {
  transaction_id : list byte;
  index : nat
}.

Record TransactionOutput : Type := mkOutput {
  out_address : list byte;
  out_amount : Value
}.

Record TransactionBody : Type := mkBody {
  inputs : list TransactionInput;
  outputs : list TransactionOutput;
  fee : Z;
  required_signers : list (list byte)
}.

Record Transaction : Type := mkTransaction {
  body : TransactionBody;
  witness_set : TransactionWitnessSet
}.

Record TransactionBuilderConfig : Type := mkBuilderConfig {
  fee_algo : Z * Z;
  cfg_pool_deposit : Z;
  cfg_key_deposit : Z;
  max_value_size : N;
  cfg_max_tx_size : N;
  cfg_coins_per_utxo_byte : Z
}.

(** What the serialization library contributes and the sources do not
    show: codecs, hashes, address encoding, and the checks of the
    transaction builder ([add_output]: value size and minimum UTxO coin;
    [build]: transaction size). *)
Record CSLib : Type := mkCSLib {
  Address_from_bech32 : string -> option (list byte);
  Address_to_bech32 : list byte -> string;
  NativeScript_from_bytes : list byte -> option NativeScript;
  NativeScript_hash : NativeScript -> list byte;
  PublicKey_hash : list byte -> list byte;
  TransactionBody_from_bytes : list byte -> option TransactionBody;
  TransactionBody_to_bytes : TransactionBody -> list byte;
  TransactionWitnessSet_from_bytes : list byte -> option TransactionWitnessSet;
  TransactionWitnessSet_to_bytes : TransactionWitnessSet -> list byte;
  Transaction_from_bytes : list byte -> option Transaction;
  Transaction_to_bytes : Transaction -> list byte;
  hash_transaction : TransactionBody -> list byte;
  add_output_accepts : TransactionBuilderConfig -> TransactionOutput -> bool;
  build_accepts : TransactionBuilderConfig -> TransactionBody -> bool
}.

(** [deriveSummary(scriptHex)] *)
Definition deriveSummary (lib : CSLib) (scriptHex : string)
  : Result ScriptSummary :=
  ns ← csl (NativeScript_from_bytes lib (hexToBytes scriptHex));
  summarize ns (bytesToHex (NativeScript_hash lib ns)).

(** ** The indexer client ([bfClient]) and what it returns *)

Record Utxo : Type := mkUtxo {
  tx_hash : string;
  output_index : nat;
  amount : list AmountEntry
}.

Record ProtocolParams : Type := mkProtocolParams {
  min_fee_a : Z;
  min_fee_b : Z;
  pool_deposit : Z;
  key_deposit : Z;
  max_val_size : option N;
  max_tx_size : option N;
  coins_per_utxo_size : option Z;
  coins_per_utxo_byte : option Z
}.

(** The answers of the indexer during one request. *)
Record Blockfrost : Type := mkBlockfrost {
  utxosByAddress : string -> Result (list Utxo);
  protocolParams : Result ProtocolParams;
  submitTx : list byte -> Result string
}.

(** ** The transaction builder (fixed fee, explicit change) *)

(** One requested output [{address, lovelace, assets}] of explicit mode. *)
Record OutputRequest : Type := mkOutputRequest {
  address : string;
  lovelace : option Z;
  assets : option (list AmountEntry)
}.

(** One entry [{address, coin, assetsMap}] of [outSpecs]. *)
Record OutSpec : Type := mkOutSpec {
  spec_address : string;
  spec_coin : Z;
  assetsMap : JsAssets
}.

(** One row [{address, lovelace, assets}] of [preview.computedOutputs]. *)
Record PreviewRow : Type := mkPreviewRow {
  row_address : string;
  row_lovelace : Z;
  row_assets : list AmountEntry
}.

Record Preview : Type := mkPreview {
  mode : string;
  selectedInputs : list Utxo;
  computedOutputs : list PreviewRow;
  preview_fee : Z;
  changeCoin : Z;
  changeHasTokens : bool
}.

(** The object returned by [buildUnsignedTx]. *)
Record BuildArtifact : Type := mkArtifact {
  txId : string;
  txBodyHex : string;
  txHex : string;
  initialWitnessSetHex : string;
  preview : Preview
}.

(** The running totals of step 2: [outSpecs], [outCoin], [outAssets]. *)
Record OutPlan : Type := mkOutPlan {
  outSpecs : list OutSpec;
  outCoin : Z;
  outAssets : JsAssets
}.

(** [CSL.TransactionBuilder]: what [add_input], [add_output], [set_fee]
    and [add_required_signer] have recorded; the inputs are kept by key,
    each once. *)
Record TransactionBuilder : Type := mkBuilder {
  tb_config : TransactionBuilderConfig;
  tb_inputs : list (list byte * TransactionInput * Value);
  tb_outputs : list TransactionOutput;
  tb_fee : option Z;
  tb_required_signers : list (list byte)
}.

Definition insufficient_ada : string :=
  "insufficient ADA for outputs + 1 ADA fee".
Definition insufficient_change_ada : string :=
  "insufficient ADA for change that carries tokens (needs at least MIN_ADA)".
Definition dest_missing : string := "DEST address missing".
Definition invalid_mode : string := "invalid mode".

Section Builder.
Context (lib : CSLib).
(** [MIN_ADA] and [FIXED_FEE]: the decimal strings read from the
    environment, 2_000_000 and 1_000_000 when unset. *)
Context (MIN_ADA FIXED_FEE : Z).

Definition bumpAdaIfTokens (value : Value) : Result Value :=
  match multiasset value with
  | None => Ok value
  | Some _ =>
      floor ← BigNum.from_str MIN_ADA;
      Ok (if (BigNum.compare (coin value) floor <? 0)%Z
          then set_coin floor value else value)
  end.

(** [u.amount.filter(a => a.unit !== 'lovelace')] *)
Definition utxoAssets (u : Utxo) : list AmountEntry :=
  List.filter (fun a => negb (String.eqb (unit a) "lovelace")) (amount u).

(** The value of one UTxO as both loops over [utxos] rebuild it. *)
Definition utxoValue (u : Utxo) : Result Value :=
  match List.find (fun a => String.eqb (unit a) "lovelace") (amount u) with
  | None => Throw TypeError
  | Some l =>
      c ← BigNum.from_str (quantity l);
      addAssetsToValue (Value_new c) (utxoAssets u)
  end.

Definition utxoInput (u : Utxo) : Result TransactionInput :=
  txHash ← TransactionHash_from_bytes (hexToBytes (tx_hash u));
  Ok (mkInput txHash (output_index u)).

(** Step 1: [totalValue], the sum of all inputs. *)
Definition sumInputs (utxos : list Utxo) : Result Value :=
  foldM (fun totalValue u =>
           _ ← utxoInput u;
           v ← utxoValue u;
           mergeValue totalValue v)
    (Value_new 0) utxos.

(** [!destAddress] *)
Definition falsy (s : option string) : bool :=
  match s with
  | None => true
  | Some s => String.eqb s ""
  end.

(** The coin of a requested output: "token outputs must have ADA floor". *)
Definition effectiveCoin (o : OutputRequest) : Z :=
  let coin := default 0%Z (lovelace o) in
  let aMap := jsAssetsFromOutputSpec (default [] (assets o)) in
  if jsAssetsIsEmpty aMap then coin
  else if bigGtEq coin MIN_ADA then coin else MIN_ADA.

(** One turn of the loop of explicit mode over the requested outputs. *)
Definition planStep (plan : OutPlan) (o : OutputRequest) : OutPlan :=
  let aMap := jsAssetsFromOutputSpec (default [] (assets o)) in
  let effectiveCoin := effectiveCoin o in
  mkOutPlan
    (outSpecs plan ++ [mkOutSpec (address o) effectiveCoin aMap])
    (bigAdd (outCoin plan) effectiveCoin)
    (jsAssetsAdd (outAssets plan) aMap).

(** Step 2: the outputs and their aggregates. *)
Definition planOutputs (mode : string) (destAddress : option string)
    (outputs : option (list OutputRequest)) (totalJS : JsValue)
  : Result OutPlan :=
  if String.eqb mode "sendAll" then
    if falsy destAddress then Throw (Error dest_missing)
    else
      Ok (mkOutPlan
            [mkOutSpec (default "" destAddress) MIN_ADA (js_assets totalJS)]
            (bigAdd 0 MIN_ADA)
            (jsAssetsAdd JsMap.empty (js_assets totalJS)))
  else if String.eqb mode "explicit" then
    Ok (foldl planStep (mkOutPlan [] 0 JsMap.empty) (default [] outputs))
  else Throw (Error invalid_mode).

(** Step 3: change = total - outputs - fee. *)
Definition computeChange (totalJS : JsValue) (plan : OutPlan)
  : Result (JsAssets * Z) :=
  let fee := FIXED_FEE in
  if negb (bigGtEq (js_coin totalJS) (bigAdd (outCoin plan) fee))
  then Throw (Error insufficient_ada)
  else
    changeAssets ← jsAssetsSub (js_assets totalJS) (outAssets plan);
    let changeCoin := bigSub (bigSub (js_coin totalJS) (outCoin plan)) fee in
    if negb (jsAssetsIsEmpty changeAssets) && negb (bigGtEq changeCoin MIN_ADA)
    then Throw (Error insufficient_change_ada)
    else Ok (changeAssets, changeCoin).

Definition builderConfig (protocol : ProtocolParams)
  : Result TransactionBuilderConfig :=
  a ← BigNum.from_str (min_fee_a protocol);
  b ← BigNum.from_str (min_fee_b protocol);
  pd ← BigNum.from_str (pool_deposit protocol);
  kd ← BigNum.from_str (key_deposit protocol);
  cpub ← BigNum.from_str
           (default (default 4310%Z (coins_per_utxo_byte protocol))
              (coins_per_utxo_size protocol));
  Ok (mkBuilderConfig (a, b) pd kd
        (default 5000%N (max_val_size protocol))
        (default 16384%N (max_tx_size protocol)) cpub).

(** The builder keeps its inputs in a map keyed by the input, a
    transaction hash and an index, in the order of the keys: hashes byte
    by byte, then indices. *)
Definition input_compare (i j : TransactionInput) : comparison :=
  match bytes_compare (transaction_id i) (transaction_id j) with
  | Eq => Nat.compare (index i) (index j)
  | c => c
  end.

(** The entry of an input is put at the place of its key; an entry
    already there for the same input is replaced. *)
Fixpoint insert_input (x : list byte * TransactionInput * Value)
    (l : list (list byte * TransactionInput * Value))
  : list (list byte * TransactionInput * Value) :=
  match l with
  | [] => [x]
  | y :: l' =>
      match input_compare (snd (fst x)) (snd (fst y)) with
      | Lt => x :: y :: l'
      | Eq => x :: l'
      | Gt => y :: insert_input x l'
      end
  end.

Definition add_input (addr : list byte) (input : TransactionInput) (v : Value)
    (tb : TransactionBuilder) : TransactionBuilder :=
  mkBuilder (tb_config tb) (insert_input (addr, input, v) (tb_inputs tb))
    (tb_outputs tb) (tb_fee tb) (tb_required_signers tb).

Definition add_output (output : TransactionOutput) (tb : TransactionBuilder)
  : Result TransactionBuilder :=
  if add_output_accepts lib (tb_config tb) output
  then Ok (mkBuilder (tb_config tb) (tb_inputs tb) (tb_outputs tb ++ [output])
             (tb_fee tb) (tb_required_signers tb))
  else Throw CslError.

Definition set_fee (f : Z) (tb : TransactionBuilder) : TransactionBuilder :=
  mkBuilder (tb_config tb) (tb_inputs tb) (tb_outputs tb) (Some f)
    (tb_required_signers tb).

Definition add_required_signer (kh : list byte) (tb : TransactionBuilder)
  : TransactionBuilder :=
  mkBuilder (tb_config tb) (tb_inputs tb) (tb_outputs tb) (tb_fee tb)
    (tb_required_signers tb ++ [kh]).

(** [tb.build()] *)
Definition build (tb : TransactionBuilder) : Result TransactionBody :=
  match tb_fee tb with
  | None => Throw CslError
  | Some f =>
      let body := mkBody (map (fun x => snd (fst x)) (tb_inputs tb))
                    (tb_outputs tb) f (tb_required_signers tb) in
      if build_accepts lib (tb_config tb) body then Ok body else Throw CslError
  end.

(** The output built from one entry of [outSpecs]. *)
Definition specOutput (spec : OutSpec) : Result TransactionOutput :=
  v ← BigNum.from_str (spec_coin spec);
  let v := Value_new v in
  v ← (if negb (jsAssetsIsEmpty (assetsMap spec))
        then jsAssetsToValue v (assetsMap spec) else Ok v);
  v ← (if bool_decide (multiasset v <> None) then bumpAdaIfTokens v else Ok v);
  addr ← csl (Address_from_bech32 lib (spec_address spec));
  Ok (mkOutput addr v).

(** The change output, when there is one. *)
Definition changeOutput (mode : string) (destAddress : option string)
    (msAddr : list byte) (changeAssets : JsAssets) (changeCoin : Z)
  : Result (option TransactionOutput) :=
  if (0 <? changeCoin)%Z || negb (jsAssetsIsEmpty changeAssets) then
    c ← BigNum.from_str (if (changeCoin <? 0)%Z then 0%Z else changeCoin);
    let changeVal := Value_new c in
    changeVal ← (if negb (jsAssetsIsEmpty changeAssets)
                  then jsAssetsToValue changeVal changeAssets else Ok changeVal);
    changeVal ← (if bool_decide (multiasset changeVal <> None)
                  then bumpAdaIfTokens changeVal else Ok changeVal);
    changeAddr ← (if String.eqb mode "sendAll"
                   then csl (Address_from_bech32 lib (default "" destAddress))
                   else Ok msAddr);
    Ok (Some (mkOutput changeAddr changeVal))
  else Ok None.

(** [buildUnsignedTx] up to [tb.build()]: the body, with the fee, the
    change coin and the change assets that the preview reports. *)
Definition buildBody (bf : Blockfrost) (multisigAddress : string)
    (requiredKeyHashes : list string)
    (mode : string) (destAddress : option string)
    (outputs : option (list OutputRequest))
  : Result (TransactionBody * list Utxo * JsAssets * Z) :=
  protocol ← protocolParams bf;
  msAddr ← csl (Address_from_bech32 lib multisigAddress);
  (* 1) inputs and their total *)
  utxos ← utxosByAddress bf multisigAddress;
  totalValue ← sumInputs utxos;
  let totalJS := valueToJs totalValue in
  (* 2) outputs *)
  plan ← planOutputs mode destAddress outputs totalJS;
  (* 3) change *)
  '(changeAssets, changeCoin) ← computeChange totalJS plan;
  (* 4) the transaction *)
  cfg ← builderConfig protocol;
  let tb := mkBuilder cfg [] [] None [] in
  tb ← foldM (fun tb u =>
          input ← utxoInput u;
          v ← utxoValue u;
          Ok (add_input msAddr input v tb)) tb utxos;
  tb ← foldM (fun tb spec =>
          output ← specOutput spec;
          add_output output tb) tb (outSpecs plan);
  change ← changeOutput mode destAddress msAddr changeAssets changeCoin;
  tb ← match change with
       | Some output => add_output output tb
       | None => Ok tb
       end;
  fee ← BigNum.from_str FIXED_FEE;
  let tb := set_fee fee tb in
  let tb := foldl (fun tb khHex =>
                     match Ed25519KeyHash_from_bytes
                             (hexToBytes (toLowerCase khHex)) with
                     | Ok kh => add_required_signer kh tb
                     | Throw _ => tb
                     end) tb requiredKeyHashes in
  body ← build tb;
  Ok (body, utxos, changeAssets, changeCoin).

(** The preview row of one output of the body. *)
Definition previewRow (o : TransactionOutput) : PreviewRow :=
  mkPreviewRow (Address_to_bech32 lib (out_address o)) (coin (out_amount o))
    (match multiasset (out_amount o) with
     | None => []
     | Some ma =>
         foldl (fun rows '(pid, assets) =>
                  foldl (fun rows '(nm, qty) =>
                           rows ++ [mkAmount (bytesToHex pid +:+ bytesToHex nm) qty])
                    rows (assetNames assets))
           [] (policies ma)
     end).

(** [preview.computedOutputs]: one row per output of the body. *)
Definition previewRows (body : TransactionBody) : list PreviewRow :=
  map previewRow (outputs body).

Definition buildUnsignedTx (bf : Blockfrost) (multisigAddress : string)
    (paymentScriptHex : string) (requiredKeyHashes : list string)
    (mode : string) (destAddress : option string)
    (outputs : option (list OutputRequest))
  : Result BuildArtifact :=
  '(body, utxos, changeAssets, changeCoin) ←
    buildBody bf multisigAddress requiredKeyHashes mode destAddress outputs;
  let hash := hash_transaction lib body in
  ns ← csl (NativeScript_from_bytes lib (hexToBytes paymentScriptHex));
  let ws := set_native_scripts [ns] TransactionWitnessSet_new in
  let unsignedTx := mkTransaction body ws in
  let preview :=
    mkPreview mode utxos (previewRows body) FIXED_FEE changeCoin
      (negb (jsAssetsIsEmpty changeAssets)) in
  Ok (mkArtifact (bytesToHex hash)
        (bytesToHex (TransactionBody_to_bytes lib body))
        (bytesToHex (Transaction_to_bytes lib unsignedTx))
        (bytesToHex (TransactionWitnessSet_to_bytes lib ws))
        preview).

End Builder.

(** ** The session store ([txStore.js]) *)

Module txStore.

(** A record of [txs]:
    [{ txHex, txBodyHex, scriptHex, m, signersKeyHashes, witnesses, preview }]. *)
Record TxRecord : Type := mkTxRecord {
  txHex : string;
  txBodyHex : string;
  scriptHex : string;
  m : nat;
  signersKeyHashes : list string;
  witnesses : JsMap.t string;
  preview : Preview
}.

Definition set_witnesses (w : JsMap.t string) (rec : TxRecord) : TxRecord :=
  mkTxRecord (txHex rec) (txBodyHex rec) (scriptHex rec) (m rec)
    (signersKeyHashes rec) w (preview rec).

(** The result of [addWitness]: [{ ok: false, error: 'not_found' }] or
    [{ ok: true, count, m }]. *)
Inductive AddWitnessResult : Type :=
| add_not_found
| add_ok (count m : nat).

(** The object returned by [status]. *)
Record Status : Type := mkStatus {
  status_m : nat;
  required : list string;
  collected : list string;
  status_preview : Preview
}.

Definition createTxRecord (txId : string) (txHex txBodyHex scriptHex : string)
    (m : nat) (signersKeyHashes : list string) (preview : Preview)
    (txs : gmap string TxRecord) : gmap string TxRecord :=
  <[txId := mkTxRecord txHex txBodyHex scriptHex m signersKeyHashes
              JsMap.empty preview]> txs.

Definition getTxRecord (txId : string) (txs : gmap string TxRecord)
  : option TxRecord := txs !! txId.

Definition addWitness (txId keyHashHex witnessHex : string)
    (txs : gmap string TxRecord) : AddWitnessResult * gmap string TxRecord :=
  match txs !! txId with
  | None => (add_not_found, txs)
  | Some rec =>
      let rec := set_witnesses (JsMap.set keyHashHex witnessHex (witnesses rec)) rec in
      (add_ok (JsMap.size (witnesses rec)) (m rec), <[txId := rec]> txs)
  end.

Definition status (txId : string) (txs : gmap string TxRecord) : option Status :=
  match txs !! txId with
  | None => None
  | Some r => Some (mkStatus (m r) (signersKeyHashes r)
                      (JsMap.keys (witnesses r)) (preview r))
  end.

Definition clearTx (txId : string) (txs : gmap string TxRecord)
  : gmap string TxRecord := delete txId txs.

End txStore.

Abbreviation Store := (gmap string txStore.TxRecord).

(** ** Assembling the final transaction *)

Section Assembler.
Context (lib : CSLib).

(** The loop of [assembleAndSerializeTx]: the key witnesses of every stored
    witness set, appended in the order of [witnessHexes]. *)
Definition aggregateVkeys (witnessHexes : list string)
  : Result (list Vkeywitness) :=
  foldM (fun agg w =>
           ws ← csl (TransactionWitnessSet_from_bytes lib (hexToBytes w));
           Ok (match vkeys ws with
               | Some vks => agg ++ vks
               | None => agg
               end))
    [] witnessHexes.

(** The transaction that [assembleAndSerializeTx] serializes. *)
Definition assembleTx (txBodyHex scriptHex : string)
    (witnessHexes : list string) : Result Transaction :=
  body ← csl (TransactionBody_from_bytes lib (hexToBytes txBodyHex));
  let wsAll := TransactionWitnessSet_new in
  ns ← csl (NativeScript_from_bytes lib (hexToBytes scriptHex));
  let wsAll := set_native_scripts [ns] wsAll in
  agg ← aggregateVkeys witnessHexes;
  let wsAll := if (0 <? length agg)%nat then set_vkeys agg wsAll else wsAll in
  Ok (mkTransaction body wsAll).

Definition assembleAndSerializeTx (txBodyHex scriptHex : string)
    (witnessHexes : list string) : Result (list byte) :=
  signedTx ← assembleTx txBodyHex scriptHex witnessHexes;
  Ok (Transaction_to_bytes lib signedTx).

End Assembler.

(** ** The server: state, requests, handlers *)

(** The process-wide state: the store [txs] and [latestSession]. *)
Record ServerState : Type := mkServerState {
  txs : Store;
  latestSession : option (string * Preview)
}.

Definition initialState : ServerState := mkServerState ∅ None.

(** The JSON answers of the handlers, named by their [error] strings. *)
Inductive Response : Type :=
| missing_params                                               (* 400 *)
| not_found                                                    (* 404 *)
| invalid_witness_cbor                                         (* 400 *)
| empty_vkeys                                                  (* 400 *)
| signer_not_allowed (foundKeyHashes required : list string)   (* 403 *)
| not_enough_witnesses (collected required : nat)              (* 400 *)
| submit_failed (detail : Exn)                                 (* 500 *)
| server_error (detail : Exn)                                  (* 500 *)
| store_error (error : string)                                 (* 500 *)
| created (txId : string) (preview : Preview) (mRequired : nat)
    (requiredKeyHashes : list string) (multisigAddress : string)
| witness_ok (accepted ignored : list string) (collected required : nat)
| submitted (txHash : string)
| reset_ok.

Definition status_code (r : Response) : nat :=
  match r with
  | missing_params | invalid_witness_cbor | empty_vkeys
  | not_enough_witnesses _ _ => 400
  | not_found => 404
  | signer_not_allowed _ _ => 403
  | submit_failed _ | server_error _ | store_error _ => 500
  | created _ _ _ _ _ | witness_ok _ _ _ _ | submitted _ | reset_ok => 200
  end%nat.

(** Request bodies; an absent field is [None]. *)
Record CreateBody : Type := mkCreateBody {
  create_mode : option string;
  create_destAddress : option string;
  create_outputs : option (list OutputRequest)
}.

Record WitnessBody : Type := mkWitnessBody {
  witness_txId : option string;
  signerKeyHashHex : option string;
  witnessHex : option string
}.

Section Server.
Context (lib : CSLib).
Context (MIN_ADA FIXED_FEE : Z).
(** The hard-coded configuration and what is derived from it at start. *)
Context (NETWORK : string) (PAYMENT_SCRIPT_CBOR_HEX : string).
Context (PAYMENT_SUMMARY : ScriptSummary) (MULTISIG_ADDRESS : string).

Definition REQUIRED_KEY_HASHES : list string :=
  map toLowerCase (requiredKeyHashes PAYMENT_SUMMARY).
Definition M_REQUIRED : nat := mRequired PAYMENT_SUMMARY.

(** The start-up guard: "Expected a 2-of-2 script ... Refusing to start". *)
Definition startupAccepts : bool :=
  negb (negb (M_REQUIRED =? 2)%nat || negb (length REQUIRED_KEY_HASHES =? 2)%nat).

(** [POST /api/create] *)
Definition postCreate (bf : Blockfrost) (req : CreateBody) (st : ServerState)
  : Response * ServerState :=
  let mode := default "sendAll" (create_mode req) in
  let destAddress := create_destAddress req in
  let outputs := create_outputs req in
  let multisigAddress := MULTISIG_ADDRESS in
  let paymentScriptHex := PAYMENT_SCRIPT_CBOR_HEX in
  let normalizedRequired := REQUIRED_KEY_HASHES in
  let mReq := M_REQUIRED in
  match buildUnsignedTx lib MIN_ADA FIXED_FEE bf multisigAddress
          paymentScriptHex normalizedRequired mode destAddress outputs with
  | Throw e => (server_error e, st)
  | Ok build =>
      let txs := txStore.createTxRecord (txId build) (txHex build)
                   (txBodyHex build) paymentScriptHex mReq normalizedRequired
                   (preview build) (txs st) in
      (created (txId build) (preview build) mReq normalizedRequired
         multisigAddress,
       mkServerState txs (Some (txId build, preview build)))
  end.

(** The two accepted shapes of a witness blob. *)
Definition parseVkeys (witnessHex : string)
  : Result (option (list Vkeywitness)) :=
  match TransactionWitnessSet_from_bytes lib (hexToBytes witnessHex) with
  | Some ws => Ok (vkeys ws)
  | None =>
      match Transaction_from_bytes lib (hexToBytes witnessHex) with
      | Some tx => Ok (vkeys (witness_set tx))
      | None => Throw CslError
      end
  end.

(** The hash a key witness is attributed to. *)
Definition witnessKeyHash (vw : Vkeywitness) : string :=
  toLowerCase (bytesToHex (PublicKey_hash lib (vkey vw))).

(** The minimal witness set stored for one key witness. *)
Definition singleWitnessHex (vw : Vkeywitness) : string :=
  let wsSingle := TransactionWitnessSet_new in
  let vws := [vw] in
  let wsSingle := set_vkeys vws wsSingle in
  bytesToHex (TransactionWitnessSet_to_bytes lib wsSingle).

(** The loop over the key witnesses of a blob; [inl] is an early return. *)
Fixpoint intake (txId : string) (requiredSet : JsSet.t)
    (vks : list Vkeywitness) (txs : Store) (accepted ignored : list string)
  : (Response * Store) + (Store * list string * list string) :=
  match vks with
  | [] => inr (txs, accepted, ignored)
  | vw :: vks' =>
      let khHex := witnessKeyHash vw in
      if negb (JsSet.has khHex requiredSet)
      then intake txId requiredSet vks' txs accepted (ignored ++ [khHex])
      else
        let singleHex := singleWitnessHex vw in
        match txStore.addWitness txId khHex singleHex txs with
        | (txStore.add_not_found, txs') => inl (store_error "not_found", txs')
        | (txStore.add_ok _ _, txs') =>
            intake txId requiredSet vks' txs' (accepted ++ [khHex]) ignored
        end
  end.

(** [POST /api/witness] *)
Definition postWitness (req : WitnessBody) (st : ServerState)
  : Response * ServerState :=
  if falsy (witness_txId req) || falsy (witnessHex req) then (missing_params, st)
  else
    let txId := default "" (witness_txId req) in
    let witnessHex := default "" (witnessHex req) in
    match txStore.getTxRecord txId (txs st) with
    | None => (not_found, st)
    | Some rec =>
        let requiredSet :=
          JsSet.of_list (map toLowerCase (txStore.signersKeyHashes rec)) in
        match parseVkeys witnessHex with
        | Throw _ => (invalid_witness_cbor, st)
        | Ok vkeys =>
            if (length (default [] vkeys) =? 0)%nat then (empty_vkeys, st)
            else
              match intake txId requiredSet (default [] vkeys) (txs st) [] [] with
              | inl (r, txs') => (r, mkServerState txs' (latestSession st))
              | inr (txs', accepted, ignored) =>
                  let st' := mkServerState txs' (latestSession st) in
                  if (length accepted =? 0)%nat
                  then (signer_not_allowed ignored (JsSet.to_list requiredSet), st')
                  else
                    match txStore.status txId txs' with
                    | None => (server_error TypeError, st')
                    | Some r2 =>
                        (witness_ok accepted ignored
                           (length (txStore.collected r2)) (txStore.status_m r2),
                         st')
                    end
              end
        end
    end.

(** [POST /api/reset] *)
Definition postReset (txId : option string) (st : ServerState)
  : Response * ServerState :=
  let txs := if falsy txId then txs st
             else txStore.clearTx (default "" txId) (txs st) in
  (reset_ok, mkServerState txs None).

(** [POST /api/submit]; the third component lists the transactions handed
    to the gateway ([bf.submitTx]) during the request. *)
Definition postSubmit (bf : Blockfrost) (txId : option string) (st : ServerState)
  : Response * ServerState * list (list byte) :=
  if falsy txId then (missing_params, st, [])
  else
    let txId := default "" txId in
    match txStore.getTxRecord txId (txs st) with
    | None => (not_found, st, [])
    | Some rec =>
        let collected := JsMap.size (txStore.witnesses rec) in
        if (collected <? txStore.m rec)%nat
        then (not_enough_witnesses collected (txStore.m rec), st, [])
        else
          let witnessHexes := JsMap.values (txStore.witnesses rec) in
          match assembleAndSerializeTx lib (txStore.txBodyHex rec)
                  (txStore.scriptHex rec) witnessHexes with
          | Throw e => (submit_failed e, st, [])
          | Ok txBytes =>
              match submitTx bf txBytes with
              | Throw e => (submit_failed e, st, [txBytes])
              | Ok txHash =>
                  (submitted txHash,
                   mkServerState (txStore.clearTx txId (txs st)) (latestSession st),
                   [txBytes])
              end
          end
    end.

(** One request with the indexer's behaviour while it is served. *)
Inductive Request : Type :=
| Create (bf : Blockfrost) (req : CreateBody)
| Witness (req : WitnessBody)
| Submit (bf : Blockfrost) (txId : option string)
| Reset (txId : option string).

Definition handle (r : Request) (st : ServerState) : Response * ServerState :=
  match r with
  | Create bf req => postCreate bf req st
  | Witness req => postWitness req st
  | Submit bf txId => let '(resp, st', _) := postSubmit bf txId st in (resp, st')
  | Reset txId => postReset txId st
  end.

(** The state after a sequence of requests, served one after the other. *)
Definition run (rs : list Request) (st : ServerState) : ServerState :=
  foldl (fun st r => snd (handle r st)) st rs.

End Server.

(** ** The earlier server ([server.js]): its witness handler

    In the earlier server the witness handler files the blob under the
    signer that the request declares. *)

Module ServerJs.

(** The JSON answers of the handler. *)
Inductive Response : Type :=
| missing_params                                               (* 400 *)
| not_found                                                    (* 404 *)
| empty_vkeys                                                  (* 400 *)
| signer_not_in_required_set                                   (* 400 *)
| store_error (error : string)                                 (* 500 *)
| server_error (detail : Exn)                                  (* 500 *)
| witness_ok (collected required : nat).
    (* [{ ok: true, submitted: false, collected, required }] *)

Section Handlers.
Context (lib : CSLib).

(** "If signer hash not provided, derive from witness": the hash of the
    key of the first key witness; [inl] is an early return. *)
Definition deriveSigner (witnessHex : string) : Result (Response + string) :=
  ws ← csl (TransactionWitnessSet_from_bytes lib (hexToBytes witnessHex));
  match vkeys ws with
  | None | Some [] => Ok (inl empty_vkeys)
  | Some (vw :: _) => Ok (inr (bytesToHex (PublicKey_hash lib (vkey vw))))
  end.

(** [POST /api/witness] *)
Definition postWitness (req : WitnessBody) (st : ServerState)
  : Response * ServerState :=
  if falsy (witness_txId req) || falsy (witnessHex req) then (missing_params, st)
  else
    let txId := default "" (witness_txId req) in
    let witnessHex := default "" (witnessHex req) in
    match txStore.getTxRecord txId (txs st) with
    | None => (not_found, st)
    | Some rec =>
        match (if falsy (signerKeyHashHex req) then deriveSigner witnessHex
               else Ok (inr (default "" (signerKeyHashHex req)))) with
        | Throw e => (server_error e, st)
        | Ok (inl r) => (r, st)
        | Ok (inr signer) =>
            if negb (bool_decide (signer ∈ txStore.signersKeyHashes rec))
            then (signer_not_in_required_set, st)
            else
              match txStore.addWitness txId signer witnessHex (txs st) with
              | (txStore.add_not_found, txs') =>
                  (store_error "not_found", mkServerState txs' (latestSession st))
              | (txStore.add_ok count m, txs') =>
                  (witness_ok count m, mkServerState txs' (latestSession st))
              end
        end
    end.

End Handlers.
End ServerJs.

(** ** What the specification says about the session store *)

(** The witnesses of a session come from its allow-list. *)
Definition session_inv (rec : txStore.TxRecord) : Prop :=
  forall k, k ∈ JsMap.keys (txStore.witnesses rec) ->
            k ∈ txStore.signersKeyHashes rec.

Definition store_inv (txs : Store) : Prop :=
  forall txId rec, txs !! txId = Some rec -> session_inv rec.

(** What the handlers maintain: moreover, the allow-list of every session
    is in lower case, as [REQUIRED_KEY_HASHES] is. *)
Definition session_wf (rec : txStore.TxRecord) : Prop :=
  session_inv rec
  /\ Forall (fun h => toLowerCase h = h) (txStore.signersKeyHashes rec).

Definition store_wf (txs : Store) : Prop :=
  forall txId rec, txs !! txId = Some rec -> session_wf rec.

(** ** A miniature library instance and sample data for the examples

    Public keys and signatures are one byte long, the hash of a key is the
    key repeated 28 times, a witness set is the byte [a1] followed by the
    (key, signature) pairs, a transaction the byte [84], its body and its
    witness set. *)

Module Sample.

Fixpoint decodeVkeys (b : list byte) : option (list Vkeywitness) :=
  match b with
  | [] => Some []
  | k :: s :: b' => cons (mkVkeywitness [k] [s]) <$> decodeVkeys b'
  | _ => None
  end.

Definition witnessSet_from_bytes (b : list byte) : option TransactionWitnessSet :=
  match b with
  | xa1 :: b' => (fun vks => mkWitnessSet (Some vks) None []) <$> decodeVkeys b'
  | _ => None
  end.

Definition witnessSet_to_bytes (ws : TransactionWitnessSet) : list byte :=
  xa1 :: flat_map (fun vw => vkey vw ++ signature vw) (default [] (vkeys ws)).

Definition emptyBody : TransactionBody := mkBody [] [] 0 [].

Definition body_from_bytes (b : list byte) : option TransactionBody :=
  match b with
  | [xb0] => Some emptyBody
  | _ => None
  end.

Definition body_to_bytes (_ : TransactionBody) : list byte := [xb0].

Definition transaction_from_bytes (b : list byte) : option Transaction :=
  match b with
  | x84 :: xb0 :: b' => mkTransaction emptyBody <$> witnessSet_from_bytes b'
  | _ => None
  end.

Definition transaction_to_bytes (tx : Transaction) : list byte :=
  x84 :: body_to_bytes (body tx) ++ witnessSet_to_bytes (witness_set tx).

Definition keyA : list byte := replicate 28 x0a.
Definition keyB : list byte := replicate 28 x0b.
Definition keyC : list byte := replicate 28 x0c.

(** [AtLeast(2, [Pubkey(A), Pubkey(B), Pubkey(C)])] *)
Definition script2of3 : NativeScript :=
  ScriptNOfK 2 [ScriptPubkey keyA; ScriptPubkey keyB; ScriptPubkey keyC].

(** The hard-coded [PAYMENT_SCRIPT_CBOR_HEX] of the server and the script
    these bytes encode: [All [AtLeast(2, [Pubkey; Pubkey])]]. *)
Definition PAYMENT_SCRIPT_CBOR_HEX : string :=
  "820181830302828200581c2628bd7a9a004b20c91f2b7b241183813c62e049917810e364e275318200581c9cc6f61972a60b643acbc266db2514e450ac96e3592e2588a2d6b4a8".

Definition paymentScript : NativeScript :=
  ScriptAll
    [ScriptNOfK 2
       [ScriptPubkey
          (hexToBytes "2628bd7a9a004b20c91f2b7b241183813c62e049917810e364e27531");
        ScriptPubkey
          (hexToBytes "9cc6f61972a60b643acbc266db2514e450ac96e3592e2588a2d6b4a8")]].

Definition nativeScript_from_bytes (b : list byte) : option NativeScript :=
  if bool_decide (b = [x5c]) then Some script2of3
  else if bool_decide (b = hexToBytes PAYMENT_SCRIPT_CBOR_HEX) then Some paymentScript
  else None.

Definition address_from_bech32 (s : string) : option (list byte) :=
  if String.eqb s "" then None else Some (list_byte_of_string s).

Definition lib : CSLib :=
  mkCSLib address_from_bech32 string_of_list_byte
    nativeScript_from_bytes (fun _ => replicate 28 x00)
    (fun pk => match pk with [k] => replicate 28 k | _ => replicate 28 x00 end)
    body_from_bytes body_to_bytes
    witnessSet_from_bytes witnessSet_to_bytes
    transaction_from_bytes transaction_to_bytes
    (fun _ => replicate 32 x00)
    (fun _ _ => true) (fun _ _ => true).

(** A policy id, a token of it, and a transaction hash. *)
Definition policy : string :=
  "aa11aa11aa11aa11aa11aa11aa11aa11aa11aa11aa11aa11aa11aa11".
Definition token : string := policy +:+ "4e".
Definition txHash : string :=
  "00000000000000000000000000000000000000000000000000000000000000aa".

Definition params : ProtocolParams :=
  mkProtocolParams 44 155381 500000000 2000000 None None (Some 4310%Z) None.

(** An indexer that reports the given UTxOs. *)
Definition chain (utxos : list Utxo) : Blockfrost :=
  mkBlockfrost (fun _ => Ok utxos) (Ok params) (fun _ => Ok "txhash").

(** [(coin = 10_000_000, assets = {})] *)
Definition utxoCoinOnly : Utxo :=
  mkUtxo txHash 0 [mkAmount "lovelace" 10000000].
(** [(coin = 5_000_000, assets = {P: {N: 7}})] *)
Definition utxoSevenTokens : Utxo :=
  mkUtxo txHash 0 [mkAmount "lovelace" 5000000; mkAmount token 7].
(** [(coin = 10_000_000, assets = {P: {N: 5}})] *)
Definition utxoFiveTokens : Utxo :=
  mkUtxo txHash 1 [mkAmount "lovelace" 10000000; mkAmount token 5].

(** [(coin = 2_000_000, assets = {P: {N: 5}})] *)
Definition utxoPoor : Utxo :=
  mkUtxo txHash 2 [mkAmount "lovelace" 2000000; mkAmount token 5].

(** [{addr = X, coin = c, assets = {P: {N: q}}}] *)
Definition requestTokens (c q : Z) : OutputRequest :=
  mkOutputRequest "addr_x" (Some c) (Some [mkAmount token q]).

Definition hashA : string := bytesToHex keyA.
Definition hashB : string := bytesToHex keyB.
Definition hashC : string := bytesToHex keyC.

Definition noPreview : Preview := mkPreview "sendAll" [] [] 1000000 0 false.

(** A session with threshold 2, allow-list [A, B, C] and the given
    witnesses. *)
Definition session (w : JsMap.t string) : txStore.TxRecord :=
  txStore.mkTxRecord "84b0a1" "b0" "5c" 2 [hashA; hashB; hashC] w noPreview.

Definition stateWith (w : JsMap.t string) : ServerState :=
  mkServerState {[ "tx1" := session w ]} None.

(** An indexer whose gateway accepts every transaction. *)
Definition accepting : Blockfrost :=
  mkBlockfrost (fun _ => Ok []) (Throw (HttpError "unused"))
    (fun _ => Ok "txhash").

(** An indexer whose gateway rejects every transaction. *)
Definition rejecting : Blockfrost :=
  mkBlockfrost (fun _ => Ok []) (Throw (HttpError "unused"))
    (fun _ => Throw (HttpError "FeeTooSmallUTxO")).

End Sample.

(** ** What the specification says about witness intake *)

(** Whether the key of a key witness is on the allow-list [signers]. *)
Definition isRequired (lib : CSLib) (signers : list string) (vw : Vkeywitness)
  : bool :=
  bool_decide (witnessKeyHash lib vw ∈ map toLowerCase signers).

(** The witness map after each of [vws] was stored under its key hash as a
    witness set of its own. *)
Definition storeEach (lib : CSLib) (vws : list Vkeywitness) (w : JsMap.t string)
  : JsMap.t string :=
  foldl (fun w vw => JsMap.set (witnessKeyHash lib vw) (singleWitnessHex lib vw) w)
    w vws.

(** ** What the specification says about assembling *)

(** The key witnesses a stored witness contributes. *)
Definition keyWitnessesOf (lib : CSLib) (w : string) : list Vkeywitness :=
  match TransactionWitnessSet_from_bytes lib (hexToBytes w) with
  | Some ws => default [] (vkeys ws)
  | None => []
  end.

Definition parses (lib : CSLib) (w : string) : bool :=
  match TransactionWitnessSet_from_bytes lib (hexToBytes w) with
  | Some _ => true
  | None => false
  end.

(** The witness map after the entries were inserted one after the other. *)
Definition insertAll (es : list (string * string)) : JsMap.t string :=
  foldl (fun m e => JsMap.set (fst e) (snd e) m) JsMap.empty es.

(** The key witnesses of an assembled transaction. *)
Definition vkeysOfTx (tx : Transaction) : list Vkeywitness :=
  default [] (vkeys (witness_set tx)).

(** ** What the specification says about a built transaction *)

(** An output that carries a multi-asset holds at least [MIN_ADA]. *)
Definition floored (MIN_ADA : Z) (o : TransactionOutput) : Prop :=
  multiasset (out_amount o) <> None -> (MIN_ADA <= coin (out_amount o))%Z.

(** The lovelace of one UTxO: its ['lovelace'] entry. *)
Definition utxoCoin (u : Utxo) : Z :=
  match List.find (fun a => String.eqb (unit a) "lovelace") (amount u) with
  | Some l => quantity l
  | None => 0%Z
  end.

(** The policy id and asset name that a unit denotes. *)
Definition unitKey (u : string) : list byte * list byte :=
  (hexToBytes (fst (splitUnit u)), hexToBytes (snd (splitUnit u))).

(** Entries, each under the key of its unit. *)
Definition keyed {K : Type} (key : string -> K) (entries : list AmountEntry)
  : list (K * Z) :=
  map (fun a => (key (unit a), quantity a)) entries.

(** The quantities listed under one key. *)
Definition pick {K : Type} `{EqDecision K} (k : K) (es : list (K * Z)) : list Z :=
  map snd (List.filter (fun e => bool_decide (fst e = k)) es).

Definition sumZ (l : list Z) : Z := foldr Z.add 0%Z l.

(** The total of the quantities of an asset; [None] when nothing lists it. *)
Definition total (qs : list Z) : option Z :=
  match qs with
  | [] => None
  | _ :: _ => Some (sumZ qs)
  end.

(** What the inputs carry of the asset [(pid, nm)]. *)
Definition carried (pid nm : list byte) (utxos : list Utxo) : option Z :=
  total (pick (pid, nm) (keyed unitKey (flat_map utxoAssets utxos))).

(** What the requested outputs demand of the asset whose policy id and
    asset name are [p] and [n] in hex. *)
Definition requestedEntries (requested : option (list OutputRequest))
  : list AmountEntry :=
  flat_map (fun o => default [] (assets o)) (default [] requested).

Definition demanded (p n : string) (requested : option (list OutputRequest))
  : option Z :=
  total (pick (p, n) (keyed splitUnit (requestedEntries requested))).

(** The coin the requested outputs take. *)
Definition requestedCoin (MIN_ADA : Z) (requested : option (list OutputRequest))
  : Z :=
  sumZ (map (effectiveCoin MIN_ADA) (default [] requested)).

(** The quantity of one asset in a value. *)
Definition valueQty (pid nm : list byte) (v : Value) : Z :=
  match multiasset v with
  | Some ma =>
      match ma !! pid with
      | Some a => default 0%Z (a !! nm)
      | None => 0%Z
      end
  | None => 0%Z
  end.

(** Sums over the inputs and over the outputs of a transaction. *)
Definition inputCoin (utxos : list Utxo) : Z := sumZ (map utxoCoin utxos).
Definition outputCoin (body : TransactionBody) : Z :=
  sumZ (map (fun o => coin (out_amount o)) (outputs body)).
Definition inputQty (pid nm : list byte) (utxos : list Utxo) : Z :=
  default 0%Z (carried pid nm utxos).
Definition outputQty (pid nm : list byte) (body : TransactionBody) : Z :=
  sumZ (map (fun o => valueQty pid nm (out_amount o)) (outputs body)).

(** The input that spends a UTxO. *)
Definition utxoRef (u : Utxo) : TransactionInput :=
  mkInput (hexToBytes (tx_hash u)) (output_index u).

(** Conservation: inputs = outputs + fee, for the coin and for every asset. *)
Definition conserved (utxos : list Utxo) (body : TransactionBody) : Prop :=
  inputCoin utxos = (outputCoin body + fee body)%Z
  /\ forall pid nm, inputQty pid nm utxos = outputQty pid nm body.

(** The quantity of the asset [(p, n)], policy id and asset name in hex,
    in a map of assets; [None] when the map has no entry for it. *)
Definition assetsQty (p n : string) (m : JsAssets) : option Z :=
  match JsMap.get p m with
  | Some inner => JsMap.get n inner
  | None => None
  end.

(** ** Auxiliary notions for the proofs *)

(** [cur ? bigAdd(cur, q) : q] *)
Definition optAdd (cur : option Z) (q : Z) : Z :=
  match cur with
  | Some c => (c + q)%Z
  | None => q
  end.

(** A running total after more quantities were added to it. *)
Definition addAll (acc : option Z) (qs : list Z) : option Z :=
  foldl (fun acc q => Some (optAdd acc q)) acc qs.

(** The entries of a two-level map, each under its pair of keys. *)
Definition flatten {K1 K2 : Type} (m : list (K1 * list (K2 * Z)))
  : list ((K1 * K2) * Z) :=
  flat_map (fun '(k1, inner) => map (fun '(k2, q) => ((k1, k2), q)) inner) m.

(** The quantity of an asset in a multi-asset, when it has an entry. *)
Definition maQty (pid nm : list byte) (ma : MultiAsset) : option Z :=
  match ma !! pid with
  | Some a => a !! nm
  | None => None
  end.

Definition valueOptQty (pid nm : list byte) (v : Value) : option Z :=
  match multiasset v with
  | Some ma => maQty pid nm ma
  | None => None
  end.

(** The entries of a multi-asset as [keys()] and [get] enumerate them. *)
Definition maEntries (ma : MultiAsset)
  : list (list byte * list (list byte * Z)) :=
  map (fun '(pid, a) => (pid, assetNames a)) (policies ma).

(** An entry of [outSpecs] that carries tokens has the floor already. *)
Definition specFloored (MIN_ADA : Z) (spec : OutSpec) : Prop :=
  jsAssetsIsEmpty (assetsMap spec) = false -> (MIN_ADA <= spec_coin spec)%Z.

(** A map of assets whose policies and whose names are each listed once. *)
Definition JsWf (m : JsAssets) : Prop :=
  NoDup (JsMap.keys m) /\ Forall (fun e => NoDup (JsMap.keys (snd e))) m.

(** A string that is the hex of some bytes. *)
Definition canonical (k : string) : Prop := exists b, k = bytesToHex b.

(** A map of assets whose keys are hex of bytes. *)
Definition JsCanon (m : JsAssets) : Prop :=
  Forall (fun e => canonical (fst e)
                   /\ Forall (fun e' => canonical (fst e')) (snd e)) m.

(** Requested outputs whose units are hex: a policy id and an asset name. *)
Definition canonicalRequest (requested : option (list OutputRequest)) : Prop :=
  Forall (fun a => canonical (fst (splitUnit (unit a)))
                   /\ canonical (snd (splitUnit (unit a))))
    (requestedEntries requested).

(** What a map of assets gives of the asset [(pid, nm)]. *)
Definition mapQty (pid nm : list byte) (m : JsAssets) : Z :=
  default 0%Z (assetsQty (bytesToHex pid) (bytesToHex nm) m).

(** ** The read-only routes of the server *)

(** The answer of a [GET] route on a session:
    [404 { error: 'not_found' }] or the JSON object. *)
Inductive Reply (A : Type) : Type :=
| reply_not_found
| reply_json (a : A).
Arguments reply_not_found {A}.
Arguments reply_json {A} a.

(** One item [{ signer, witnessHex }] of [GET /api/witnesses/:txId]. *)
Record WitnessItem : Type := mkWitnessItem {
  item_signer : string;
  item_witnessHex : string
}.

(** [{ witnesses: items, m: rec.m, required: rec.signersKeyHashes }] *)
Record WitnessesReply : Type := mkWitnessesReply {
  reply_witnesses : list WitnessItem;
  reply_m : nat;
  reply_required : list string
}.

(** [{ txHex: rec.txHex, txBodyHex: rec.txBodyHex }] *)
Record TxBodyReply : Type := mkTxBodyReply {
  reply_txHex : string;
  reply_txBodyHex : string
}.

(** [GET /api/status/:txId] *)
Definition getStatus (txId : string) (st : ServerState)
  : Reply txStore.Status :=
  match txStore.status txId (txs st) with
  | None => reply_not_found
  | Some s => reply_json s
  end.

(** [GET /api/witnesses/:txId] *)
Definition getWitnesses (txId : string) (st : ServerState)
  : Reply WitnessesReply :=
  match txStore.getTxRecord txId (txs st) with
  | None => reply_not_found
  | Some rec =>
      let items :=
        map (fun '(signer, witnessHex) => mkWitnessItem signer witnessHex)
          (JsMap.entries (txStore.witnesses rec)) in
      reply_json (mkWitnessesReply items (txStore.m rec)
                    (txStore.signersKeyHashes rec))
  end.

(** [GET /api/txbody/:txId] *)
Definition getTxbody (txId : string) (st : ServerState) : Reply TxBodyReply :=
  match txStore.getTxRecord txId (txs st) with
  | None => reply_not_found
  | Some rec =>
      reply_json (mkTxBodyReply (txStore.txHex rec) (txStore.txBodyHex rec))
  end.

(** The answers of [GET /api/balance/:unit]. *)
Inductive BalanceReply : Type :=
| balance_invalid_unit                                  (* 400 *)
| balance_error (detail : Exn)                          (* 500 *)
| balance_json (address unit : string) (quantity : Z).  (* 200 *)

(** [GET /api/balance/:unit]: the quantity of one asset unit over the
    UTxOs of the multisig address. *)
Definition getBalance (MULTISIG_ADDRESS : string) (bf : Blockfrost)
    (unitParam : string) : BalanceReply :=
  let u := toLowerCase unitParam in
  if String.eqb u "" || (String.length u <? 56)%nat then balance_invalid_unit
  else
    match utxosByAddress bf MULTISIG_ADDRESS with
    | Throw e => balance_error e
    | Ok utxos =>
        let sum :=
          foldl (fun sum u' =>
                   foldl (fun sum a =>
                            if String.eqb (unit a) u
                            then (sum + quantity a)%Z else sum)
                     sum (amount u'))
            0%Z utxos in
        balance_json MULTISIG_ADDRESS u sum
    end.

(** ** What the handlers maintain about every session *)

(** The unsigned transaction of a body: the payment script is its only
    witness. *)
Definition unsignedTx (ns : NativeScript) (body : TransactionBody) : Transaction :=
  mkTransaction body (set_native_scripts [ns] TransactionWitnessSet_new).

(** A stored witness: the witness set of one key witness, under the hash
    of its key. *)
Definition normalized (lib : CSLib) (e : string * string) : Prop :=
  exists vw, fst e = witnessKeyHash lib vw /\ snd e = singleWitnessHex lib vw.

(** A session holds the hard-coded script, threshold and allow-list, its
    id is the hash of the body it stores, and each signer is listed once
    with a normalized witness. *)
Definition session_ok (lib : CSLib) (FIXED_FEE : Z)
    (PAYMENT_SCRIPT_CBOR_HEX : string) (PAYMENT_SUMMARY : ScriptSummary)
    (txId : string) (rec : txStore.TxRecord) : Prop :=
  txStore.scriptHex rec = PAYMENT_SCRIPT_CBOR_HEX
  /\ txStore.m rec = M_REQUIRED PAYMENT_SUMMARY
  /\ txStore.signersKeyHashes rec = REQUIRED_KEY_HASHES PAYMENT_SUMMARY
  /\ (exists body ns,
        NativeScript_from_bytes lib (hexToBytes PAYMENT_SCRIPT_CBOR_HEX) = Some ns
        /\ txId = bytesToHex (hash_transaction lib body)
        /\ txStore.txBodyHex rec = bytesToHex (TransactionBody_to_bytes lib body)
        /\ txStore.txHex rec
           = bytesToHex (Transaction_to_bytes lib (unsignedTx ns body))
        /\ fee body = FIXED_FEE)
  /\ NoDup (JsMap.keys (txStore.witnesses rec))
  /\ Forall (normalized lib) (txStore.witnesses rec).

Definition store_ok (lib : CSLib) (FIXED_FEE : Z)
    (PAYMENT_SCRIPT_CBOR_HEX : string) (PAYMENT_SUMMARY : ScriptSummary)
    (txs : Store) : Prop :=
  forall txId rec,
    txs !! txId = Some rec ->
    session_ok lib FIXED_FEE PAYMENT_SCRIPT_CBOR_HEX PAYMENT_SUMMARY txId rec.

(** ** A scenario for the examples: a server for [AtLeast(2, [A; B; C])] *)

Module Scenario.

(** What [deriveSummary] returns for the script. *)
Definition summary : ScriptSummary :=
  mkScriptSummary 2 3 [Sample.hashA; Sample.hashB; Sample.hashC]
    false None None (bytesToHex (replicate 28 x00))
    [node_atLeast 2 3 [];
     node_pubkey Sample.hashA ["atLeast(n=2)[0]"];
     node_pubkey Sample.hashB ["atLeast(n=2)[1]"];
     node_pubkey Sample.hashC ["atLeast(n=2)[2]"]].

(** The id of every transaction built with the miniature library. *)
Definition txId : string := bytesToHex (replicate 32 x00).

(** A sweep of one UTxO to [addr_d]. *)
Definition create : Request :=
  Create (Sample.chain [Sample.utxoCoinOnly])
    (mkCreateBody None (Some "addr_d") None).

Definition sign (blob : string) : Request :=
  Witness (mkWitnessBody (Some txId) None (Some blob)).

(** The state after the requests [rs], from the empty store. *)
Definition serve (rs : list Request) : ServerState :=
  run Sample.lib 2000000 1000000 "5c" summary "addr_ms" rs initialState.

End Scenario.

(** ** A second miniature library, whose witness sets keep keys and
    signatures of any length

    A byte string is written byte by byte, each byte after a [01], and
    closed by [00]; a key witness is its key followed by its signature; a
    witness set is the byte [a1] followed by its key witnesses. *)

Module Codec.

Definition encodeBytes (l : list byte) : list byte :=
  flat_map (fun b => [x01; b]) l ++ [x00].

Fixpoint takeBytes (b : list byte) : option (list byte * list byte) :=
  match b with
  | x00 :: r => Some ([], r)
  | x01 :: c :: r =>
      match takeBytes r with
      | Some (s, r') => Some (c :: s, r')
      | None => None
      end
  | _ => None
  end.

Definition encodeVkey (vw : Vkeywitness) : list byte :=
  encodeBytes (vkey vw) ++ encodeBytes (signature vw).

Fixpoint decodeVkeys (fuel : nat) (b : list byte) : option (list Vkeywitness) :=
  match b, fuel with
  | [], _ => Some []
  | _ :: _, O => None
  | _ :: _, S fuel' =>
      match takeBytes b with
      | Some (k, r) =>
          match takeBytes r with
          | Some (s, r') => cons (mkVkeywitness k s) <$> decodeVkeys fuel' r'
          | None => None
          end
      | None => None
      end
  end.

Definition witnessSet_to_bytes (ws : TransactionWitnessSet) : list byte :=
  xa1 :: flat_map encodeVkey (default [] (vkeys ws)).

Definition witnessSet_from_bytes (b : list byte) : option TransactionWitnessSet :=
  match b with
  | xa1 :: b' =>
      (fun vks => mkWitnessSet (Some vks) None []) <$> decodeVkeys (length b') b'
  | _ => None
  end.

Definition lib : CSLib :=
  mkCSLib Sample.address_from_bech32 string_of_list_byte
    Sample.nativeScript_from_bytes (fun _ => replicate 28 x00)
    (fun pk => match pk with [k] => replicate 28 k | _ => replicate 28 x00 end)
    Sample.body_from_bytes Sample.body_to_bytes
    witnessSet_from_bytes witnessSet_to_bytes
    Sample.transaction_from_bytes Sample.transaction_to_bytes
    (fun _ => replicate 32 x00)
    (fun _ _ => true) (fun _ _ => true).

(** The state after the requests [rs], from the empty store. *)
Definition serve (rs : list Request) : ServerState :=
  run lib 2000000 1000000 "5c" Scenario.summary "addr_ms" rs initialState.

End Codec.

(** ** Values of the library *)

(** A value as the library holds it: policy ids are script hashes of 28
    bytes, asset names have at most 32 bytes, quantities are unsigned
    64-bit numbers. *)
Definition cslValue (v : Value) : Prop :=
  forall ma pid a,
    multiasset v = Some ma -> ma !! pid = Some a ->
    length pid = 28%nat
    /\ forall nm q, a !! nm = Some q ->
                    (length nm <= 32)%nat /\ (0 <= q <= U64_MAX)%Z.

(** The entries of a multi-asset in hex, as [valueToJs] lists them. *)
Definition hexEntries (ma : MultiAsset) : JsAssets :=
  map (fun '(pid, a) =>
         (bytesToHex pid,
          map (fun '(nm, q) => (bytesToHex nm, q)) (assetNames a)))
    (policies ma).

(** ** What the summary of a script shows *)

Definition node_path (x : TreeNode) : list string :=
  match x with
  | node_pubkey _ p | node_all p | node_any p | node_atLeast _ _ p
  | node_invalid_before _ p | node_invalid_hereafter _ p => p
  end.

(** The nodes of a script without time lock, parents before children,
    left to right: the kind of each node and its depth below the node at
    depth [d]. *)
Fixpoint outline (d : nat) (t : NativeScript) : list (string * nat) :=
  match t with
  | ScriptPubkey _ => [("pubkey", d)]
  | ScriptAll l => ("all", d) :: flat_map (outline (S d)) l
  | ScriptAny l => ("any", d) :: flat_map (outline (S d)) l
  | ScriptNOfK _ l => ("atLeast", d) :: flat_map (outline (S d)) l
  | TimelockStart _ | TimelockExpiry _ => []
  end.

(** What one walk adds to the trace, and leaves of the time bounds. *)
Definition traces (t : NativeScript) (path : list string) (acc r : ScriptInfo)
  : Prop :=
  map (fun x => (node_type x, length (node_path x))) (tree r)
  = map (fun x => (node_type x, length (node_path x))) (tree acc)
    ++ outline (length path) t
  /\ invalidBefore r = invalidBefore acc
  /\ invalidHereafter r = invalidHereafter acc.

(** The two-of-two script [AtLeast(2, [A; B])] and what [deriveSummary]
    returns for it. *)
Definition script2of2 : NativeScript :=
  ScriptNOfK 2 [ScriptPubkey Sample.keyA; ScriptPubkey Sample.keyB].

Definition summary2of2 : ScriptSummary :=
  mkScriptSummary 2 2 [Sample.hashA; Sample.hashB]
    false None None (bytesToHex (replicate 28 x00))
    [node_atLeast 2 2 [];
     node_pubkey Sample.hashA ["atLeast(n=2)[0]"];
     node_pubkey Sample.hashB ["atLeast(n=2)[1]"]].
(* ================================================================== *)
(** * Part II: properties                                               *)
(* ================================================================== *)


(** ** Strings and buffers *)

Lemma lower_hex_digit (n : N) : lower_ascii (hex_digit n) = hex_digit n.
Proof.
  destruct n as [|p]; [reflexivity|].
  do 4 (try (destruct p as [p|p|]; try reflexivity)).
Qed.

Lemma toLowerCase_app (s1 s2 : string) :
  toLowerCase (s1 +:+ s2) = toLowerCase s1 +:+ toLowerCase s2.
Proof. induction s1 as [|c s1 IH]; simpl; [reflexivity | now rewrite IH]. Qed.

Lemma bytesToHex_cons (x : byte) (b : list byte) :
  bytesToHex (x :: b)
  = String (hex_digit (Byte.to_N x / 16))
      (String (hex_digit (Byte.to_N x mod 16)) (bytesToHex b)).
Proof. reflexivity. Qed.

Lemma toLowerCase_bytesToHex (b : list byte) :
  toLowerCase (bytesToHex b) = bytesToHex b.
Proof.
  induction b as [|x b IH]; [reflexivity|].
  rewrite bytesToHex_cons. cbn [toLowerCase].
  now rewrite !lower_hex_digit, IH.
Qed.

Lemma hex_value_digit (n : N) : (n < 16)%N -> hex_value (hex_digit n) = Some n.
Proof.
  intros Hn.
  assert (Hcases : In n (map N.of_nat (seq 0 16))).
  { apply in_map_iff. exists (N.to_nat n). split; [lia|]. apply in_seq. lia. }
  simpl in Hcases.
  repeat (destruct Hcases as [<- | Hcases]; [reflexivity|]).
  destruct Hcases.
Qed.

Lemma byteToHex_inj (x y : byte) : byteToHex x = byteToHex y -> x = y.
Proof.
  unfold byteToHex. intros Heq.
  pose proof (Byte.to_N_bounded x) as Hx.
  pose proof (Byte.to_N_bounded y) as Hy.
  injection Heq as Hhi Hlo.
  apply (f_equal hex_value) in Hhi, Hlo.
  rewrite !hex_value_digit in Hhi, Hlo
    by (try apply N.mod_upper_bound; try apply N.Div0.div_lt_upper_bound; lia).
  assert (Hn : Byte.to_N x = Byte.to_N y).
  { rewrite (N.div_mod (Byte.to_N x) 16), (N.div_mod (Byte.to_N y) 16) by lia.
    congruence. }
  apply (f_equal Byte.of_N) in Hn. rewrite !Byte.of_to_N in Hn. congruence.
Qed.

Lemma bytesToHex_inj (b1 b2 : list byte) :
  bytesToHex b1 = bytesToHex b2 -> b1 = b2.
Proof.
  revert b2. induction b1 as [|x b1 IH]; intros [|y b2] Heq;
    rewrite ?bytesToHex_cons in Heq; try reflexivity; try discriminate.
  injection Heq as Hhi Hlo Hrest.
  f_equal; [apply byteToHex_inj; unfold byteToHex; congruence | now apply IH].
Qed.

(** ** JavaScript sets *)

Lemma JsSet_elem_of_add (x y : string) (s : JsSet.t) :
  y ∈ JsSet.add x s <-> y = x \/ y ∈ s.
Proof.
  unfold JsSet.add, JsSet.has. case_bool_decide as Hin.
  - split; [auto | intros [-> | ?]; assumption].
  - rewrite elem_of_app, list_elem_of_singleton. tauto.
Qed.

Lemma JsSet_NoDup_add (x : string) (s : JsSet.t) :
  NoDup s -> NoDup (JsSet.add x s).
Proof.
  intros Hs. unfold JsSet.add, JsSet.has. case_bool_decide as Hin; [assumption|].
  apply NoDup_app. split; [assumption|]. split.
  - intros y Hy Hy'. apply list_elem_of_singleton in Hy'. now subst.
  - apply NoDup_singleton.
Qed.

Section JsSet_fold.
Context {A : Type} (f : A -> string).

Lemma JsSet_fold_elem_of (l : list A) (s : JsSet.t) (y : string) :
  y ∈ foldl (fun s h => JsSet.add (f h) s) s l <-> y ∈ s \/ y ∈ map f l.
Proof.
  revert s. induction l as [|h l IH]; intros s; simpl.
  - rewrite elem_of_nil. tauto.
  - rewrite IH, JsSet_elem_of_add, elem_of_cons. tauto.
Qed.

Lemma JsSet_fold_NoDup (l : list A) (s : JsSet.t) :
  NoDup s -> NoDup (foldl (fun s h => JsSet.add (f h) s) s l).
Proof.
  revert s. induction l as [|h l IH]; intros s Hs; simpl; [assumption|].
  apply IH. now apply JsSet_NoDup_add.
Qed.

(** A set filled from a list through an injective key has as many
    members as the list has distinct elements. *)
Lemma JsSet_fold_size `{EqDecision A} (l : list A) :
  Inj (=) (=) f ->
  length (foldl (fun s h => JsSet.add (f h) s) JsSet.empty l)
  = length (remove_dups l).
Proof.
  intros Hinj.
  rewrite <- (length_map f (remove_dups l)).
  apply Permutation_length, NoDup_Permutation.
  - apply JsSet_fold_NoDup. constructor.
  - apply (NoDup_fmap_2 f), NoDup_remove_dups.
  - intros y. rewrite JsSet_fold_elem_of. unfold JsSet.empty.
    rewrite elem_of_nil.
    change (map f) with (fmap (M:=list) f).
    rewrite !list_elem_of_fmap. setoid_rewrite elem_of_remove_dups. tauto.
Qed.
End JsSet_fold.

(** ** The entries of a keyed container *)

Lemma insert_entry_Permutation {V} (cmp : list byte -> list byte -> comparison)
    (x : list byte * V) (l : list (list byte * V)) :
  insert_entry cmp x l ≡ₚ x :: l.
Proof.
  induction l as [|y l IH]; cbn [insert_entry]; [reflexivity|].
  destruct (cmp (fst x) (fst y)); try reflexivity.
  rewrite IH. apply Permutation_swap.
Qed.

Lemma entries_by_Permutation {V} (cmp : list byte -> list byte -> comparison)
    (m : gmap (list byte) V) :
  entries_by cmp m ≡ₚ map_to_list m.
Proof.
  unfold entries_by. induction (map_to_list m) as [|x l IH]; cbn [foldr];
    [reflexivity|].
  now rewrite insert_entry_Permutation, IH.
Qed.

Lemma NoDup_fst_entries {V} (cmp : list byte -> list byte -> comparison)
    (m : gmap (list byte) V) :
  NoDup (map fst (entries_by cmp m)).
Proof.
  change (map fst ?l) with (fst <$> l).
  rewrite (entries_by_Permutation cmp m). apply NoDup_fst_map_to_list.
Qed.

Lemma elem_of_entries {V} (cmp : list byte -> list byte -> comparison)
    (m : gmap (list byte) V) (k : list byte) (v : V) :
  (k, v) ∈ entries_by cmp m <-> m !! k = Some v.
Proof. rewrite (entries_by_Permutation cmp m). apply elem_of_map_to_list. Qed.

Lemma list_to_map_entries {V} (cmp : list byte -> list byte -> comparison)
    (m : gmap (list byte) V) :
  list_to_map (entries_by cmp m) = m.
Proof.
  rewrite <- (list_to_map_to_list m) at 2.
  apply list_to_map_proper; [apply NoDup_fst_entries|].
  apply entries_by_Permutation.
Qed.

(** Shorter asset names come first, whatever their bytes. *)
Example assetNames_order :
  assetNames (<[[x61; x61] := 1%Z]> (<[[x62] := 2%Z]> (<[[x61] := 3%Z]> ∅)))
  = [([x61], 3%Z); ([x62], 2%Z); ([x61; x61], 1%Z)].
Proof. vm_compute. reflexivity. Qed.

(** ** Script analysis *)


Lemma forIndexed_collects (l : list NativeScript) (pathf : nat -> list string) :
  Forall (fun t => forall acc path r,
            collectScriptInfo t acc path = Ok r -> collects t acc r) l ->
  forall i acc r,
    forIndexed (fun i s acc => collectScriptInfo s acc (pathf i)) i l acc = Ok r ->
    thresholds r = thresholds acc ++ flat_map atLeastThresholds l
    /\ keys r = foldl (fun s h => JsSet.add (keyOf h) s) (keys acc)
                  (flat_map pubkeyHashes l)
    /\ existsb is_any (tree r) = existsb is_any (tree acc) || existsb containsAny l.
Proof.
  induction 1 as [|t l Ht _ IH]; intros i acc r; cbn [forIndexed flat_map existsb].
  - intros [= <-]. rewrite app_nil_r, orb_false_r. auto.
  - destruct (collectScriptInfo t acc (pathf i)) as [acc'|e] eqn:Hwalk;
      [|discriminate].
    intros Hloop. destruct (IH (S i) acc' r Hloop) as (Hth & Hk & Ha).
    destruct (Ht acc (pathf i) acc' Hwalk) as (Hth' & Hk' & Ha').
    rewrite Hth, Hk, Ha, Hth', Hk', Ha'.
    rewrite foldl_app, <- app_assoc, orb_assoc. auto.
Qed.

Lemma collectScriptInfo_collects (t : NativeScript) :
  forall acc path r, collectScriptInfo t acc path = Ok r -> collects t acc r.
Proof.
  induction t as [kh | l IH | l IH | n l IH | slot | slot]
    using NativeScript_tree_ind; intros acc path r; unfold collects;
    cbn [collectScriptInfo slot_to_str]; try discriminate.
  - intros [= <-]. simpl. rewrite app_nil_r, existsb_app. simpl.
    rewrite !orb_false_r. auto.
  - intros Hloop.
    destruct (forIndexed_collects l
        (fun i => path ++ ["all[" +:+ pretty i +:+ "]"]) IH 0%nat
        (push_tree (node_all path) acc) r Hloop) as (Hth & Hk & Ha).
    simpl in *. rewrite Hth, Hk, Ha, existsb_app. simpl.
    rewrite !orb_false_r. auto.
  - intros Hloop.
    destruct (forIndexed_collects l
        (fun i => path ++ ["any[" +:+ pretty i +:+ "]"]) IH 0%nat
        (push_tree (node_any path) acc) r Hloop) as (Hth & Hk & Ha).
    simpl in *. rewrite Hth, Hk, Ha, existsb_app. simpl.
    rewrite orb_true_r. auto.
  - intros Hloop.
    destruct (forIndexed_collects l
        (fun i => path ++ ["atLeast(n=" +:+ pretty n +:+ ")[" +:+ pretty i +:+ "]"])
        IH 0%nat
        (push_tree (node_atLeast n (length l) path) (push_threshold n acc))
        r Hloop)
      as (Hth & Hk & Ha).
    simpl in *. rewrite Hth, Hk, Ha, existsb_app, <- app_assoc. simpl.
    rewrite !orb_false_r. auto.
Qed.

(** The walk returns exactly on the scripts without time lock. *)
Lemma forIndexed_returns (l : list NativeScript) (pathf : nat -> list string) :
  Forall (fun t => forall acc path,
            match collectScriptInfo t acc path with
            | Ok _ => hasTimelock t = false
            | Throw e => hasTimelock t = true /\ e = TypeError
            end) l ->
  forall i acc,
    match forIndexed (fun i s acc => collectScriptInfo s acc (pathf i)) i l acc with
    | Ok _ => existsb hasTimelock l = false
    | Throw e => existsb hasTimelock l = true /\ e = TypeError
    end.
Proof.
  induction 1 as [|t l Ht _ IH]; intros i acc; cbn [forIndexed existsb].
  - reflexivity.
  - specialize (Ht acc (pathf i)).
    destruct (collectScriptInfo t acc (pathf i)) as [acc'|e].
    + rewrite Ht. apply IH.
    + destruct Ht as [-> ->]. split; reflexivity.
Qed.

Lemma collectScriptInfo_returns (t : NativeScript) :
  forall acc path,
    match collectScriptInfo t acc path with
    | Ok _ => hasTimelock t = false
    | Throw e => hasTimelock t = true /\ e = TypeError
    end.
Proof.
  induction t as [kh | l IH | l IH | n l IH | slot | slot]
    using NativeScript_tree_ind; intros acc path;
    cbn [collectScriptInfo slot_to_str hasTimelock];
    try (split; reflexivity); try reflexivity.
  - apply (forIndexed_returns l
             (fun i => path ++ ["all[" +:+ pretty i +:+ "]"]) IH).
  - apply (forIndexed_returns l
             (fun i => path ++ ["any[" +:+ pretty i +:+ "]"]) IH).
  - apply (forIndexed_returns l
             (fun i => path ++ ["atLeast(n=" +:+ pretty n +:+ ")[" +:+ pretty i +:+ "]"])
             IH).
Qed.

Lemma keyOf_inj : Inj (=) (=) keyOf.
Proof.
  intros a b Hab. unfold keyOf in Hab.
  rewrite !toLowerCase_bytesToHex in Hab. now apply bytesToHex_inj.
Qed.

(** [summarize] returns exactly on the scripts without time lock. *)
Lemma summarize_returns (ns : NativeScript) (h : string) :
  match summarize ns h with
  | Ok _ => hasTimelock ns = false
  | Throw e => hasTimelock ns = true /\ e = TypeError
  end.
Proof.
  unfold summarize.
  pose proof (collectScriptInfo_returns ns
                (mkScriptInfo JsSet.empty [] None None []) []) as Hwalk.
  destruct (collectScriptInfo ns (mkScriptInfo JsSet.empty [] None None []) [])
    as [info|e]; exact Hwalk.
Qed.

Lemma summarize_Ok (ns : NativeScript) (h : string) (s : ScriptSummary) :
  summarize ns h = Ok s ->
  exists info,
    collectScriptInfo ns (mkScriptInfo JsSet.empty [] None None []) [] = Ok info
    /\ hasTimelock ns = false
    /\ requiredKeyHashes s = JsSet.to_list (keys info)
    /\ totalKeys s = length (JsSet.to_list (keys info))
    /\ structure s = tree info
    /\ summaryInvalidBefore s = invalidBefore info
    /\ summaryInvalidHereafter s
       = (if bool_decide (invalidHereafter info = Some MAX_SAFE_INTEGER)
          then None else invalidHereafter info)
    /\ hasTimeConstraints s
       = bool_decide (invalidBefore info <> None)
         || bool_decide (invalidHereafter info <> None)
    /\ scriptHash s = h.
Proof.
  intros Hs. pose proof (summarize_returns ns h) as Hret. rewrite Hs in Hret.
  unfold summarize in Hs.
  destruct (collectScriptInfo ns (mkScriptInfo JsSet.empty [] None None []) [])
    as [info|e]; [|discriminate].
  cbn in Hs. injection Hs as <-. exists info. cbn. repeat split; auto.
Qed.

Lemma summarize_mRequired (ns : NativeScript) (h : string) (s : ScriptSummary) :
  summarize ns h = Ok s ->
  mRequired s =
    match atLeastThresholds ns with
    | _ :: _ => max_list (atLeastThresholds ns)
    | [] => if containsAny ns then 1%nat else distinctKeys ns
    end.
Proof.
  unfold summarize.
  destruct (collectScriptInfo ns (mkScriptInfo JsSet.empty [] None None []) [])
    as [info|e] eqn:Hwalk; [|discriminate].
  cbn. intros [= <-]. cbn [mRequired].
  destruct (collectScriptInfo_collects ns _ _ _ Hwalk) as (Hth & Hk & Ha).
  simpl in Hth, Hk, Ha. rewrite Hth, Hk. fold is_any. rewrite Ha.
  destruct (atLeastThresholds ns) as [|n l]; simpl; [|reflexivity].
  destruct (containsAny ns); [reflexivity|].
  unfold JsSet.to_list, distinctKeys.
  apply (JsSet_fold_size keyOf), keyOf_inj.
Qed.

Lemma summarize_totalKeys (ns : NativeScript) (h : string) (s : ScriptSummary) :
  summarize ns h = Ok s -> totalKeys s = distinctKeys ns.
Proof.
  unfold summarize.
  destruct (collectScriptInfo ns (mkScriptInfo JsSet.empty [] None None []) [])
    as [info|e] eqn:Hwalk; [|discriminate].
  cbn. intros [= <-]. cbn [totalKeys].
  destruct (collectScriptInfo_collects ns _ _ _ Hwalk) as (_ & Hk & _).
  simpl in Hk. rewrite Hk. apply (JsSet_fold_size keyOf), keyOf_inj.
Qed.

(** ** JavaScript maps *)

Lemma JsMap_keys_set {V} (k : string) (v : V) (m : JsMap.t V) (x : string) :
  x ∈ JsMap.keys (JsMap.set k v m) -> x = k \/ x ∈ JsMap.keys m.
Proof.
  unfold JsMap.keys. induction m as [|[k' v'] m IH]; simpl.
  - rewrite list_elem_of_singleton. auto.
  - destruct (String.eqb_spec k k') as [->|Hne]; simpl; rewrite !elem_of_cons.
    + tauto.
    + intros [->|Hx]; [tauto|]. destruct (IH Hx); tauto.
Qed.

Lemma JsMap_set_fresh {V} (k : string) (v : V) (m : JsMap.t V) :
  k ∉ JsMap.keys m -> JsMap.set k v m = m ++ [(k, v)].
Proof.
  unfold JsMap.keys. induction m as [|[k' v'] m IH]; simpl; intros Hk.
  - reflexivity.
  - rewrite not_elem_of_cons in Hk. destruct Hk as [Hne Hk].
    destruct (String.eqb_spec k k') as [->|_]; [congruence|].
    now rewrite IH.
Qed.

(** Entries with pairwise distinct keys, [set] one after the other into an
    empty map, are stored in that order. *)
Lemma JsMap_fill_fresh {V} (es : list (string * V)) (m : JsMap.t V) :
  NoDup (JsMap.keys m ++ map fst es) ->
  foldl (fun m e => JsMap.set (fst e) (snd e) m) m es = m ++ es.
Proof.
  revert m. induction es as [|[k v] es IH]; intros m Hnd; simpl.
  - now rewrite app_nil_r.
  - simpl in Hnd. rewrite JsMap_set_fresh.
    + rewrite IH; [now rewrite <- app_assoc|].
      unfold JsMap.keys in *. rewrite map_app. simpl. now rewrite <- app_assoc.
    + apply NoDup_app in Hnd as (_ & Hdisj & _). intros Hin.
      apply (Hdisj k Hin). simpl. apply elem_of_cons. now left.
Qed.

(** ** The session store *)


Lemma lower_ascii_idemp (c : ascii) : lower_ascii (lower_ascii c) = lower_ascii c.
Proof. destruct c as [[] [] [] [] [] [] [] []]; reflexivity. Qed.

Lemma toLowerCase_idemp (s : string) : toLowerCase (toLowerCase s) = toLowerCase s.
Proof.
  induction s as [|c s IH]; simpl; [reflexivity|].
  now rewrite lower_ascii_idemp, IH.
Qed.

Lemma map_lower_fixed (l : list string) :
  Forall (fun h => toLowerCase h = h) l -> map toLowerCase l = l.
Proof. induction 1 as [|h l Hh _ IH]; simpl; [reflexivity | now rewrite Hh, IH]. Qed.

Lemma JsSet_of_list_elem_of (l : list string) (x : string) :
  x ∈ JsSet.of_list l <-> x ∈ l.
Proof.
  unfold JsSet.of_list.
  rewrite (JsSet_fold_elem_of (fun h => h)), map_id.
  unfold JsSet.empty. rewrite elem_of_nil. tauto.
Qed.

Lemma store_wf_empty : store_wf ∅.
Proof. intros txId rec Hrec. now rewrite lookup_empty in Hrec. Qed.

Lemma store_wf_delete (txId : string) (txs : Store) :
  store_wf txs -> store_wf (txStore.clearTx txId txs).
Proof.
  intros Hwf txId' rec Hrec. unfold txStore.clearTx in Hrec.
  apply lookup_delete_Some in Hrec as [_ Hrec]. eauto.
Qed.

Lemma store_wf_create (txId txHex txBodyHex scriptHex : string) (m : nat)
    (signers : list string) (preview : Preview) (txs : Store) :
  store_wf txs ->
  store_wf (txStore.createTxRecord txId txHex txBodyHex scriptHex m
              (map toLowerCase signers) preview txs).
Proof.
  intros Hwf txId' rec Hrec. unfold txStore.createTxRecord in Hrec.
  apply lookup_insert_Some in Hrec as [[_ <-] | [_ Hrec]]; [|eauto].
  split; simpl.
  - intros k Hk. now apply elem_of_nil in Hk.
  - apply Forall_forall. intros h Hh.
    change (map toLowerCase signers) with (toLowerCase <$> signers) in Hh.
    apply list_elem_of_fmap in Hh as (h' & -> & _).
    apply toLowerCase_idemp.
Qed.

Lemma store_wf_addWitness (txId k w : string) (txs : Store) :
  store_wf txs ->
  (forall rec, txs !! txId = Some rec -> k ∈ txStore.signersKeyHashes rec) ->
  store_wf (snd (txStore.addWitness txId k w txs)).
Proof.
  intros Hwf Hk. unfold txStore.addWitness.
  destruct (txs !! txId) as [rec|] eqn:Hrec; simpl; [|assumption].
  intros txId' rec' Hrec'.
  apply lookup_insert_Some in Hrec' as [[_ <-] | [_ Hrec']]; [|eauto].
  destruct (Hwf _ _ Hrec) as [Hinv Hlow]. split; simpl; [|assumption].
  intros x Hx. apply JsMap_keys_set in Hx as [-> | Hx].
  - simpl. now apply Hk.
  - now apply Hinv.
Qed.

Lemma addWitness_signers (txId k w : string) (txs : Store) (txId' : string) :
  txStore.signersKeyHashes <$> (snd (txStore.addWitness txId k w txs) !! txId')
  = txStore.signersKeyHashes <$> (txs !! txId').
Proof.
  unfold txStore.addWitness.
  destruct (txs !! txId) as [rec|] eqn:Hrec; simpl; [|reflexivity].
  destruct (decide (txId = txId')) as [<- | Hne].
  - now rewrite lookup_insert_eq, Hrec.
  - now rewrite lookup_insert_ne.
Qed.

(** ** Submission *)

(** C4. A submit on an existing session with fewer witnesses than [m]
    answers [not_enough_witnesses] with the pair (collected, required),
    hands nothing to the gateway and leaves the state as it was. *)
Theorem submit_below_threshold (lib : CSLib) (bf : Blockfrost)
    (txId : string) (st : ServerState) (rec : txStore.TxRecord) :
  txId <> "" ->
  txStore.getTxRecord txId (txs st) = Some rec ->
  (JsMap.size (txStore.witnesses rec) < txStore.m rec)%nat ->
  postSubmit lib bf (Some txId) st
  = (not_enough_witnesses (JsMap.size (txStore.witnesses rec)) (txStore.m rec),
     st, []).
Proof.
  intros Hid Hrec Hlt. unfold postSubmit. simpl.
  destruct (String.eqb_spec txId "") as [->|_]; [congruence|].
  rewrite Hrec.
  destruct (Nat.ltb_spec (JsMap.size (txStore.witnesses rec)) (txStore.m rec));
    [reflexivity | lia].
Qed.

(** Scenario 5 of the specification: [m = 2], one witness collected. *)
Lemma submit_below_threshold_witness :
  postSubmit Sample.lib Sample.accepting (Some "tx1")
    (Sample.stateWith [(Sample.hashA, "a10a01")])
  = (not_enough_witnesses 1 2, Sample.stateWith [(Sample.hashA, "a10a01")], []).
Proof.
  apply (submit_below_threshold Sample.lib Sample.accepting "tx1"
           (Sample.stateWith [(Sample.hashA, "a10a01")])
           (Sample.session [(Sample.hashA, "a10a01")])).
  - discriminate.
  - reflexivity.
  - simpl. lia.
Defined.

Lemma csl_throws {A} (o : option A) (e : Exn) : csl o = Throw e -> e = CslError.
Proof. destruct o; simpl; congruence. Qed.

Lemma aggregateVkeys_throws (lib : CSLib) (ws : list string) (e : Exn) :
  aggregateVkeys lib ws = Throw e -> e = CslError.
Proof.
  unfold aggregateVkeys. generalize (@nil Vkeywitness).
  induction ws as [|w ws IH]; intros agg; simpl; [discriminate|].
  destruct (TransactionWitnessSet_from_bytes lib (hexToBytes w)); simpl.
  - apply IH.
  - congruence.
Qed.

Lemma aggregateVkeys_unparsed (lib : CSLib) (ws : list string) (w : string) :
  w ∈ ws ->
  TransactionWitnessSet_from_bytes lib (hexToBytes w) = None ->
  aggregateVkeys lib ws = Throw CslError.
Proof.
  unfold aggregateVkeys. generalize (@nil Vkeywitness).
  induction ws as [|w' ws IH]; intros agg Hin Hw; simpl.
  - now apply elem_of_nil in Hin.
  - destruct (TransactionWitnessSet_from_bytes lib (hexToBytes w')) eqn:Hw'; simpl.
    + apply elem_of_cons in Hin as [-> | Hin]; [congruence | now apply IH].
    + reflexivity.
Qed.

Lemma assemble_throws (lib : CSLib) (b s : string) (ws : list string) (e : Exn) :
  assembleAndSerializeTx lib b s ws = Throw e -> e = CslError.
Proof.
  unfold assembleAndSerializeTx, assembleTx.
  destruct (TransactionBody_from_bytes lib (hexToBytes b)); simpl; [|congruence].
  destruct (NativeScript_from_bytes lib (hexToBytes s)); simpl; [|congruence].
  destruct (aggregateVkeys lib ws) eqn:Hagg; simpl; [discriminate|].
  intros [= <-]. eapply aggregateVkeys_throws, Hagg.
Qed.

Lemma assemble_unparsed (lib : CSLib) (b s : string) (ws : list string) (w : string) :
  w ∈ ws ->
  TransactionWitnessSet_from_bytes lib (hexToBytes w) = None ->
  assembleAndSerializeTx lib b s ws = Throw CslError.
Proof.
  intros Hin Hw. unfold assembleAndSerializeTx, assembleTx.
  destruct (TransactionBody_from_bytes lib (hexToBytes b)); simpl; [|reflexivity].
  destruct (NativeScript_from_bytes lib (hexToBytes s)); simpl; [|reflexivity].
  now rewrite (aggregateVkeys_unparsed lib ws w Hin Hw).
Qed.

(** C5, as the code has it. On a session with enough witnesses: when the
    gateway accepts the assembled transaction the session is removed and
    the hash returned; when it rejects it the session stays and the
    diagnostic comes back as [submit_failed]; when a stored witness does
    not parse, nothing is handed to the gateway, [submit_failed] comes
    back, and the session stays as well. *)
Theorem submit_outcomes (lib : CSLib) (bf : Blockfrost)
    (txId : string) (st : ServerState) (rec : txStore.TxRecord) :
  txId <> "" ->
  txStore.getTxRecord txId (txs st) = Some rec ->
  (txStore.m rec <= JsMap.size (txStore.witnesses rec))%nat ->
  let witnessHexes := JsMap.values (txStore.witnesses rec) in
  let assembled :=
    assembleAndSerializeTx lib (txStore.txBodyHex rec) (txStore.scriptHex rec)
      witnessHexes in
  (forall txBytes txHash,
      assembled = Ok txBytes -> submitTx bf txBytes = Ok txHash ->
      postSubmit lib bf (Some txId) st
      = (submitted txHash,
         mkServerState (delete txId (txs st)) (latestSession st), [txBytes]))
  /\ (forall txBytes diagnostic,
      assembled = Ok txBytes -> submitTx bf txBytes = Throw diagnostic ->
      postSubmit lib bf (Some txId) st = (submit_failed diagnostic, st, [txBytes]))
  /\ (forall w,
      w ∈ witnessHexes ->
      TransactionWitnessSet_from_bytes lib (hexToBytes w) = None ->
      postSubmit lib bf (Some txId) st = (submit_failed CslError, st, [])).
Proof.
  intros Hid Hrec Hle witnessHexes assembled.
  assert (Hpost : postSubmit lib bf (Some txId) st =
    match assembled with
    | Throw e => (submit_failed e, st, [])
    | Ok txBytes =>
        match submitTx bf txBytes with
        | Throw e => (submit_failed e, st, [txBytes])
        | Ok txHash =>
            (submitted txHash,
             mkServerState (delete txId (txs st)) (latestSession st), [txBytes])
        end
    end).
  { unfold postSubmit. simpl.
    destruct (String.eqb_spec txId "") as [->|_]; [congruence|].
    rewrite Hrec.
    destruct (Nat.ltb_spec (JsMap.size (txStore.witnesses rec)) (txStore.m rec));
      [lia | reflexivity]. }
  rewrite Hpost. repeat split.
  - intros txBytes txHash -> ->. reflexivity.
  - intros txBytes e -> ->. reflexivity.
  - intros w Hin Hw. subst assembled.
    now rewrite (assemble_unparsed lib _ _ witnessHexes w Hin Hw).
Qed.

Lemma submit_outcomes_witness :
  let st := Sample.stateWith [(Sample.hashA, "a10a01"); (Sample.hashB, "a10b02")] in
  postSubmit Sample.lib Sample.accepting (Some "tx1") st
  = (submitted "txhash", mkServerState ∅ None,
     [hexToBytes "84b0a10a010b02"])
  /\ postSubmit Sample.lib Sample.rejecting (Some "tx1") st
     = (submit_failed (HttpError "FeeTooSmallUTxO"), st,
        [hexToBytes "84b0a10a010b02"]).
Proof.
  intros st.
  destruct (submit_outcomes Sample.lib Sample.accepting "tx1" st
              (Sample.session [(Sample.hashA, "a10a01"); (Sample.hashB, "a10b02")]))
    as (Hacc & _ & _); [discriminate | reflexivity | simpl; lia |].
  destruct (submit_outcomes Sample.lib Sample.rejecting "tx1" st
              (Sample.session [(Sample.hashA, "a10a01"); (Sample.hashB, "a10b02")]))
    as (_ & Hrej & _); [discriminate | reflexivity | simpl; lia |].
  split.
  - rewrite (Hacc (hexToBytes "84b0a10a010b02") "txhash");
      [reflexivity | reflexivity | reflexivity].
  - apply (Hrej (hexToBytes "84b0a10a010b02") (HttpError "FeeTooSmallUTxO"));
      reflexivity.
Defined.

(** C5 as stated fails: a session one of whose stored witnesses does not
    parse is still in the store after the failed submit. *)
Lemma submit_unparsed_witness_keeps_session :
  let st := Sample.stateWith [(Sample.hashA, "a10a01"); (Sample.hashB, "ff")] in
  TransactionWitnessSet_from_bytes Sample.lib (hexToBytes "ff") = None
  /\ postSubmit Sample.lib Sample.accepting (Some "tx1") st
     = (submit_failed CslError, st, [])
  /\ txs (snd (fst (postSubmit Sample.lib Sample.accepting (Some "tx1") st))) !! "tx1"
     = Some (Sample.session [(Sample.hashA, "a10a01"); (Sample.hashB, "ff")]).
Proof. vm_compute. repeat split; reflexivity. Qed.

(** ** Witness intake and the store invariant *)

Lemma intake_wf (lib : CSLib) (txId : string) (requiredSet : JsSet.t)
    (vks : list Vkeywitness) :
  forall (txs : Store) (accepted ignored : list string),
    store_wf txs ->
    (forall rec, txs !! txId = Some rec ->
                 forall k, k ∈ requiredSet -> k ∈ txStore.signersKeyHashes rec) ->
    match intake lib txId requiredSet vks txs accepted ignored with
    | inl (_, txs') => store_wf txs'
    | inr (txs', _, _) => store_wf txs'
    end.
Proof.
  induction vks as [|vw vks IH]; intros txs accepted ignored Hwf Hreq; simpl.
  - assumption.
  - unfold JsSet.has. case_bool_decide as Hin; simpl.
    + destruct (txStore.addWitness txId (witnessKeyHash lib vw)
                  (singleWitnessHex lib vw) txs) as [r txs'] eqn:Hadd.
      assert (Hwf' : store_wf txs').
      { replace txs' with (snd (txStore.addWitness txId (witnessKeyHash lib vw)
                                  (singleWitnessHex lib vw) txs))
          by now rewrite Hadd.
        apply store_wf_addWitness; [assumption|]. intros rec Hrec. eauto. }
      destruct r as [|count m]; [assumption|].
      apply IH; [assumption|].
      intros rec Hrec k Hk.
      pose proof (addWitness_signers txId (witnessKeyHash lib vw)
                    (singleWitnessHex lib vw) txs txId) as Hsig.
      rewrite Hadd in Hsig. simpl in Hsig. rewrite Hrec in Hsig. simpl in Hsig.
      destruct (txs !! txId) as [rec0|] eqn:Hrec0; [|discriminate].
      simpl in Hsig. injection Hsig as ->. eauto.
    + apply IH; assumption.
Qed.

Section Server_invariant.
Context (lib : CSLib) (MIN_ADA FIXED_FEE : Z).
Context (PAYMENT_SCRIPT_CBOR_HEX : string).
Context (PAYMENT_SUMMARY : ScriptSummary) (MULTISIG_ADDRESS : string).

Lemma postCreate_wf (bf : Blockfrost) (req : CreateBody) (st : ServerState) :
  store_wf (txs st) ->
  store_wf (txs (snd (postCreate lib MIN_ADA FIXED_FEE PAYMENT_SCRIPT_CBOR_HEX
                        PAYMENT_SUMMARY MULTISIG_ADDRESS bf req st))).
Proof.
  intros Hwf. unfold postCreate.
  destruct (buildUnsignedTx _ _ _ _ _ _ _ _ _ _) as [build|e]; simpl;
    [|assumption].
  now apply store_wf_create.
Qed.

Lemma postWitness_wf (req : WitnessBody) (st : ServerState) :
  store_wf (txs st) -> store_wf (txs (snd (postWitness lib req st))).
Proof.
  intros Hwf. unfold postWitness.
  destruct (falsy (witness_txId req) || falsy (witnessHex req)); [assumption|].
  unfold txStore.getTxRecord.
  destruct (txs st !! default "" (witness_txId req)) as [rec|] eqn:Hrec;
    [|assumption].
  destruct (parseVkeys lib _) as [vks|e]; [|assumption].
  destruct (length (default [] vks) =? 0)%nat; [assumption|].
  pose proof (intake_wf lib (default "" (witness_txId req))
                (JsSet.of_list (map toLowerCase (txStore.signersKeyHashes rec)))
                (default [] vks) (txs st) [] [] Hwf) as Hin.
  destruct (intake lib _ _ _ _ _ _) as [[r txs'] | [[txs' accepted] ignored]].
  - simpl. apply Hin. intros rec' Hrec' k Hk.
    rewrite Hrec in Hrec'. injection Hrec' as <-.
    apply (proj1 (JsSet_of_list_elem_of _ _)) in Hk.
    rewrite map_lower_fixed in Hk by apply (Hwf _ _ Hrec). assumption.
  - assert (Hwf' : store_wf txs').
    { apply Hin. intros rec' Hrec' k Hk.
      rewrite Hrec in Hrec'. injection Hrec' as <-.
      apply (proj1 (JsSet_of_list_elem_of _ _)) in Hk.
      rewrite map_lower_fixed in Hk by apply (Hwf _ _ Hrec). assumption. }
    destruct (length accepted =? 0)%nat; [assumption|].
    destruct (txStore.status _ txs'); assumption.
Qed.

Lemma postSubmit_wf (bf : Blockfrost) (txId : option string) (st : ServerState) :
  store_wf (txs st) -> store_wf (txs (snd (fst (postSubmit lib bf txId st)))).
Proof.
  intros Hwf. unfold postSubmit.
  destruct (falsy txId); [assumption|].
  destruct (txStore.getTxRecord _ _) as [rec|]; [|assumption].
  destruct (_ <? _)%nat; [assumption|].
  destruct (assembleAndSerializeTx _ _ _ _) as [txBytes|e]; [|assumption].
  destruct (submitTx bf txBytes); [|assumption].
  simpl. now apply store_wf_delete.
Qed.

Lemma postReset_wf (txId : option string) (st : ServerState) :
  store_wf (txs st) -> store_wf (txs (snd (postReset txId st))).
Proof.
  intros Hwf. unfold postReset. simpl.
  destruct (falsy txId); [assumption | now apply store_wf_delete].
Qed.

(** Every handler keeps the store well formed. *)
Lemma handle_wf (r : Request) (st : ServerState) :
  store_wf (txs st) ->
  store_wf (txs (snd (handle lib MIN_ADA FIXED_FEE PAYMENT_SCRIPT_CBOR_HEX
                        PAYMENT_SUMMARY MULTISIG_ADDRESS r st))).
Proof.
  intros Hwf. destruct r as [bf req | req | bf txId | txId]; simpl.
  - now apply postCreate_wf.
  - now apply postWitness_wf.
  - pose proof (postSubmit_wf bf txId st Hwf) as H.
    destruct (postSubmit lib bf txId st) as [[resp st'] calls]. exact H.
  - now apply postReset_wf.
Qed.

Lemma run_wf (rs : list Request) (st : ServerState) :
  store_wf (txs st) ->
  store_wf (txs (run lib MIN_ADA FIXED_FEE PAYMENT_SCRIPT_CBOR_HEX
                   PAYMENT_SUMMARY MULTISIG_ADDRESS rs st)).
Proof.
  revert st. unfold run. induction rs as [|r rs IH]; intros st Hwf; simpl.
  - assumption.
  - apply IH. now apply handle_wf.
Qed.

End Server_invariant.

(** C3. Whatever requests (create, witness, submit, reset) the server has
    served since it started, the witnesses of every live session are keyed
    by hashes of that session's required key hashes. *)
Theorem witnesses_keys_required (lib : CSLib) (MIN_ADA FIXED_FEE : Z)
    (PAYMENT_SCRIPT_CBOR_HEX : string) (PAYMENT_SUMMARY : ScriptSummary)
    (MULTISIG_ADDRESS : string) (rs : list Request) :
  store_inv (txs (run lib MIN_ADA FIXED_FEE PAYMENT_SCRIPT_CBOR_HEX
                    PAYMENT_SUMMARY MULTISIG_ADDRESS rs initialState)).
Proof.
  intros txId rec Hrec.
  eapply (run_wf lib MIN_ADA FIXED_FEE PAYMENT_SCRIPT_CBOR_HEX PAYMENT_SUMMARY
            MULTISIG_ADDRESS rs initialState store_wf_empty), Hrec.
Qed.

Lemma set_witnesses_id (rec : txStore.TxRecord) :
  txStore.set_witnesses (txStore.witnesses rec) rec = rec.
Proof. now destruct rec. Qed.

Lemma set_witnesses_twice (w w' : JsMap.t string) (rec : txStore.TxRecord) :
  txStore.set_witnesses w (txStore.set_witnesses w' rec)
  = txStore.set_witnesses w rec.
Proof. reflexivity. Qed.

Lemma has_isRequired (lib : CSLib) (signers : list string) (vw : Vkeywitness) :
  JsSet.has (witnessKeyHash lib vw) (JsSet.of_list (map toLowerCase signers))
  = isRequired lib signers vw.
Proof. apply bool_decide_ext, JsSet_of_list_elem_of. Qed.

Lemma intake_spec (lib : CSLib) (txId : string) (signers : list string)
    (vks : list Vkeywitness) :
  forall (txs : Store) (rec : txStore.TxRecord) (accepted ignored : list string),
    txs !! txId = Some rec ->
    intake lib txId (JsSet.of_list (map toLowerCase signers)) vks txs
      accepted ignored
    = inr (<[txId := txStore.set_witnesses
                       (storeEach lib (List.filter (isRequired lib signers) vks)
                          (txStore.witnesses rec)) rec]> txs,
           accepted ++ map (witnessKeyHash lib)
                         (List.filter (isRequired lib signers) vks),
           ignored ++ map (witnessKeyHash lib)
                        (List.filter (fun vw => negb (isRequired lib signers vw)) vks)).
Proof.
  induction vks as [|vw vks IH]; intros txs rec accepted ignored Hrec.
  - simpl. rewrite !app_nil_r, set_witnesses_id, insert_id by assumption.
    reflexivity.
  - cbn [intake List.filter]. rewrite has_isRequired.
    destruct (isRequired lib signers vw) eqn:Hreq; cbn [negb].
    + unfold txStore.addWitness. rewrite Hrec.
      rewrite (IH _ (txStore.set_witnesses
                       (JsMap.set (witnessKeyHash lib vw) (singleWitnessHex lib vw)
                          (txStore.witnesses rec)) rec))
        by apply lookup_insert_eq.
      rewrite insert_insert_eq, set_witnesses_twice, <- !app_assoc. reflexivity.
    + rewrite (IH txs rec) by assumption. rewrite <- !app_assoc. reflexivity.
Qed.




(** ** Assembling *)

Lemma aggregateVkeys_from (lib : CSLib) (ws : list string) :
  forall agg,
    foldM (fun agg w =>
             ws ← csl (TransactionWitnessSet_from_bytes lib (hexToBytes w));
             Ok (match vkeys ws with
                 | Some vks => agg ++ vks
                 | None => agg
                 end)) agg ws
    = if forallb (parses lib) ws
      then Ok (agg ++ flat_map (keyWitnessesOf lib) ws)
      else Throw CslError.
Proof.
  induction ws as [|w ws IH]; intros agg; simpl.
  - now rewrite app_nil_r.
  - unfold parses at 1, keyWitnessesOf at 1.
    destruct (TransactionWitnessSet_from_bytes lib (hexToBytes w)) as [s|];
      simpl; [|reflexivity].
    rewrite IH. destruct (forallb (parses lib) ws); [|reflexivity].
    destruct (vkeys s) as [vks|]; simpl; [now rewrite <- app_assoc | reflexivity].
Qed.

Lemma aggregateVkeys_spec (lib : CSLib) (ws : list string) :
  aggregateVkeys lib ws
  = if forallb (parses lib) ws
    then Ok (flat_map (keyWitnessesOf lib) ws)
    else Throw CslError.
Proof. unfold aggregateVkeys. now rewrite aggregateVkeys_from. Qed.

Lemma forallb_Permutation {A} (f : A -> bool) (l1 l2 : list A) :
  Permutation l1 l2 -> forallb f l1 = forallb f l2.
Proof.
  induction 1 as [|x l1 l2 _ IH | x y l | l1 l2 l3 _ IH1 _ IH2]; simpl.
  - reflexivity.
  - now rewrite IH.
  - destruct (f x), (f y); reflexivity.
  - congruence.
Qed.

Lemma insertAll_values (es : list (string * string)) :
  NoDup (map fst es) -> JsMap.values (insertAll es) = map snd es.
Proof.
  intros Hnd. unfold insertAll, JsMap.values.
  rewrite (JsMap_fill_fresh es JsMap.empty); [reflexivity | exact Hnd].
Qed.

(** C10, as the code has it. The same witnesses, one per key hash,
    inserted in two different orders, assemble (or fail to) alike: the
    transactions have the same body, the same native script, and the same
    key witnesses up to their order; the key witnesses follow the order of
    insertion. *)
Theorem assemble_up_to_witness_order (lib : CSLib) (txBodyHex scriptHex : string)
    (es1 es2 : list (string * string)) :
  NoDup (map fst es1) ->
  Permutation es1 es2 ->
  match assembleTx lib txBodyHex scriptHex (JsMap.values (insertAll es1)),
        assembleTx lib txBodyHex scriptHex (JsMap.values (insertAll es2)) with
  | Ok tx1, Ok tx2 =>
      body tx1 = body tx2
      /\ native_scripts (witness_set tx1) = native_scripts (witness_set tx2)
      /\ other_witnesses (witness_set tx1) = other_witnesses (witness_set tx2)
      /\ Permutation (vkeysOfTx tx1) (vkeysOfTx tx2)
      /\ vkeysOfTx tx1 = flat_map (keyWitnessesOf lib) (map snd es1)
      /\ vkeysOfTx tx2 = flat_map (keyWitnessesOf lib) (map snd es2)
  | Throw e1, Throw e2 => e1 = e2
  | _, _ => False
  end.
Proof.
  intros Hnd1 Hperm.
  assert (Hnd2 : NoDup (map fst es2)).
  { pose proof (Permutation_map fst Hperm) as Hfst. now rewrite <- Hfst. }
  rewrite !insertAll_values by assumption.
  assert (Hsnd : Permutation (map snd es1) (map snd es2))
    by now apply Permutation_map.
  unfold assembleTx.
  destruct (TransactionBody_from_bytes lib (hexToBytes txBodyHex)) as [b|];
    simpl; [|reflexivity].
  destruct (NativeScript_from_bytes lib (hexToBytes scriptHex)) as [ns|];
    simpl; [|reflexivity].
  rewrite !aggregateVkeys_spec.
  rewrite <- (forallb_Permutation (parses lib) _ _ Hsnd).
  destruct (forallb (parses lib) (map snd es1)); simpl; [|reflexivity].
  assert (Hflat : Permutation (flat_map (keyWitnessesOf lib) (map snd es1))
                    (flat_map (keyWitnessesOf lib) (map snd es2)))
    by now apply Permutation_flat_map.
  assert (Hvk : forall l : list Vkeywitness,
             vkeysOfTx (mkTransaction b
               (if (0 <? length l)%nat
                then set_vkeys l (set_native_scripts [ns] TransactionWitnessSet_new)
                else set_native_scripts [ns] TransactionWitnessSet_new)) = l).
  { intros [|x l]; reflexivity. }
  rewrite !Hvk. repeat split; try assumption.
  - destruct (0 <? _)%nat, (0 <? _)%nat; reflexivity.
  - destruct (0 <? _)%nat, (0 <? _)%nat; reflexivity.
Qed.

Lemma assemble_up_to_witness_order_witness :
  match assembleTx Sample.lib "b0" "5c"
          (JsMap.values (insertAll [(Sample.hashA, "a10a01"); (Sample.hashB, "a10b02")])),
        assembleTx Sample.lib "b0" "5c"
          (JsMap.values (insertAll [(Sample.hashB, "a10b02"); (Sample.hashA, "a10a01")])) with
  | Ok tx1, Ok tx2 =>
      vkeysOfTx tx1 = [mkVkeywitness [x0a] [x01]; mkVkeywitness [x0b] [x02]]
      /\ vkeysOfTx tx2 = [mkVkeywitness [x0b] [x02]; mkVkeywitness [x0a] [x01]]
  | _, _ => False
  end.
Proof.
  pose proof (assemble_up_to_witness_order Sample.lib "b0" "5c"
                [(Sample.hashA, "a10a01"); (Sample.hashB, "a10b02")]
                [(Sample.hashB, "a10b02"); (Sample.hashA, "a10a01")]) as H.
  destruct (assembleTx Sample.lib "b0" "5c" _) as [tx1|e1] eqn:H1;
    [|discriminate H1].
  destruct (assembleTx Sample.lib "b0" "5c"
              (JsMap.values (insertAll [(Sample.hashB, "a10b02"); (Sample.hashA, "a10a01")])))
    as [tx2|e2] eqn:H2; [|discriminate H2].
  destruct H as (_ & _ & _ & _ & Hv1 & Hv2).
  - apply NoDup_ListNoDup. repeat constructor; simpl; intuition discriminate.
  - apply perm_swap.
  - split; [exact Hv1 | exact Hv2].
Defined.

(** C10 as stated fails: witnesses for A and B inserted as A, B and as
    B, A give different serialized transactions; in the second the
    witness of B precedes that of A, although A's hash sorts first. *)
Lemma assemble_depends_on_insertion_order :
  assembleAndSerializeTx Sample.lib "b0" "5c"
    (JsMap.values (insertAll [(Sample.hashA, "a10a01"); (Sample.hashB, "a10b02")]))
  = Ok (hexToBytes "84b0a10a010b02")
  /\ assembleAndSerializeTx Sample.lib "b0" "5c"
       (JsMap.values (insertAll [(Sample.hashB, "a10b02"); (Sample.hashA, "a10a01")]))
     = Ok (hexToBytes "84b0a10b020a01")
  /\ hexToBytes "84b0a10a010b02" <> hexToBytes "84b0a10b020a01"
  /\ String.ltb Sample.hashA Sample.hashB = true.
Proof. vm_compute. repeat split. discriminate. Qed.

(** Not an artefact of the sample codec: with any serializer that can be
    read back, equal bytes mean equal key-witness order. *)
Lemma assembled_bytes_fix_witness_order (lib : CSLib)
    (txBodyHex scriptHex : string) (ws1 ws2 : list string) (b : list byte) :
  (forall tx, Transaction_from_bytes lib (Transaction_to_bytes lib tx) = Some tx) ->
  assembleAndSerializeTx lib txBodyHex scriptHex ws1 = Ok b ->
  assembleAndSerializeTx lib txBodyHex scriptHex ws2 = Ok b ->
  aggregateVkeys lib ws1 = aggregateVkeys lib ws2.
Proof.
  intros Hrt. unfold assembleAndSerializeTx, assembleTx.
  destruct (TransactionBody_from_bytes lib (hexToBytes txBodyHex)) as [bd|];
    simpl; [|discriminate].
  destruct (NativeScript_from_bytes lib (hexToBytes scriptHex)) as [ns|];
    simpl; [|discriminate].
  destruct (aggregateVkeys lib ws1) as [l1|]; simpl; [|discriminate].
  destruct (aggregateVkeys lib ws2) as [l2|]; simpl; [|discriminate].
  intros [= H1] [= H2]. rewrite <- H2 in H1.
  apply (f_equal (Transaction_from_bytes lib)) in H1.
  rewrite !Hrt in H1. injection H1 as H1. f_equal. clear H2.
  destruct l1, l2; cbn in H1; try reflexivity; try discriminate H1.
  unfold set_vkeys in H1. now injection H1 as -> ->.
Qed.

(** ** Script summaries *)

Lemma deriveSummary_parsed (lib : CSLib) (scriptHex : string) (ns : NativeScript) :
  NativeScript_from_bytes lib (hexToBytes scriptHex) = Some ns ->
  deriveSummary lib scriptHex
  = summarize ns (bytesToHex (NativeScript_hash lib ns)).
Proof. intros Hns. unfold deriveSummary. now rewrite Hns. Qed.



(** The script hard-coded in the server has a summary, which passes the
    start-up guard. *)
Example payment_script_summary :
  exists s,
    summarize Sample.paymentScript "" = Ok s
    /\ mRequired s = 2%nat
    /\ requiredKeyHashes s
       = ["2628bd7a9a004b20c91f2b7b241183813c62e049917810e364e27531";
          "9cc6f61972a60b643acbc266db2514e450ac96e3592e2588a2d6b4a8"]
    /\ startupAccepts s = true.
Proof. eexists. split; [vm_compute; reflexivity|]. vm_compute. repeat split. Qed.

Lemma max_list_bounds (lo hi n : nat) (l : list nat) :
  Forall (fun x => lo <= x <= hi)%nat (n :: l) ->
  (lo <= max_list (n :: l) <= hi)%nat.
Proof.
  revert n. induction l as [|x l IH]; intros n Hall.
  - apply Forall_cons in Hall as [Hn _]. simpl. lia.
  - apply Forall_cons in Hall as [Hn Hall].
    specialize (IH x Hall). simpl in *. lia.
Qed.

Lemma distinctKeys_positive (ns : NativeScript) :
  pubkeyHashes ns <> [] -> (1 <= distinctKeys ns)%nat.
Proof.
  intros Hne. unfold distinctKeys.
  destruct (pubkeyHashes ns) as [|kh l] eqn:Hl; [congruence|].
  destruct (remove_dups (kh :: l)) as [|x r] eqn:Hr; [|simpl; lia].
  assert (Hin : kh ∈ remove_dups (kh :: l))
    by (apply elem_of_remove_dups, elem_of_cons; now left).
  rewrite Hr in Hin. now apply elem_of_nil in Hin.
Qed.

(** C9, as the code has it. When the script has a pubkey leaf and the [n]
    of every [AtLeast] node lies between 1 and the number of distinct
    pubkey key hashes, so does the threshold of the summary that
    [deriveSummary] returns; it returns one exactly when the script has
    no time lock. *)
Theorem threshold_within_key_count (lib : CSLib) (scriptHex : string)
    (ns : NativeScript) :
  NativeScript_from_bytes lib (hexToBytes scriptHex) = Some ns ->
  pubkeyHashes ns <> [] ->
  Forall (fun n => 1 <= n <= distinctKeys ns)%nat (atLeastThresholds ns) ->
  match deriveSummary lib scriptHex with
  | Ok summary =>
      hasTimelock ns = false
      /\ (1 <= mRequired summary <= distinctKeys ns)%nat
      /\ totalKeys summary = distinctKeys ns
  | Throw _ => hasTimelock ns = true
  end.
Proof.
  intros Hns Hkeys Hth. rewrite (deriveSummary_parsed lib scriptHex ns Hns).
  pose proof (summarize_returns ns (bytesToHex (NativeScript_hash lib ns))) as Hret.
  destruct (summarize ns (bytesToHex (NativeScript_hash lib ns)))
    as [summary|e] eqn:Hsum; [|exact (proj1 Hret)].
  split; [exact Hret|].
  rewrite (summarize_mRequired ns _ summary Hsum),
          (summarize_totalKeys ns _ summary Hsum). split; [|reflexivity].
  pose proof (distinctKeys_positive ns Hkeys) as Hpos.
  destruct (atLeastThresholds ns) as [|n l].
  - destruct (containsAny ns); lia.
  - now apply max_list_bounds.
Qed.

Lemma threshold_within_key_count_witness :
  exists summary,
    deriveSummary Sample.lib "5c" = Ok summary
    /\ (1 <= mRequired summary <= 3)%nat
    /\ totalKeys summary = 3%nat.
Proof.
  assert (Hsum : deriveSummary Sample.lib "5c" = Ok Scenario.summary)
    by (vm_compute; reflexivity).
  assert (Hkeys : pubkeyHashes Sample.script2of3 <> []) by discriminate.
  assert (Hth : Forall (fun n => 1 <= n <= distinctKeys Sample.script2of3)%nat
                  (atLeastThresholds Sample.script2of3))
    by (vm_compute; repeat constructor).
  pose proof (threshold_within_key_count Sample.lib "5c" Sample.script2of3
                eq_refl Hkeys Hth) as Hrange.
  rewrite Hsum in Hrange. destruct Hrange as (_ & Hm & Hk).
  exists Scenario.summary. split; [exact Hsum|]. split; [exact Hm | exact Hk].
Defined.

(** C9 as stated fails: "three of: signed by A, signed by B" has two keys
    and threshold 3; "none of: signed by A" has one key and threshold 0.
    Neither script has a time lock, and [deriveSummary] returns a summary
    for both. *)
Lemma threshold_outside_key_range :
  let t1 := ScriptNOfK 3 [ScriptPubkey Sample.keyA; ScriptPubkey Sample.keyB] in
  let t2 := ScriptNOfK 0 [ScriptPubkey Sample.keyA] in
  exists s1 s2,
    summarize t1 "" = Ok s1
    /\ summarize t2 "" = Ok s2
    /\ (mRequired s1 = 3%nat /\ distinctKeys t1 = 2%nat /\ totalKeys s1 = 2%nat)
    /\ (mRequired s2 = 0%nat /\ distinctKeys t2 = 1%nat /\ totalKeys s2 = 1%nat)
    /\ ~ (1 <= mRequired s1 <= distinctKeys t1)%nat
    /\ ~ (1 <= mRequired s2 <= distinctKeys t2)%nat.
Proof.
  do 2 eexists.
  split; [vm_compute; reflexivity|]. split; [vm_compute; reflexivity|].
  vm_compute. repeat split; lia.
Qed.

(** ** The transaction builder *)

Lemma bind_Ok {A B} (r : Result A) (f : A -> Result B) (b : B) :
  r ≫= f = Ok b -> exists a, r = Ok a /\ f a = Ok b.
Proof. destruct r as [a|e]; simpl; [eauto | discriminate]. Qed.

Lemma Ok_bind {A B} (a : A) (f : A -> Result B) : Ok a ≫= f = f a.
Proof. reflexivity. Qed.

Lemma Throw_bind {A B} (e : Exn) (f : A -> Result B) : Throw e ≫= f = Throw e.
Proof. reflexivity. Qed.

(** Splits a successful sequence of binds into its steps. *)
Tactic Notation "bind_inv" hyp(H) "as" ident(a) ident(Ha) :=
  apply bind_Ok in H as (a & Ha & H).
Tactic Notation "bind_inv" hyp(H) :=
  let a := fresh "x" in
  let Ha := fresh "H" a in
  apply bind_Ok in H as (a & Ha & H).

Lemma from_str_Ok (s v : Z) : BigNum.from_str s = Ok v -> v = s /\ (0 <= s <= U64_MAX)%Z.
Proof.
  unfold BigNum.from_str.
  destruct (Z.leb_spec 0 s), (Z.leb_spec s U64_MAX); simpl; intros [= <-]; lia.
Qed.

Lemma foldM_invariant {A B} (P : B -> Prop) (body : B -> A -> Result B)
    (xs : list A) :
  (forall b x b', P b -> body b x = Ok b' -> P b') ->
  forall b b', P b -> foldM body b xs = Ok b' -> P b'.
Proof.
  intros Hstep. induction xs as [|x xs IH]; intros b b' Hb; simpl.
  - now intros [= <-].
  - intros H. bind_inv H as b1 Hb1. eauto.
Qed.

Section Builder_facts.
Context (lib : CSLib) (MIN_ADA FIXED_FEE : Z).

Lemma bumpAdaIfTokens_Ok (v v' : Value) :
  bumpAdaIfTokens MIN_ADA v = Ok v' ->
  multiasset v' = multiasset v
  /\ coin v' = match multiasset v with
               | Some _ => Z.max (coin v) MIN_ADA
               | None => coin v
               end.
Proof.
  unfold bumpAdaIfTokens. destruct (multiasset v) as [ma|] eqn:Hma.
  - intros H. bind_inv H as floor Hfloor. apply from_str_Ok in Hfloor as [-> _].
    injection H as <-. unfold BigNum.compare.
    destruct (Z.compare_spec (coin v) MIN_ADA); simpl; rewrite ?Hma;
      split; try reflexivity; lia.
  - intros [= <-]. now rewrite Hma.
Qed.

Lemma jsAssetsToValue_Ok (v v' : Value) (m : JsAssets) :
  jsAssetsToValue v m = Ok v' -> coin v' = coin v /\ multiasset v' <> None.
Proof.
  unfold jsAssetsToValue. intros H. bind_inv H as ma Hma. injection H as <-.
  split; [reflexivity | discriminate].
Qed.

Lemma tokens_value_floored (v0 v1 v2 : Value) (m : JsAssets) (addr : list byte) :
  (if negb (jsAssetsIsEmpty m) then jsAssetsToValue v0 m else Ok v0) = Ok v1 ->
  multiasset v0 = None ->
  (if bool_decide (multiasset v1 <> None) then bumpAdaIfTokens MIN_ADA v1
   else Ok v1) = Ok v2 ->
  floored MIN_ADA (mkOutput addr v2)
  /\ coin v2 = (if jsAssetsIsEmpty m then coin v0 else Z.max (coin v0) MIN_ADA)
  /\ (multiasset v2 <> None <-> jsAssetsIsEmpty m = false).
Proof.
  intros H1 Hnone H2. unfold floored. simpl.
  destruct (jsAssetsIsEmpty m); simpl in H1.
  - injection H1 as <-. rewrite Hnone in H2.
    rewrite bool_decide_false in H2 by congruence. injection H2 as <-.
    rewrite Hnone. repeat split; congruence.
  - apply jsAssetsToValue_Ok in H1 as [Hc Hma].
    rewrite bool_decide_true in H2 by assumption.
    apply bumpAdaIfTokens_Ok in H2 as [Hma' Hc'].
    rewrite Hma'. destruct (multiasset v1); [|congruence].
    rewrite Hc', Hc. repeat split; try congruence; lia.
Qed.

Lemma specOutput_Ok (spec : OutSpec) (o : TransactionOutput) :
  specOutput lib MIN_ADA spec = Ok o ->
  floored MIN_ADA o
  /\ coin (out_amount o)
     = (if jsAssetsIsEmpty (assetsMap spec) then spec_coin spec
        else Z.max (spec_coin spec) MIN_ADA)
  /\ (multiasset (out_amount o) <> None <-> jsAssetsIsEmpty (assetsMap spec) = false).
Proof.
  unfold specOutput. intros H. bind_inv H as c Hc. apply from_str_Ok in Hc as [-> _].
  bind_inv H as v1 Hv1. bind_inv H as v2 Hv2. bind_inv H as addr Haddr.
  injection H as <-.
  apply (tokens_value_floored (Value_new (spec_coin spec)) v1 v2
           (assetsMap spec) addr Hv1 eq_refl Hv2).
Qed.

Lemma changeOutput_Ok (mode : string) (destAddress : option string)
    (msAddr : list byte) (changeAssets : JsAssets) (changeCoin : Z)
    (change : option TransactionOutput) :
  changeOutput lib MIN_ADA mode destAddress msAddr changeAssets changeCoin
  = Ok change ->
  match change with
  | Some o =>
      floored MIN_ADA o
      /\ coin (out_amount o)
         = (if jsAssetsIsEmpty changeAssets then Z.max 0 changeCoin
            else Z.max (Z.max 0 changeCoin) MIN_ADA)
      /\ (multiasset (out_amount o) <> None <-> jsAssetsIsEmpty changeAssets = false)
  | None => (changeCoin <= 0)%Z /\ jsAssetsIsEmpty changeAssets = true
  end.
Proof.
  unfold changeOutput.
  destruct ((0 <? changeCoin)%Z || negb (jsAssetsIsEmpty changeAssets)) eqn:Hc.
  - intros H. bind_inv H as c Hcc. apply from_str_Ok in Hcc as [-> _].
    bind_inv H as v1 Hv1. bind_inv H as v2 Hv2. bind_inv H as addr Haddr.
    injection H as <-.
    destruct (tokens_value_floored
                (Value_new (if (changeCoin <? 0)%Z then 0%Z else changeCoin))
                v1 v2 changeAssets addr Hv1 eq_refl Hv2) as (Hf & Hcoin & Hma).
    repeat split; try assumption; try apply Hma.
    cbn [out_amount]. rewrite Hcoin. cbn [coin Value_new].
    destruct (Z.ltb_spec changeCoin 0);
      destruct (jsAssetsIsEmpty changeAssets); lia.
  - intros [= <-]. apply orb_false_iff in Hc as [Hc1 Hc2].
    apply negb_false_iff in Hc2. apply Z.ltb_ge in Hc1. auto.
Qed.

Lemma add_output_Ok (o : TransactionOutput) (tb tb' : TransactionBuilder) :
  add_output lib o tb = Ok tb' ->
  tb_outputs tb' = tb_outputs tb ++ [o] /\ tb_fee tb' = tb_fee tb.
Proof.
  unfold add_output. destruct (add_output_accepts lib (tb_config tb) o);
    [|discriminate].
  intros [= <-]. auto.
Qed.

(** The loop over [outSpecs]: one output per entry, in order. *)
Lemma spec_outputs_Ok (specs : list OutSpec) :
  forall tb tb',
    foldM (fun tb spec =>
             output ← specOutput lib MIN_ADA spec; add_output lib output tb)
      tb specs = Ok tb' ->
    exists outs,
      tb_outputs tb' = tb_outputs tb ++ outs
      /\ Forall2 (fun spec o => specOutput lib MIN_ADA spec = Ok o) specs outs.
Proof.
  induction specs as [|spec specs IH]; intros tb tb'; simpl.
  - intros [= <-]. exists []. rewrite app_nil_r. auto.
  - intros H. bind_inv H as tb1 Htb1. bind_inv Htb1 as o Ho.
    apply add_output_Ok in Htb1 as [Hout _].
    destruct (IH _ _ H) as (outs & Houts & Hall).
    exists (o :: outs). rewrite Houts, Hout, <- app_assoc. auto.
Qed.

Lemma input_loop_outputs (msAddr : list byte) (utxos : list Utxo) :
  forall tb tb',
    foldM (fun tb u =>
             input ← utxoInput u; v ← utxoValue u;
             Ok (add_input msAddr input v tb)) tb utxos = Ok tb' ->
    tb_outputs tb' = tb_outputs tb.
Proof.
  intros tb tb'.
  apply (foldM_invariant (fun t => tb_outputs t = tb_outputs tb)); [|reflexivity].
  intros b u b' Hb H. bind_inv H as i Hi. bind_inv H as v Hv.
  now injection H as <-.
Qed.

Lemma signers_loop_outputs (hs : list string) (tb : TransactionBuilder) :
  let tb' := foldl (fun tb khHex =>
                      match Ed25519KeyHash_from_bytes
                              (hexToBytes (toLowerCase khHex)) with
                      | Ok kh => add_required_signer kh tb
                      | Throw _ => tb
                      end) tb hs in
  tb_outputs tb' = tb_outputs tb /\ tb_fee tb' = tb_fee tb.
Proof.
  revert tb. induction hs as [|h hs IH]; intros tb; simpl; [auto|].
  destruct (IH (match Ed25519KeyHash_from_bytes (hexToBytes (toLowerCase h)) with
                | Ok kh => add_required_signer kh tb
                | Throw _ => tb
                end)) as [Ho Hf].
  rewrite Ho, Hf. destruct (Ed25519KeyHash_from_bytes _); auto.
Qed.

Lemma build_Ok (tb : TransactionBuilder) (body : TransactionBody) :
  build lib tb = Ok body ->
  outputs body = tb_outputs tb /\ tb_fee tb = Some (fee body).
Proof.
  unfold build. destruct (tb_fee tb) as [f|]; [|discriminate].
  destruct (build_accepts lib _ _); [|discriminate].
  intros [= <-]. auto.
Qed.

End Builder_facts.

Section Builder_outcome.
Context (lib : CSLib) (MIN_ADA FIXED_FEE : Z).

(** What a successful [buildBody] went through. *)
Lemma buildBody_Ok (bf : Blockfrost) (multisigAddress : string)
    (requiredKeyHashes : list string) (mode : string)
    (destAddress : option string) (requested : option (list OutputRequest))
    (body : TransactionBody) (utxos : list Utxo) (changeAssets : JsAssets)
    (changeCoin : Z) :
  buildBody lib MIN_ADA FIXED_FEE bf multisigAddress requiredKeyHashes mode
    destAddress requested = Ok (body, utxos, changeAssets, changeCoin) ->
  exists msAddr totalValue plan outs change,
    utxosByAddress bf multisigAddress = Ok utxos
    /\ sumInputs utxos = Ok totalValue
    /\ planOutputs MIN_ADA mode destAddress requested (valueToJs totalValue)
       = Ok plan
    /\ computeChange MIN_ADA FIXED_FEE (valueToJs totalValue) plan
       = Ok (changeAssets, changeCoin)
    /\ Forall2 (fun spec o => specOutput lib MIN_ADA spec = Ok o)
         (outSpecs plan) outs
    /\ changeOutput lib MIN_ADA mode destAddress msAddr changeAssets changeCoin
       = Ok change
    /\ outputs body = outs ++ match change with Some o => [o] | None => [] end
    /\ fee body = FIXED_FEE.
Proof.
  unfold buildBody. intros H.
  bind_inv H as protocol Hprotocol. bind_inv H as msAddr HmsAddr.
  bind_inv H as utxos' Hutxos. bind_inv H as totalValue Htotal.
  bind_inv H as plan Hplan. bind_inv H as ch Hch. destruct ch as [cA cC].
  bind_inv H as cfg Hcfg. bind_inv H as tb1 Htb1. bind_inv H as tb2 Htb2.
  bind_inv H as change Hchange. bind_inv H as tb3 Htb3.
  bind_inv H as f Hf. bind_inv H as body' Hbody.
  injection H as -> -> -> ->.
  apply from_str_Ok in Hf as [-> _].
  apply input_loop_outputs in Htb1. simpl in Htb1.
  apply spec_outputs_Ok in Htb2 as (outs & Houts & Hall).
  rewrite Htb1 in Houts. simpl in Houts.
  apply build_Ok in Hbody as [Hbo Hbf].
  destruct (signers_loop_outputs requiredKeyHashes (set_fee FIXED_FEE tb3))
    as [Hso Hsf].
  rewrite Hso in Hbo. rewrite Hsf in Hbf. simpl in Hbo, Hbf.
  injection Hbf as Hbf.
  exists msAddr, totalValue, plan, outs, change.
  repeat split; try assumption; [|congruence].
  rewrite Hbo. destruct change as [o|].
  - apply add_output_Ok in Htb3 as [-> _]. now rewrite Houts.
  - injection Htb3 as <-. now rewrite Houts, app_nil_r.
Qed.

Lemma buildUnsignedTx_Ok (bf : Blockfrost) (multisigAddress : string)
    (paymentScriptHex : string) (requiredKeyHashes : list string)
    (mode : string) (destAddress : option string)
    (requested : option (list OutputRequest)) (art : BuildArtifact) :
  buildUnsignedTx lib MIN_ADA FIXED_FEE bf multisigAddress paymentScriptHex
    requiredKeyHashes mode destAddress requested = Ok art ->
  exists body utxos changeAssets changeCoin,
    buildBody lib MIN_ADA FIXED_FEE bf multisigAddress requiredKeyHashes mode
      destAddress requested = Ok (body, utxos, changeAssets, changeCoin)
    /\ txBodyHex art = bytesToHex (TransactionBody_to_bytes lib body)
    /\ txId art = bytesToHex (hash_transaction lib body)
    /\ computedOutputs (preview art) = previewRows lib body
    /\ selectedInputs (preview art) = utxos
    /\ preview_fee (preview art) = FIXED_FEE.
Proof.
  unfold buildUnsignedTx. intros H.
  bind_inv H as r Hr. destruct r as [[[body utxos] changeAssets] changeCoin].
  bind_inv H as ns Hns. injection H as <-.
  exists body, utxos, changeAssets, changeCoin. repeat split. exact Hr.
Qed.

Lemma buildBody_floored (bf : Blockfrost) (multisigAddress : string)
    (requiredKeyHashes : list string) (mode : string)
    (destAddress : option string) (requested : option (list OutputRequest))
    (body : TransactionBody) (utxos : list Utxo) (changeAssets : JsAssets)
    (changeCoin : Z) :
  buildBody lib MIN_ADA FIXED_FEE bf multisigAddress requiredKeyHashes mode
    destAddress requested = Ok (body, utxos, changeAssets, changeCoin) ->
  Forall (floored MIN_ADA) (outputs body).
Proof.
  intros H. apply buildBody_Ok in H
    as (msAddr & totalValue & plan & outs & change & _ & _ & _ & _ & Hall
        & Hchange & -> & _).
  apply Forall_app. split.
  - clear Hchange. induction Hall as [|spec o specs outs Ho _ IH];
      constructor; [|assumption].
    now apply (specOutput_Ok lib MIN_ADA spec o).
  - apply changeOutput_Ok in Hchange. destruct change as [o|]; constructor;
      [apply Hchange | constructor].
Qed.

Lemma previewRow_assets (o : TransactionOutput) :
  row_assets (previewRow lib o) <> [] -> multiasset (out_amount o) <> None.
Proof. unfold previewRow. simpl. destruct (multiasset (out_amount o)); congruence. Qed.

End Builder_outcome.

(** C8. Every output of a successfully built transaction, the change
    output included, that carries a multi-asset holds at least [MIN_ADA]
    lovelace; so does every row of the preview that lists assets. *)
Theorem token_outputs_hold_min_ada (lib : CSLib) (MIN_ADA FIXED_FEE : Z)
    (bf : Blockfrost) (multisigAddress paymentScriptHex : string)
    (requiredKeyHashes : list string) (mode : string)
    (destAddress : option string) (requested : option (list OutputRequest))
    (art : BuildArtifact) :
  buildUnsignedTx lib MIN_ADA FIXED_FEE bf multisigAddress paymentScriptHex
    requiredKeyHashes mode destAddress requested = Ok art ->
  exists body,
    txBodyHex art = bytesToHex (TransactionBody_to_bytes lib body)
    /\ (forall o, o ∈ outputs body ->
          multiasset (out_amount o) <> None ->
          (MIN_ADA <= coin (out_amount o))%Z)
    /\ (forall row, row ∈ computedOutputs (preview art) ->
          row_assets row <> [] -> (MIN_ADA <= row_lovelace row)%Z).
Proof.
  intros H. apply buildUnsignedTx_Ok in H
    as (body & utxos & changeAssets & changeCoin & Hbody & Hhex & _ & Hrows & _).
  apply buildBody_floored in Hbody.
  exists body. split; [exact Hhex|]. split.
  - intros o Ho. exact (proj1 (Forall_forall _ _) Hbody o Ho).
  - rewrite Hrows. unfold previewRows. intros row Hrow Hassets.
    change (map (previewRow lib) (outputs body))
      with (previewRow lib <$> outputs body) in Hrow.
    apply list_elem_of_fmap in Hrow as (o & -> & Ho).
    apply previewRow_assets in Hassets.
    exact (proj1 (Forall_forall _ _) Hbody o Ho Hassets).
Qed.

(** Scenario 2 of the specification: a sweep of
    [(coin = 5_000_000, assets = {P: {N: 7}})]. *)
Lemma token_outputs_hold_min_ada_witness :
  exists art,
    buildUnsignedTx Sample.lib 2000000 1000000
      (Sample.chain [Sample.utxoSevenTokens]) "addr_ms" "5c" [Sample.hashA]
      "sendAll" (Some "addr_d") None = Ok art
    /\ computedOutputs (preview art)
       = [mkPreviewRow "addr_d" 2000000 [mkAmount Sample.token 7];
          mkPreviewRow "addr_d" 2000000 []]
    /\ (forall row, row ∈ computedOutputs (preview art) ->
          row_assets row <> [] -> (2000000 <= row_lovelace row)%Z).
Proof.
  destruct (buildUnsignedTx Sample.lib 2000000 1000000
              (Sample.chain [Sample.utxoSevenTokens]) "addr_ms" "5c"
              [Sample.hashA] "sendAll" (Some "addr_d") None)
    as [art|e] eqn:Hbuild; [|vm_compute in Hbuild; discriminate Hbuild].
  exists art. split; [reflexivity|]. split.
  - vm_compute in Hbuild. injection Hbuild as <-. reflexivity.
  - destruct (token_outputs_hold_min_ada _ _ _ _ _ _ _ _ _ _ art Hbuild)
      as (body & _ & _ & Hrows).
    exact Hrows.
Defined.

(** C1 fails on the code: explicit outputs may name an asset that no
    input carries. [jsAssetsSub] ("returns a - b, throws if negative")
    only visits the assets of the inputs, so the build succeeds and the
    transaction pays out 6 tokens that come from nowhere. *)
Theorem build_pays_tokens_the_inputs_lack :
  exists body changeAssets changeCoin,
    buildBody Sample.lib 2000000 1000000 (Sample.chain [Sample.utxoCoinOnly])
      "addr_ms" [Sample.hashA] "explicit" None
      (Some [Sample.requestTokens 1500000 6])
    = Ok (body, [Sample.utxoCoinOnly], changeAssets, changeCoin)
    /\ inputQty (hexToBytes Sample.policy) (hexToBytes "4e") [Sample.utxoCoinOnly]
       = 0%Z
    /\ outputQty (hexToBytes Sample.policy) (hexToBytes "4e") body = 6%Z
    /\ ~ conserved [Sample.utxoCoinOnly] body.
Proof.
  destruct (buildBody Sample.lib 2000000 1000000
              (Sample.chain [Sample.utxoCoinOnly]) "addr_ms" [Sample.hashA]
              "explicit" None (Some [Sample.requestTokens 1500000 6]))
    as [[[[body utxos] changeAssets] changeCoin]|e] eqn:Hbuild;
    [|vm_compute in Hbuild; discriminate Hbuild].
  vm_compute in Hbuild. injection Hbuild as <- <- <- <-.
  eexists _, _, _. split; [reflexivity|].
  assert (Hin : inputQty (hexToBytes Sample.policy) (hexToBytes "4e")
                  [Sample.utxoCoinOnly] = 0%Z) by (vm_compute; reflexivity).
  split; [exact Hin|].
  match goal with |- outputQty ?p ?n ?b = _ /\ _ =>
    assert (Hout : outputQty p n b = 6%Z) by (vm_compute; reflexivity)
  end.
  split; [exact Hout|].
  intros [_ Hassets].
  specialize (Hassets (hexToBytes Sample.policy) (hexToBytes "4e")).
  rewrite Hin, Hout in Hassets. discriminate Hassets.
Qed.

(** ** Insufficient tokens *)

Lemma JsMap_get_In {V} (k : string) (v : V) (m : JsMap.t V) :
  JsMap.get k m = Some v -> (k, v) ∈ m.
Proof.
  induction m as [|[k' v'] m IH]; simpl; [discriminate|].
  destruct (String.eqb_spec k k') as [->|_].
  - intros [= ->]. apply elem_of_cons. now left.
  - intros H. apply elem_of_cons. right. now apply IH.
Qed.

Section jsAssetsSub_facts.
Context (innerB : JsMap.t Z).

Lemma subInner_throws_only (innerA : list (string * Z)) :
  forall res e,
    foldM (subInner innerB) res innerA = Throw e -> e = Error insufficient_tokens.
Proof.
  induction innerA as [|[nm qa] innerA IH]; intros res e; simpl; [discriminate|].
  destruct (_ <? 0)%Z; simpl; [congruence|].
  destruct (0 <? _)%Z; simpl; apply IH.
Qed.

Lemma subInner_throws (innerA : list (string * Z)) (nm : string) (qa : Z) :
  (nm, qa) ∈ innerA ->
  (qa < default 0%Z (JsMap.get nm innerB))%Z ->
  forall res, foldM (subInner innerB) res innerA = Throw (Error insufficient_tokens).
Proof.
  intros Hin Hlt. induction innerA as [|[nm' qa'] innerA IH]; intros res.
  - now apply elem_of_nil in Hin.
  - simpl. destruct (Z.ltb_spec (qa' - default 0%Z (JsMap.get nm' innerB)) 0);
      simpl; [reflexivity|].
    apply elem_of_cons in Hin as [[= -> ->] | Hin]; [lia|].
    destruct (0 <? _)%Z; simpl; now apply IH.
Qed.

End jsAssetsSub_facts.

Lemma jsAssetsSub_from_throws (a b : JsAssets) (pid : string)
    (innerA : JsMap.t Z) (nm : string) (qa : Z) :
  (pid, innerA) ∈ a ->
  (nm, qa) ∈ innerA ->
  (qa < default 0%Z (JsMap.get nm (default JsMap.empty (JsMap.get pid b))))%Z ->
  forall out,
    foldM (fun out '(pid, innerA) =>
             let innerB := default JsMap.empty (JsMap.get pid b) in
             resInner ← foldM (subInner innerB) None (JsMap.entries innerA);
             Ok (match resInner with
                 | Some r => JsMap.set pid r out
                 | None => out
                 end)) out a
    = Throw (Error insufficient_tokens).
Proof.
  intros Hpid Hnm Hlt. induction a as [|[pid' innerA'] a IH]; intros out.
  - now apply elem_of_nil in Hpid.
  - cbn [foldM].
    destruct (foldM (subInner (default JsMap.empty (JsMap.get pid' b))) None
                (JsMap.entries innerA')) as [res|e] eqn:Hinner.
    + simpl. apply elem_of_cons in Hpid as [[= <- <-] | Hpid]; [|now apply IH].
      unfold JsMap.entries in Hinner.
      rewrite (subInner_throws _ innerA nm qa Hnm Hlt) in Hinner. discriminate.
    + simpl. apply subInner_throws_only in Hinner. now subst e.
Qed.

(** [jsAssetsSub] throws when [b] asks, for an asset that [a] has, more
    than [a] has of it. *)
Lemma jsAssetsSub_throws (a b : JsAssets) (p n : string) (qa : Z) :
  assetsQty p n a = Some qa ->
  (qa < default 0%Z (assetsQty p n b))%Z ->
  jsAssetsSub a b = Throw (Error insufficient_tokens).
Proof.
  unfold assetsQty. intros Ha Hlt.
  destruct (JsMap.get p a) as [innerA|] eqn:Hp; [|discriminate].
  unfold jsAssetsSub.
  apply (jsAssetsSub_from_throws a b p innerA n qa).
  - now apply JsMap_get_In.
  - now apply JsMap_get_In.
  - destruct (JsMap.get p b); simpl in *; [assumption | lia].
Qed.

(** The failure in terms of the totals the builder keeps. *)
Lemma explicit_over_demand_throws (lib : CSLib) (MIN_ADA FIXED_FEE : Z)
    (bf : Blockfrost) (multisigAddress paymentScriptHex : string)
    (requiredKeyHashes : list string) (destAddress : option string)
    (requested : option (list OutputRequest))
    (protocol : ProtocolParams) (msAddr : list byte) (utxos : list Utxo)
    (totalValue : Value) (plan : OutPlan) (p n : string) (carried : Z) :
  protocolParams bf = Ok protocol ->
  Address_from_bech32 lib multisigAddress = Some msAddr ->
  utxosByAddress bf multisigAddress = Ok utxos ->
  sumInputs utxos = Ok totalValue ->
  planOutputs MIN_ADA "explicit" destAddress requested (valueToJs totalValue)
  = Ok plan ->
  assetsQty p n (js_assets (valueToJs totalValue)) = Some carried ->
  (carried < default 0%Z (assetsQty p n (outAssets plan)))%Z ->
  buildUnsignedTx lib MIN_ADA FIXED_FEE bf multisigAddress paymentScriptHex
    requiredKeyHashes "explicit" destAddress requested
  = Throw (Error (if bigGtEq (js_coin (valueToJs totalValue))
                       (bigAdd (outCoin plan) FIXED_FEE)
                  then insufficient_tokens else insufficient_ada)).
Proof.
  intros Hprotocol Haddr Hutxos Hsum Hplan Hcarried Hlt.
  unfold buildUnsignedTx, buildBody.
  rewrite Hprotocol, Ok_bind, Haddr. cbn [csl]. rewrite Ok_bind.
  rewrite Hutxos, Ok_bind, Hsum, Ok_bind, Hplan, Ok_bind.
  unfold computeChange.
  destruct (bigGtEq (js_coin (valueToJs totalValue))
              (bigAdd (outCoin plan) FIXED_FEE)); cbn [negb];
    [|now rewrite !Throw_bind].
  rewrite (jsAssetsSub_throws _ _ p n carried Hcarried Hlt).
  now rewrite !Throw_bind.
Qed.



(** ** Totals of quantities *)

Lemma addAll_app (acc : option Z) (l1 l2 : list Z) :
  addAll acc (l1 ++ l2) = addAll (addAll acc l1) l2.
Proof. unfold addAll. apply foldl_app. Qed.

Lemma addAll_cons (acc : option Z) (q : Z) (l : list Z) :
  addAll acc (q :: l) = Some (default 0 acc + q + sumZ l)%Z.
Proof.
  revert acc q. induction l as [|q' l IH]; intros acc q.
  - destruct acc; simpl; f_equal; lia.
  - change (addAll acc (q :: q' :: l)) with (addAll (Some (optAdd acc q)) (q' :: l)).
    rewrite IH. destruct acc; simpl; f_equal; lia.
Qed.

Lemma addAll_total (l : list Z) : addAll None l = total l.
Proof. destruct l as [|q l]; [reflexivity|]. rewrite addAll_cons. simpl. f_equal. Qed.

Lemma addAll_option_list (acc : option Z) (l : list Z) :
  addAll acc (option_list (total l)) = addAll acc l.
Proof.
  destruct l as [|q l]; [reflexivity|].
  simpl total. simpl option_list. rewrite !addAll_cons. simpl. f_equal. lia.
Qed.

Section pick_facts.
Context {K : Type} `{EqDecision K}.

Lemma pick_app (k : K) (l1 l2 : list (K * Z)) :
  pick k (l1 ++ l2) = pick k l1 ++ pick k l2.
Proof. unfold pick. now rewrite List.filter_app, map_app. Qed.

Lemma pick_cons (k : K) (e : K * Z) (l : list (K * Z)) :
  pick k (e :: l) = if bool_decide (fst e = k) then snd e :: pick k l else pick k l.
Proof. unfold pick. simpl. now destruct (bool_decide (fst e = k)). Qed.

Lemma pick_absent (k : K) (l : list (K * Z)) :
  k ∉ map fst l -> pick k l = [].
Proof.
  induction l as [|[k' q] l IH]; intros Hk; [reflexivity|].
  simpl in Hk. rewrite not_elem_of_cons in Hk. destruct Hk as [Hne Hk].
  rewrite pick_cons. simpl. rewrite bool_decide_false by congruence. auto.
Qed.

Lemma pick_present (k : K) (q : Z) (l : list (K * Z)) :
  NoDup (map fst l) -> (k, q) ∈ l -> pick k l = [q].
Proof.
  induction l as [|[k' q'] l IH]; intros Hnd Hin.
  - now apply elem_of_nil in Hin.
  - simpl in Hnd. apply NoDup_cons in Hnd as [Hk' Hnd].
    rewrite pick_cons. simpl.
    apply elem_of_cons in Hin as [[= -> ->] | Hin].
    + rewrite bool_decide_true by reflexivity. now rewrite pick_absent.
    + rewrite bool_decide_false; [now apply IH|].
      intros ->. apply Hk'.
      change (map fst l) with (fst <$> l). apply list_elem_of_fmap.
      now exists (k, q).
Qed.

End pick_facts.

(** ** Quantities in JavaScript maps *)

Lemma JsMap_get_set {V} (k k' : string) (v : V) (m : JsMap.t V) :
  JsMap.get k' (JsMap.set k v m)
  = if String.eqb k' k then Some v else JsMap.get k' m.
Proof.
  induction m as [|[k0 v0] m IH]; simpl.
  - reflexivity.
  - destruct (String.eqb_spec k k0) as [->|Hne]; simpl.
    + destruct (String.eqb_spec k' k0); reflexivity.
    + rewrite IH. destruct (String.eqb_spec k' k0) as [->|];
        destruct (String.eqb_spec k0 k); congruence.
Qed.

Lemma JsMap_NoDup_set {V} (k : string) (v : V) (m : JsMap.t V) :
  NoDup (JsMap.keys m) -> NoDup (JsMap.keys (JsMap.set k v m)).
Proof.
  unfold JsMap.keys. induction m as [|[k0 v0] m IH]; simpl; intros Hnd.
  - apply NoDup_singleton.
  - apply NoDup_cons in Hnd as [Hk0 Hnd].
    destruct (String.eqb_spec k k0) as [->|Hne]; simpl.
    + now apply NoDup_cons.
    + apply NoDup_cons. split; [|now apply IH].
      intros Hin. apply (JsMap_keys_set k v m k0) in Hin as [->|Hin]; auto.
Qed.

Lemma JsMap_get_elem_of {V} (k : string) (v : V) (m : JsMap.t V) :
  NoDup (JsMap.keys m) -> (k, v) ∈ m -> JsMap.get k m = Some v.
Proof.
  unfold JsMap.keys. induction m as [|[k0 v0] m IH]; simpl; intros Hnd Hin.
  - now apply elem_of_nil in Hin.
  - apply NoDup_cons in Hnd as [Hk0 Hnd].
    apply elem_of_cons in Hin as [[= -> ->] | Hin].
    + now rewrite String.eqb_refl.
    + destruct (String.eqb_spec k k0) as [->|_]; [|now apply IH].
      exfalso. apply Hk0. change (map fst m) with (fst <$> m).
      apply list_elem_of_fmap. now exists (k0, v).
Qed.

Lemma JsMap_get_None {V} (k : string) (m : JsMap.t V) :
  JsMap.get k m = None -> k ∉ JsMap.keys m.
Proof.
  unfold JsMap.keys. induction m as [|[k0 v0] m IH]; simpl; intros Hget.
  - apply not_elem_of_nil.
  - destruct (String.eqb_spec k k0) as [->|Hne]; [discriminate|].
    apply not_elem_of_cons. auto.
Qed.

Lemma jsAddQty_get (m : JsMap.t Z) (nm n : string) (q : Z) :
  JsMap.get n (jsAddQty m nm q)
  = if String.eqb n nm then Some (optAdd (JsMap.get nm m) q) else JsMap.get n m.
Proof.
  unfold jsAddQty. rewrite JsMap_get_set. unfold optAdd, bigAdd.
  now destruct (JsMap.get nm m).
Qed.

Lemma jsAddQty_NoDup (m : JsMap.t Z) (nm : string) (q : Z) :
  NoDup (JsMap.keys m) -> NoDup (JsMap.keys (jsAddQty m nm q)).
Proof. apply JsMap_NoDup_set. Qed.

(** The inner loops of [valueToJs] and [jsAssetsAdd]. *)
Lemma addQty_loop_get (inner : list (string * Z)) (n : string) :
  forall d,
    JsMap.get n (foldl (fun d '(nm, q) => jsAddQty d nm q) d inner)
    = addAll (JsMap.get n d) (pick n inner).
Proof.
  induction inner as [|[nm q] inner IH]; intros d; [reflexivity|].
  cbn [foldl]. rewrite IH, jsAddQty_get, pick_cons. simpl.
  destruct (String.eqb_spec n nm) as [->|Hne].
  - now rewrite bool_decide_true.
  - rewrite bool_decide_false by congruence. reflexivity.
Qed.

Lemma addQty_loop_NoDup (inner : list (string * Z)) :
  forall d, NoDup (JsMap.keys d) ->
            NoDup (JsMap.keys (foldl (fun d '(nm, q) => jsAddQty d nm q) d inner)).
Proof.
  induction inner as [|[nm q] inner IH]; intros d Hd; [assumption|].
  cbn [foldl]. apply IH. now apply jsAddQty_NoDup.
Qed.

Lemma assetsQty_set (p pid n : string) (inner : JsMap.t Z) (m : JsAssets) :
  assetsQty p n (JsMap.set pid inner m)
  = if String.eqb p pid then JsMap.get n inner else assetsQty p n m.
Proof.
  unfold assetsQty. rewrite JsMap_get_set. now destruct (String.eqb p pid).
Qed.

Lemma pick_flatten_cons {K1 K2 : Type} `{EqDecision K1} `{EqDecision K2}
    (k1 pid : K1) (k2 : K2) (inner : list (K2 * Z))
    (m : list (K1 * list (K2 * Z))) :
  pick (k1, k2) (flatten ((pid, inner) :: m))
  = (if bool_decide (pid = k1) then pick k2 inner else [])
    ++ pick (k1, k2) (flatten m).
Proof.
  unfold flatten. cbn [flat_map]. rewrite pick_app. f_equal.
  induction inner as [|[k q] inner IH]; cbn [map].
  - now destruct (bool_decide (pid = k1)).
  - rewrite !pick_cons, IH. cbn [fst snd].
    repeat case_bool_decide; simplify_eq; reflexivity.
Qed.

(** [jsAssetsAdd(dst, add)] adds every entry of [add] to [dst]. *)
Lemma jsAssetsAdd_qty (p n : string) (add : JsAssets) :
  forall dst,
    assetsQty p n (jsAssetsAdd dst add)
    = addAll (assetsQty p n dst) (pick (p, n) (flatten add)).
Proof.
  unfold jsAssetsAdd, JsMap.entries.
  induction add as [|[pid inner] add IH]; intros dst; [reflexivity|].
  simpl foldl. rewrite IH, (pick_flatten_cons p pid n inner add), addAll_app.
  f_equal. rewrite assetsQty_set.
  destruct (String.eqb_spec p pid) as [->|Hne].
  - rewrite bool_decide_true by reflexivity.
    rewrite addQty_loop_get. unfold assetsQty.
    now destruct (JsMap.get pid dst).
  - rewrite bool_decide_false by congruence. reflexivity.
Qed.

Lemma fromSpec_loop_qty (p n : string) (l : list AmountEntry) :
  forall m,
    assetsQty p n
      (foldl (fun m a =>
                let '(pid, nm) := splitUnit (unit a) in
                let d := default JsMap.empty (JsMap.get pid m) in
                JsMap.set pid (jsAddQty d nm (quantity a)) m) m l)
    = addAll (assetsQty p n m) (pick (p, n) (keyed splitUnit l)).
Proof.
  induction l as [|a l IH]; intros m; [reflexivity|].
  cbn [foldl]. rewrite IH. unfold keyed. cbn [map]. rewrite pick_cons. cbn [fst snd].
  destruct (splitUnit (unit a)) as [pid nm] eqn:Hsplit.
  rewrite assetsQty_set, jsAddQty_get.
  destruct (String.eqb_spec p pid) as [->|Hp].
  - destruct (String.eqb_spec n nm) as [->|Hn].
    + rewrite bool_decide_true by reflexivity. unfold assetsQty.
      now destruct (JsMap.get pid m).
    + rewrite bool_decide_false by congruence. unfold assetsQty.
      now destruct (JsMap.get pid m).
  - rewrite bool_decide_false by congruence. reflexivity.
Qed.

Lemma jsAssetsFromOutputSpec_qty (p n : string) (l : list AmountEntry) :
  assetsQty p n (jsAssetsFromOutputSpec l) = total (pick (p, n) (keyed splitUnit l)).
Proof.
  unfold jsAssetsFromOutputSpec. rewrite fromSpec_loop_qty. apply addAll_total.
Qed.

Lemma JsWf_empty : JsWf JsMap.empty.
Proof. split; constructor. Qed.

Lemma JsMap_set_elem_of {V} (k : string) (v : V) (m : JsMap.t V) (e : string * V) :
  e ∈ JsMap.set k v m -> e = (k, v) \/ e ∈ m.
Proof.
  induction m as [|[k0 v0] m IH]; simpl.
  - rewrite list_elem_of_singleton. auto.
  - destruct (String.eqb_spec k k0) as [->|Hne]; rewrite !elem_of_cons.
    + tauto.
    + intros [->|He]; [tauto|]. destruct (IH He); tauto.
Qed.

Lemma JsWf_set (pid : string) (inner : JsMap.t Z) (m : JsAssets) :
  JsWf m -> NoDup (JsMap.keys inner) -> JsWf (JsMap.set pid inner m).
Proof.
  intros [Hk Hall] Hinner. split; [now apply JsMap_NoDup_set|].
  apply Forall_forall. intros e He.
  apply JsMap_set_elem_of in He as [->|He]; [assumption|].
  exact (proj1 (Forall_forall _ _) Hall e He).
Qed.

Lemma JsWf_inner (pid : string) (m : JsAssets) :
  JsWf m -> NoDup (JsMap.keys (default JsMap.empty (JsMap.get pid m))).
Proof.
  intros [_ Hall]. destruct (JsMap.get pid m) as [inner|] eqn:Hget; simpl.
  - apply JsMap_get_In in Hget.
    exact (proj1 (Forall_forall _ _) Hall _ Hget).
  - constructor.
Qed.

Lemma JsWf_fromSpec (l : list AmountEntry) : JsWf (jsAssetsFromOutputSpec l).
Proof.
  unfold jsAssetsFromOutputSpec. generalize (@JsMap.empty (JsMap.t Z)) JsWf_empty.
  induction l as [|a l IH]; intros m Hm; [assumption|].
  cbn [foldl]. apply IH. destruct (splitUnit (unit a)) as [pid nm].
  apply JsWf_set; [assumption|]. apply jsAddQty_NoDup. now apply JsWf_inner.
Qed.

Lemma pick_get (n : string) (inner : JsMap.t Z) :
  NoDup (JsMap.keys inner) -> pick n inner = option_list (JsMap.get n inner).
Proof.
  intros Hnd. destruct (JsMap.get n inner) as [q|] eqn:Hget; simpl.
  - apply pick_present; [exact Hnd | now apply JsMap_get_In].
  - apply pick_absent. now apply JsMap_get_None.
Qed.

Lemma pick_flatten_absent {K1 K2 : Type} `{EqDecision K1} `{EqDecision K2}
    (k1 : K1) (k2 : K2) (m : list (K1 * list (K2 * Z))) :
  k1 ∉ map fst m -> pick (k1, k2) (flatten m) = [].
Proof.
  induction m as [|[pid inner] m IH]; intros Hk; [reflexivity|].
  simpl in Hk. rewrite not_elem_of_cons in Hk. destruct Hk as [Hne Hk].
  rewrite pick_flatten_cons, bool_decide_false by congruence. now apply IH.
Qed.

(** A well-formed map lists each asset at most once. *)
Lemma pick_flatten_wf (p n : string) (m : JsAssets) :
  JsWf m -> pick (p, n) (flatten m) = option_list (assetsQty p n m).
Proof.
  induction m as [|[pid inner] m IH]; intros [Hk Hall]; [reflexivity|].
  unfold JsMap.keys in Hk. simpl in Hk. apply NoDup_cons in Hk as [Hpid Hk].
  apply Forall_cons in Hall as [Hinner Hall]. simpl in Hinner.
  rewrite (pick_flatten_cons p pid n inner m).
  unfold assetsQty. simpl JsMap.get.
  destruct (String.eqb_spec p pid) as [->|Hne].
  - rewrite bool_decide_true by reflexivity.
    rewrite (pick_flatten_absent pid n m Hpid), app_nil_r.
    now apply pick_get.
  - rewrite bool_decide_false by congruence. simpl.
    apply IH. now split.
Qed.

Section Plan_facts.
Context (MIN_ADA : Z).

(** The loop of explicit mode over the requested outputs. *)
Lemma explicit_loop (p n : string) (outs : list OutputRequest) :
  forall plan0,
    let plan := foldl (planStep MIN_ADA) plan0 outs in
    outCoin plan = (outCoin plan0 + sumZ (map (effectiveCoin MIN_ADA) outs))%Z
    /\ assetsQty p n (outAssets plan)
       = addAll (assetsQty p n (outAssets plan0))
           (pick (p, n)
              (keyed splitUnit (flat_map (fun o => default [] (assets o)) outs)))
    /\ outSpecs plan
       = outSpecs plan0
         ++ map (fun o => mkOutSpec (address o) (effectiveCoin MIN_ADA o)
                            (jsAssetsFromOutputSpec (default [] (assets o)))) outs.
Proof.
  induction outs as [|o outs IH]; intros plan0.
  - simpl. rewrite Z.add_0_r, app_nil_r. auto.
  - cbn [foldl]. destruct (IH (planStep MIN_ADA plan0 o)) as (Hcoin & Hqty & Hspecs).
    cbv zeta. rewrite Hcoin, Hqty, Hspecs.
    unfold planStep at 1 2 3. cbn [outCoin outAssets outSpecs].
    repeat split.
    + unfold bigAdd. simpl. lia.
    + rewrite jsAssetsAdd_qty, (pick_flatten_wf p n _ (JsWf_fromSpec _)).
      rewrite jsAssetsFromOutputSpec_qty, addAll_option_list.
      cbn [flat_map]. unfold keyed. now rewrite map_app, pick_app, addAll_app.
    + now rewrite <- app_assoc.
Qed.

Lemma explicit_plan (destAddress : option string)
    (requested : option (list OutputRequest)) (totalJS : JsValue) :
  exists plan,
    planOutputs MIN_ADA "explicit" destAddress requested totalJS = Ok plan
    /\ outCoin plan = requestedCoin MIN_ADA requested
    /\ (forall p n, assetsQty p n (outAssets plan) = demanded p n requested)
    /\ outSpecs plan
       = map (fun o => mkOutSpec (address o) (effectiveCoin MIN_ADA o)
                         (jsAssetsFromOutputSpec (default [] (assets o))))
           (default [] requested).
Proof.
  unfold planOutputs. cbn [String.eqb Ascii.eqb Bool.eqb].
  eexists. split; [reflexivity|].
  split; [|split].
  - now destruct (explicit_loop "" "" (default [] requested)
                    (mkOutPlan [] 0 JsMap.empty)) as (-> & _ & _).
  - intros p n.
    destruct (explicit_loop p n (default [] requested)
                (mkOutPlan [] 0 JsMap.empty)) as (_ & -> & _).
    apply addAll_total.
  - now destruct (explicit_loop "" "" (default [] requested)
                    (mkOutPlan [] 0 JsMap.empty)) as (_ & _ & ->).
Qed.

End Plan_facts.

(** ** Quantities in library values *)

Lemma checked_add_Ok (a b s : Z) : BigNum.checked_add a b = Ok s -> s = (a + b)%Z.
Proof.
  unfold BigNum.checked_add. destruct (_ <=? _)%Z; [|discriminate].
  now intros [= <-].
Qed.

Lemma insertQty_Ok (inner inner' : Assets) (nm : list byte) (q : Z) :
  insertQty inner nm q = Ok inner' ->
  inner' = <[nm := optAdd (inner !! nm) q]> inner.
Proof.
  unfold insertQty. intros H. bind_inv H as s Hs. injection H as <-.
  destruct (inner !! nm) as [prev|]; simpl.
  - apply checked_add_Ok in Hs. now subst s.
  - now injection Hs as <-.
Qed.

Lemma insert_loop_lookup (es : list (list byte * Z)) (n : list byte) :
  forall d d' : Assets,
    foldM (fun d '(nm, addQty) => insertQty d nm addQty) d es = Ok d' ->
    d' !! n = addAll (d !! n) (pick n es).
Proof.
  induction es as [|[nm q] es IH]; intros d d' H.
  - injection H as <-. reflexivity.
  - cbn [foldM] in H. bind_inv H as d1 Hd1.
    apply insertQty_Ok in Hd1. subst d1.
    rewrite (IH _ _ H), pick_cons. cbn [fst snd].
    destruct (decide (nm = n)) as [->|Hne].
    + now rewrite lookup_insert_eq, bool_decide_true.
    + now rewrite lookup_insert_ne, bool_decide_false.
Qed.

Lemma maQty_insert (pid p nm : list byte) (inner : Assets) (ma : MultiAsset) :
  maQty p nm (<[pid := inner]> ma)
  = if bool_decide (pid = p) then inner !! nm else maQty p nm ma.
Proof.
  unfold maQty. case_bool_decide as Hp.
  - subst. now rewrite lookup_insert_eq.
  - now rewrite lookup_insert_ne.
Qed.

Lemma maQty_default (pid nm : list byte) (ma : MultiAsset) :
  default (∅ : Assets) (ma !! pid) !! nm = maQty pid nm ma.
Proof. unfold maQty. destruct (ma !! pid); [reflexivity | apply lookup_empty]. Qed.

(** The loop of [mergeValue] over the policies of [b]. *)
Lemma merge_loop_qty (l : list (list byte * Assets)) (pid nm : list byte) :
  forall merged merged' : MultiAsset,
    foldM (fun merged '(pid, bAssets) =>
             dAssets ← mergeAssets (default ∅ (merged !! pid)) bAssets;
             Ok (<[pid := dAssets]> merged)) merged l = Ok merged' ->
    maQty pid nm merged'
    = addAll (maQty pid nm merged)
        (pick (pid, nm) (flatten (map (fun '(p, a) => (p, assetNames a)) l))).
Proof.
  induction l as [|[p a] l IH]; intros merged merged' H.
  - injection H as <-. reflexivity.
  - cbn [foldM] in H. bind_inv H as m1 Hm1. bind_inv Hm1 as dAssets Hd.
    injection Hm1 as <-. cbn [map].
    rewrite (IH _ _ H), (pick_flatten_cons pid p nm), addAll_app. f_equal.
    rewrite maQty_insert. unfold mergeAssets in Hd.
    apply (insert_loop_lookup _ nm) in Hd. rewrite maQty_default in Hd.
    case_bool_decide as Hp; [now subst | reflexivity].
Qed.

Lemma pick_flatten_present {K1 K2 : Type} `{EqDecision K1} `{EqDecision K2}
    (k1 : K1) (k2 : K2) (inner : list (K2 * Z)) (m : list (K1 * list (K2 * Z))) :
  NoDup (map fst m) -> (k1, inner) ∈ m ->
  pick (k1, k2) (flatten m) = pick k2 inner.
Proof.
  induction m as [|[pid inner'] m IH]; intros Hnd Hin.
  - now apply elem_of_nil in Hin.
  - simpl in Hnd. apply NoDup_cons in Hnd as [Hpid Hnd].
    rewrite pick_flatten_cons.
    apply elem_of_cons in Hin as [[= -> ->] | Hin].
    + rewrite bool_decide_true by reflexivity.
      now rewrite (pick_flatten_absent pid k2 m Hpid), app_nil_r.
    + rewrite bool_decide_false; [now apply IH|].
      intros ->. apply Hpid. change (map fst m) with (fst <$> m).
      apply list_elem_of_fmap. now exists (k1, inner).
Qed.

Lemma pick_assetNames (a : Assets) (nm : list byte) :
  pick nm (assetNames a) = option_list (a !! nm).
Proof.
  destruct (a !! nm) as [q|] eqn:Hq; simpl.
  - apply pick_present; [apply NoDup_fst_entries|].
    now apply elem_of_entries.
  - apply pick_absent. intros Hin.
    change (map fst (assetNames a)) with (fst <$> assetNames a) in Hin.
    apply list_elem_of_fmap in Hin as ([k q] & -> & Hin).
    apply elem_of_entries in Hin. simpl in Hq. congruence.
Qed.

Lemma maEntries_keys (ma : MultiAsset) :
  map fst (maEntries ma) = map fst (policies ma).
Proof.
  unfold maEntries. rewrite List.map_map. apply map_ext. now intros [p a].
Qed.

(** A multi-asset lists each asset at most once. *)
Lemma pick_maEntries (ma : MultiAsset) (pid nm : list byte) :
  pick (pid, nm) (flatten (maEntries ma)) = option_list (maQty pid nm ma).
Proof.
  unfold maQty. destruct (ma !! pid) as [a|] eqn:Ha.
  - rewrite (pick_flatten_present pid nm (assetNames a)).
    + apply pick_assetNames.
    + rewrite maEntries_keys. apply NoDup_fst_entries.
    + unfold maEntries. change (map ?f ?l) with (f <$> l).
      apply list_elem_of_fmap. exists (pid, a).
      split; [reflexivity | now apply elem_of_entries].
  - apply pick_flatten_absent. rewrite maEntries_keys. intros Hin.
    change (map fst (policies ma)) with (fst <$> policies ma) in Hin.
    apply list_elem_of_fmap in Hin as ([k a] & -> & Hin).
    apply elem_of_entries in Hin. simpl in Ha. congruence.
Qed.

Lemma mergeValue_Ok (a b v : Value) (pid nm : list byte) :
  mergeValue a b = Ok v ->
  coin v = (coin a + coin b)%Z
  /\ valueOptQty pid nm v
     = addAll (valueOptQty pid nm a) (option_list (valueOptQty pid nm b)).
Proof.
  unfold mergeValue. intros H. bind_inv H as c Hc.
  apply checked_add_Ok in Hc. subst c.
  unfold valueOptQty. destruct (multiasset b) as [mb|].
  - bind_inv H as merged Hmerged. injection H as <-. cbn [coin multiasset set_multiasset].
    split; [reflexivity|].
    apply (merge_loop_qty _ pid nm) in Hmerged.
    rewrite Hmerged. fold (maEntries mb). rewrite pick_maEntries.
    f_equal. unfold maQty. destruct (multiasset a); [reflexivity|].
    simpl. now rewrite lookup_empty.
  - injection H as <-. simpl. auto.
Qed.

Lemma hash_from_bytes_Ok (f : list byte -> Result (list byte)) (b b' : list byte) :
  (f = ScriptHash_from_bytes \/ f = AssetName_new) -> f b = Ok b' -> b' = b.
Proof.
  intros [-> | ->]; unfold ScriptHash_from_bytes, AssetName_new;
    destruct (_ : bool); congruence.
Qed.

(** The loop of [addAssetsToValue]. *)
Lemma addAsset_qty (a : AmountEntry) (ma m1 : MultiAsset) (pid nm : list byte) :
  addAsset ma a = Ok m1 ->
  maQty pid nm m1
  = if bool_decide (unitKey (unit a) = (pid, nm))
    then Some (optAdd (maQty pid nm ma) (quantity a))
    else maQty pid nm ma.
Proof.
  unfold addAsset, unitKey. intros Hm1.
  destruct (splitUnit (unit a)) as [policy nameHex]. cbn [fst snd].
  bind_inv Hm1 as p Hp. bind_inv Hm1 as an Han. bind_inv Hm1 as qty Hqty.
  bind_inv Hm1 as inner Hinner. injection Hm1 as <-.
  apply (hash_from_bytes_Ok ScriptHash_from_bytes) in Hp; [|now left].
  apply (hash_from_bytes_Ok AssetName_new) in Han; [|now right].
  apply from_str_Ok in Hqty as [-> _]. subst p an.
  apply insertQty_Ok in Hinner. subst inner.
  rewrite maQty_insert.
  destruct (decide (hexToBytes policy = pid)) as [<-|Hp].
  - rewrite (bool_decide_true (_ = hexToBytes policy)) by reflexivity.
    destruct (decide (hexToBytes nameHex = nm)) as [<-|Hn].
    + rewrite bool_decide_true by reflexivity.
      now rewrite lookup_insert_eq, maQty_default.
    + rewrite bool_decide_false by congruence.
      rewrite lookup_insert_ne by congruence. apply maQty_default.
  - rewrite (bool_decide_false (_ = pid)) by assumption.
    rewrite bool_decide_false by congruence. reflexivity.
Qed.

(** The loop of [addAssetsToValue]. *)
Lemma addAsset_loop_qty (assets : list AmountEntry) (pid nm : list byte) :
  forall ma ma' : MultiAsset,
    foldM addAsset ma assets = Ok ma' ->
    maQty pid nm ma'
    = addAll (maQty pid nm ma) (pick (pid, nm) (keyed unitKey assets)).
Proof.
  induction assets as [|a assets IH]; intros ma ma' H.
  - injection H as <-. reflexivity.
  - cbn [foldM] in H. bind_inv H as m1 Hm1.
    rewrite (IH _ _ H), (addAsset_qty a ma m1 pid nm Hm1).
    unfold keyed. cbn [map]. rewrite pick_cons. cbn [fst snd].
    now destruct (bool_decide (unitKey (unit a) = (pid, nm))).
Qed.

Lemma addAssetsToValue_Ok (c : Z) (assets : list AmountEntry) (v : Value)
    (pid nm : list byte) :
  addAssetsToValue (Value_new c) assets = Ok v ->
  coin v = c
  /\ valueOptQty pid nm v = total (pick (pid, nm) (keyed unitKey assets)).
Proof.
  unfold addAssetsToValue. destruct assets as [|a assets].
  - intros [= <-]. auto.
  - cbn [length Nat.eqb]. intros H. bind_inv H as ma Hma. injection H as <-.
    split; [reflexivity|]. unfold valueOptQty. cbn [multiasset set_multiasset].
    rewrite (addAsset_loop_qty _ pid nm _ _ Hma). cbn [multiasset Value_new default].
    unfold maQty at 1. rewrite lookup_empty. apply addAll_total.
Qed.

Lemma utxoValue_Ok (u : Utxo) (v : Value) (pid nm : list byte) :
  utxoValue u = Ok v ->
  coin v = utxoCoin u
  /\ valueOptQty pid nm v = total (pick (pid, nm) (keyed unitKey (utxoAssets u))).
Proof.
  unfold utxoValue, utxoCoin.
  destruct (List.find _ (amount u)) as [l|]; [|discriminate].
  intros H. bind_inv H as c Hc. apply from_str_Ok in Hc as [-> _].
  now apply addAssetsToValue_Ok.
Qed.

(** Step 1 for an arbitrary running total. *)
Lemma sumInputs_from (utxos : list Utxo) (pid nm : list byte) :
  forall acc totalValue,
    foldM (fun totalValue u =>
             _ ← utxoInput u; v ← utxoValue u; mergeValue totalValue v)
      acc utxos = Ok totalValue ->
    coin totalValue = (coin acc + inputCoin utxos)%Z
    /\ valueOptQty pid nm totalValue
       = addAll (valueOptQty pid nm acc)
           (pick (pid, nm) (keyed unitKey (flat_map utxoAssets utxos))).
Proof.
  induction utxos as [|u utxos IH]; intros acc totalValue H.
  - injection H as <-. unfold inputCoin. simpl. split; [lia | reflexivity].
  - cbn [foldM] in H. bind_inv H as acc1 Hacc1.
    bind_inv Hacc1 as i Hi. bind_inv Hacc1 as v Hv.
    destruct (utxoValue_Ok u v pid nm Hv) as [Hvc Hvq].
    destruct (mergeValue_Ok acc v acc1 pid nm Hacc1) as [Hmc Hmq].
    destruct (IH _ _ H) as [Hc Hq].
    split.
    + rewrite Hc, Hmc, Hvc. unfold inputCoin. simpl. lia.
    + rewrite Hq, Hmq, Hvq, addAll_option_list.
      cbn [flat_map]. unfold keyed. now rewrite map_app, pick_app, addAll_app.
Qed.

(** The sum of the inputs: their coin, and of every asset what the
    inputs carry. *)
Lemma sumInputs_Ok (utxos : list Utxo) (totalValue : Value) (pid nm : list byte) :
  sumInputs utxos = Ok totalValue ->
  coin totalValue = inputCoin utxos
  /\ valueOptQty pid nm totalValue = carried pid nm utxos.
Proof.
  unfold sumInputs. intros H.
  destruct (sumInputs_from utxos pid nm _ _ H) as [Hc Hq]. split.
  - rewrite Hc. simpl. lia.
  - rewrite Hq. apply addAll_total.
Qed.

Lemma pick_map_inj {K K' : Type} `{EqDecision K} `{EqDecision K'}
    (f : K -> K') (k : K) (es : list (K * Z)) :
  Inj (=) (=) f ->
  pick (f k) (map (fun e => (f (fst e), snd e)) es) = pick k es.
Proof.
  intros Hinj. induction es as [|[k0 q] es IH]; [reflexivity|].
  cbn [map]. rewrite !pick_cons, IH. cbn [fst snd].
  destruct (decide (k0 = k)) as [->|Hne].
  - now rewrite !bool_decide_true.
  - rewrite !bool_decide_false; [reflexivity | assumption |].
    intros Heq. now apply Hinj in Heq.
Qed.

(** The entries of a multi-asset under the hex of their keys. *)
Lemma valueToJs_loop (l : list (list byte * Assets)) :
  forall out,
    foldl (fun out '(pid, assets) =>
             let pidHex := bytesToHex pid in
             let m := default JsMap.empty (JsMap.get pidHex out) in
             JsMap.set pidHex
               (foldl (fun m '(nm, qty) => jsAddQty m (bytesToHex nm) qty)
                  m (assetNames assets))
               out) out l
    = jsAssetsAdd out
        (map (fun '(pid, a) =>
                (bytesToHex pid,
                 map (fun '(nm, q) => (bytesToHex nm, q)) (assetNames a))) l).
Proof.
  unfold jsAssetsAdd, JsMap.entries.
  induction l as [|[pid a] l IH]; intros out; [reflexivity|].
  cbn [foldl map]. rewrite IH. f_equal. f_equal.
  generalize (default JsMap.empty (JsMap.get (bytesToHex pid) out)).
  induction (assetNames a) as [|[nm q] es IHes]; intros d; [reflexivity|].
  cbn [foldl map]. apply IHes.
Qed.

Lemma flatten_hex (l : list (list byte * list (list byte * Z))) :
  flatten (map (fun '(pid, inner) =>
                  (bytesToHex pid, map (fun '(nm, q) => (bytesToHex nm, q)) inner)) l)
  = map (fun e => ((bytesToHex (fst (fst e)), bytesToHex (snd (fst e))), snd e))
      (flatten l).
Proof.
  unfold flatten. induction l as [|[pid inner] l IH]; [reflexivity|].
  cbn [map flat_map]. rewrite IH, map_app. f_equal.
  rewrite !List.map_map. apply map_ext. now intros [nm q].
Qed.

Lemma hex_pair_inj :
  Inj (=) (=) (fun k : list byte * list byte => (bytesToHex (fst k), bytesToHex (snd k))).
Proof.
  intros [a b] [a' b'] [= Ha Hb].
  apply bytesToHex_inj in Ha, Hb. now subst.
Qed.

(** [valueToJs]: the coin, and every asset under the hex of its policy id
    and of its name. *)
Lemma valueToJs_qty (v : Value) (pid nm : list byte) :
  js_coin (valueToJs v) = coin v
  /\ assetsQty (bytesToHex pid) (bytesToHex nm) (js_assets (valueToJs v))
     = valueOptQty pid nm v.
Proof.
  unfold valueToJs, valueOptQty. destruct (multiasset v) as [ma|]; [|auto].
  cbn [js_coin js_assets]. split; [reflexivity|].
  rewrite valueToJs_loop, jsAssetsAdd_qty.
  assert (Hentries :
    map (fun '(pid, a) =>
           (bytesToHex pid, map (fun '(nm, q) => (bytesToHex nm, q)) (assetNames a)))
        (policies ma)
    = map (fun '(pid, inner) =>
             (bytesToHex pid, map (fun '(nm, q) => (bytesToHex nm, q)) inner))
        (maEntries ma)).
  { unfold maEntries. rewrite List.map_map. apply map_ext. now intros [p a]. }
  rewrite Hentries, flatten_hex.
  rewrite (pick_map_inj (fun k => (bytesToHex (fst k), bytesToHex (snd k)))
             (pid, nm) _ hex_pair_inj).
  rewrite pick_maEntries.
  change (assetsQty (bytesToHex pid) (bytesToHex nm) JsMap.empty) with (@None Z).
  now destruct (maQty pid nm ma).
Qed.


(** C7, as the code has it. In explicit mode, once the inputs are read and
    summed: the requested entries are counted by the text of their unit,
    lower-cased and cut after its 56th character. When the entries whose
    unit is, so read, the hex of the policy id and the hex of the asset
    name of an asset that the inputs carry ask in total for more than the
    inputs carry, no artifact is produced; the build fails with
    "insufficient tokens" when the coin of the inputs covers the requested
    outputs and the fee, and with "insufficient ADA" when it does not. *)
Theorem explicit_over_demand_fails (lib : CSLib) (MIN_ADA FIXED_FEE : Z)
    (bf : Blockfrost) (multisigAddress paymentScriptHex : string)
    (requiredKeyHashes : list string) (destAddress : option string)
    (requested : option (list OutputRequest))
    (protocol : ProtocolParams) (msAddr : list byte) (utxos : list Utxo)
    (totalValue : Value) (pid nm : list byte) (has asks : Z) :
  protocolParams bf = Ok protocol ->
  Address_from_bech32 lib multisigAddress = Some msAddr ->
  utxosByAddress bf multisigAddress = Ok utxos ->
  sumInputs utxos = Ok totalValue ->
  carried pid nm utxos = Some has ->
  demanded (bytesToHex pid) (bytesToHex nm) requested = Some asks ->
  (has < asks)%Z ->
  buildUnsignedTx lib MIN_ADA FIXED_FEE bf multisigAddress paymentScriptHex
    requiredKeyHashes "explicit" destAddress requested
  = Throw (Error (if (requestedCoin MIN_ADA requested + FIXED_FEE
                        <=? inputCoin utxos)%Z
                  then insufficient_tokens else insufficient_ada)).
Proof.
  intros Hprotocol Haddr Hutxos Hsum Hhas Hasks Hlt.
  destruct (explicit_plan MIN_ADA destAddress requested (valueToJs totalValue))
    as (plan & Hplan & Hcoin & Hqty & _).
  destruct (sumInputs_Ok utxos totalValue pid nm Hsum) as [Hc Hq].
  destruct (valueToJs_qty totalValue pid nm) as [Hjc Hjq].
  rewrite (explicit_over_demand_throws lib MIN_ADA FIXED_FEE bf multisigAddress
             paymentScriptHex requiredKeyHashes destAddress requested protocol
             msAddr utxos totalValue plan (bytesToHex pid) (bytesToHex nm) has
             Hprotocol Haddr Hutxos Hsum Hplan).
  - unfold bigGtEq, bigAdd. now rewrite Hjc, Hc, Hcoin.
  - now rewrite Hjq, Hq.
  - now rewrite Hqty, Hasks.
Qed.

(** Scenario 3 of the specification: the inputs carry 5 tokens, the
    requested output asks for 6. *)
Lemma explicit_over_demand_fails_witness :
  buildUnsignedTx Sample.lib 2000000 1000000
    (Sample.chain [Sample.utxoFiveTokens]) "addr_ms" "5c" [Sample.hashA]
    "explicit" None (Some [Sample.requestTokens 1500000 6])
  = Throw (Error insufficient_tokens).
Proof.
  destruct (sumInputs [Sample.utxoFiveTokens]) as [totalValue|e] eqn:Hsum;
    [|vm_compute in Hsum; discriminate Hsum].
  apply (explicit_over_demand_fails Sample.lib 2000000 1000000
           (Sample.chain [Sample.utxoFiveTokens]) "addr_ms" "5c"
           [Sample.hashA] None (Some [Sample.requestTokens 1500000 6])
           Sample.params (list_byte_of_string "addr_ms")
           [Sample.utxoFiveTokens] totalValue
           (hexToBytes Sample.policy) (hexToBytes "4e") 5 6);
    try reflexivity.
  exact Hsum.
Defined.

(** C7 as stated fails: when the inputs lack both tokens and coin, the
    build fails with "insufficient ADA", not with "insufficient tokens". *)
Lemma over_demand_with_little_coin_is_insufficient_ada :
  buildUnsignedTx Sample.lib 2000000 1000000
    (Sample.chain [Sample.utxoPoor]) "addr_ms" "5c" [Sample.hashA]
    "explicit" None (Some [Sample.requestTokens 1500000 6])
  = Throw (Error insufficient_ada)
  /\ carried (hexToBytes Sample.policy) (hexToBytes "4e") [Sample.utxoPoor]
     = Some 5%Z
  /\ demanded Sample.policy "4e" (Some [Sample.requestTokens 1500000 6])
     = Some 6%Z
  /\ Error insufficient_ada <> Error insufficient_tokens.
Proof. vm_compute. repeat split. discriminate. Qed.

(** The comparison goes by the text of the unit. Asked for 6 of the unit
    written [P ++ "4e0"], which is not the text under which the inputs
    list their 5 of [P.4e] but which the library reads as that asset, the
    build succeeds: it pays 6 to the requested address and 5 as change. *)
Example odd_unit_is_not_compared :
  let pid := hexToBytes Sample.policy in
  let nm := hexToBytes "4e" in
  let requested :=
    Some [mkOutputRequest "addr_x" (Some 1500000%Z)
            (Some [mkAmount (Sample.token +:+ "0") 6])] in
  exists body utxos changeAssets changeCoin,
    buildBody Sample.lib 2000000 1000000 (Sample.chain [Sample.utxoFiveTokens])
      "addr_ms" [Sample.hashA] "explicit" None requested
    = Ok (body, utxos, changeAssets, changeCoin)
    /\ inputQty pid nm utxos = 5%Z
    /\ outputQty pid nm body = 11%Z
    /\ demanded (bytesToHex pid) (bytesToHex nm) requested = None.
Proof.
  do 4 eexists. split; [vm_compute; reflexivity|].
  vm_compute. repeat split.
Qed.

(** ** Conservation of the coin *)

Section Coin_conservation.
Context (lib : CSLib) (MIN_ADA FIXED_FEE : Z).

Lemma effectiveCoin_floored (o : OutputRequest) :
  specFloored MIN_ADA
    (mkOutSpec (address o) (effectiveCoin MIN_ADA o)
       (jsAssetsFromOutputSpec (default [] (assets o)))).
Proof.
  unfold specFloored, effectiveCoin, bigGtEq. cbn [assetsMap spec_coin].
  intros Hempty. rewrite Hempty.
  destruct (Z.leb_spec MIN_ADA (default 0%Z (lovelace o))); lia.
Qed.

Lemma planOutputs_Ok (mode : string) (destAddress : option string)
    (requested : option (list OutputRequest)) (totalJS : JsValue) (plan : OutPlan) :
  planOutputs MIN_ADA mode destAddress requested totalJS = Ok plan ->
  outCoin plan = sumZ (map spec_coin (outSpecs plan))
  /\ Forall (specFloored MIN_ADA) (outSpecs plan).
Proof.
  unfold planOutputs. destruct (String.eqb mode "sendAll").
  - destruct (falsy destAddress); [discriminate|]. intros [= <-].
    cbn [outCoin outSpecs map sumZ foldr spec_coin]. unfold bigAdd. split; [lia|].
    constructor; [|constructor]. intros _. cbn [spec_coin]. lia.
  - destruct (String.eqb mode "explicit"); [|discriminate]. intros [= <-].
    destruct (explicit_loop MIN_ADA "" "" (default [] requested)
                (mkOutPlan [] 0 JsMap.empty)) as (Hcoin & _ & Hspecs).
    cbv zeta in Hcoin, Hspecs. rewrite Hcoin, Hspecs. cbn [outCoin outSpecs app].
    split.
    + rewrite List.map_map. rewrite Z.add_0_l. f_equal.
    + apply Forall_forall. intros spec Hspec.
      change (map ?f ?l) with (f <$> l) in Hspec.
      apply list_elem_of_fmap in Hspec as (o & -> & _).
      apply effectiveCoin_floored.
Qed.

Lemma computeChange_Ok (totalJS : JsValue) (plan : OutPlan)
    (changeAssets : JsAssets) (changeCoin : Z) :
  computeChange MIN_ADA FIXED_FEE totalJS plan = Ok (changeAssets, changeCoin) ->
  changeCoin = (js_coin totalJS - outCoin plan - FIXED_FEE)%Z
  /\ (0 <= changeCoin)%Z
  /\ (jsAssetsIsEmpty changeAssets = false -> (MIN_ADA <= changeCoin)%Z)
  /\ jsAssetsSub (js_assets totalJS) (outAssets plan) = Ok changeAssets.
Proof.
  unfold computeChange, bigGtEq, bigAdd, bigSub.
  destruct (Z.leb_spec (outCoin plan + FIXED_FEE) (js_coin totalJS)) as [Hle|];
    [|discriminate].
  cbn [negb]. intros H. bind_inv H as cA HcA.
  destruct (jsAssetsIsEmpty cA) eqn:Hempty; cbn [negb andb] in H.
  - injection H as <- <-. repeat split; try lia; try exact HcA.
    intros Hfalse. congruence.
  - destruct (Z.leb_spec MIN_ADA (js_coin totalJS - outCoin plan - FIXED_FEE));
      cbn [negb] in H; [|discriminate].
    injection H as <- <-. repeat split; try lia. exact HcA.
Qed.

Lemma spec_outputs_coin (specs : list OutSpec) (outs : list TransactionOutput) :
  Forall2 (fun spec o => specOutput lib MIN_ADA spec = Ok o) specs outs ->
  Forall (specFloored MIN_ADA) specs ->
  sumZ (map (fun o => coin (out_amount o)) outs) = sumZ (map spec_coin specs).
Proof.
  induction 1 as [|spec o specs outs Ho _ IH]; intros Hfl; [reflexivity|].
  apply Forall_cons in Hfl as [Hspec Hfl]. cbn [map sumZ foldr].
  fold (sumZ (map (fun o => coin (out_amount o)) outs)).
  fold (sumZ (map spec_coin specs)). rewrite (IH Hfl). f_equal.
  destruct (specOutput_Ok lib MIN_ADA spec o Ho) as (_ & -> & _).
  unfold specFloored in Hspec.
  destruct (jsAssetsIsEmpty (assetsMap spec)); [reflexivity|].
  specialize (Hspec eq_refl). lia.
Qed.

Lemma sumZ_app (l1 l2 : list Z) : sumZ (l1 ++ l2) = (sumZ l1 + sumZ l2)%Z.
Proof. induction l1 as [|x l1 IH]; simpl; [reflexivity | rewrite IH; lia]. Qed.

(** The coin of the inputs is the coin of the outputs, change included,
    plus the fee. *)
Lemma build_conserves_coin (bf : Blockfrost) (multisigAddress : string)
    (requiredKeyHashes : list string) (mode : string)
    (destAddress : option string) (requested : option (list OutputRequest))
    (body : TransactionBody) (utxos : list Utxo) (changeAssets : JsAssets)
    (changeCoin : Z) :
  buildBody lib MIN_ADA FIXED_FEE bf multisigAddress requiredKeyHashes mode
    destAddress requested = Ok (body, utxos, changeAssets, changeCoin) ->
  inputCoin utxos = (outputCoin body + fee body)%Z /\ fee body = FIXED_FEE.
Proof.
  intros H. apply buildBody_Ok in H
    as (msAddr & totalValue & plan & outs & change & _ & Hsum & Hplan & Hchange
        & Hall & Hout & Hbody & Hfee).
  split; [|exact Hfee].
  destruct (sumInputs_Ok utxos totalValue [] [] Hsum) as [Hc _].
  destruct (valueToJs_qty totalValue [] []) as [Hjc _].
  apply planOutputs_Ok in Hplan as [Hoc Hfl].
  apply computeChange_Ok in Hchange as (HcC & Hpos & Hmin & _).
  apply changeOutput_Ok in Hout.
  unfold outputCoin. rewrite Hbody, map_app, sumZ_app.
  rewrite (spec_outputs_coin _ _ Hall Hfl), <- Hoc, Hfee, <- Hc, <- Hjc.
  destruct change as [o|].
  - destruct Hout as (_ & Hco & _). cbn [map sumZ foldr]. rewrite Hco.
    destruct (jsAssetsIsEmpty changeAssets); [lia|].
    specialize (Hmin eq_refl). lia.
  - destruct Hout as [Hle _]. cbn [map sumZ foldr]. lia.
Qed.

End Coin_conservation.

(** ** Hex strings read back *)

Lemma hexToBytes_bytesToHex (b : list byte) : hexToBytes (bytesToHex b) = b.
Proof.
  induction b as [|x b IH]; [reflexivity|].
  rewrite bytesToHex_cons. cbn [hexToBytes].
  pose proof (Byte.to_N_bounded x) as Hx.
  rewrite !hex_value_digit
    by (try apply N.mod_upper_bound; try apply N.Div0.div_lt_upper_bound; lia).
  replace (16 * (Byte.to_N x / 16) + Byte.to_N x mod 16)%N with (Byte.to_N x)
    by (rewrite (N.div_mod (Byte.to_N x) 16) at 1; lia).
  now rewrite Byte.of_to_N, IH.
Qed.

Lemma canonical_hex (k : string) : canonical k -> bytesToHex (hexToBytes k) = k.
Proof. intros [b ->]. now rewrite hexToBytes_bytesToHex. Qed.

Lemma canonical_decode (k : string) (b : list byte) :
  canonical k -> hexToBytes k = b -> k = bytesToHex b.
Proof. intros Hk <-. symmetry. now apply canonical_hex. Qed.

(** ** Quantities of the outputs *)

Lemma valueQty_opt (pid nm : list byte) (v : Value) :
  valueQty pid nm v = default 0%Z (valueOptQty pid nm v).
Proof.
  unfold valueQty, valueOptQty, maQty.
  destruct (multiasset v) as [ma|]; [|reflexivity].
  now destruct (ma !! pid).
Qed.

(** The inner loop of [jsAssetsToValue]. *)
Lemma toValue_inner (inner : list (string * Z)) (nm : list byte) :
  forall acc assets : Assets,
    foldM (fun (assets : Assets) '(nmHex, qtyStr) =>
             nm ← AssetName_new (hexToBytes nmHex);
             q ← BigNum.from_str qtyStr;
             Ok (<[nm := q]> assets)) acc inner = Ok assets ->
    NoDup (JsMap.keys inner) ->
    Forall (fun e => canonical (fst e)) inner ->
    assets !! nm
    = match JsMap.get (bytesToHex nm) inner with
      | Some q => Some q
      | None => acc !! nm
      end.
Proof.
  induction inner as [|[k q] inner IH]; intros acc assets H Hnd Hcan.
  - injection H as <-. reflexivity.
  - cbn [foldM] in H. bind_inv H as acc1 Hacc1.
    bind_inv Hacc1 as b Hb. bind_inv Hacc1 as q' Hq'. injection Hacc1 as <-.
    apply (hash_from_bytes_Ok AssetName_new) in Hb; [|now right].
    apply from_str_Ok in Hq' as [-> _]. subst b.
    unfold JsMap.keys in Hnd. cbn [map fst] in Hnd.
    apply NoDup_cons in Hnd as [Hk Hnd].
    apply Forall_cons in Hcan as [Hck Hcan]. cbn [fst] in Hck.
    rewrite (IH _ _ H Hnd Hcan). cbn [JsMap.get].
    destruct (String.eqb_spec (bytesToHex nm) k) as [<-|Hne].
    + rewrite hexToBytes_bytesToHex, lookup_insert_eq.
      destruct (JsMap.get (bytesToHex nm) inner) as [q0|] eqn:Hget; [|reflexivity].
      exfalso. apply Hk. apply JsMap_get_In in Hget.
      change (map fst inner) with (fst <$> inner). apply list_elem_of_fmap.
      now exists (bytesToHex nm, q0).
    + rewrite lookup_insert_ne; [reflexivity|].
      intros Heq. apply Hne. symmetry. now apply canonical_decode.
Qed.

Lemma toValue_outer (m : JsAssets) (pid nm : list byte) :
  forall acc ma : MultiAsset,
    foldM (fun (ma : MultiAsset) '(pidHex, inner) =>
             pid ← ScriptHash_from_bytes (hexToBytes pidHex);
             assets ← foldM (fun (assets : Assets) '(nmHex, qtyStr) =>
                         nm ← AssetName_new (hexToBytes nmHex);
                         q ← BigNum.from_str qtyStr;
                         Ok (<[nm := q]> assets))
                       ∅ (JsMap.entries inner);
             Ok (<[pid := assets]> ma)) acc m = Ok ma ->
    JsWf m -> JsCanon m ->
    maQty pid nm ma
    = match JsMap.get (bytesToHex pid) m with
      | Some inner => JsMap.get (bytesToHex nm) inner
      | None => maQty pid nm acc
      end.
Proof.
  induction m as [|[k inner] m IH]; intros acc ma H [Hnd Hall] Hcan.
  - injection H as <-. reflexivity.
  - cbn [foldM] in H. bind_inv H as acc1 Hacc1.
    bind_inv Hacc1 as b Hb. bind_inv Hacc1 as assets Hassets.
    injection Hacc1 as <-.
    apply (hash_from_bytes_Ok ScriptHash_from_bytes) in Hb; [|now left]. subst b.
    unfold JsMap.keys in Hnd. cbn [map fst] in Hnd.
    apply NoDup_cons in Hnd as [Hk Hnd].
    apply Forall_cons in Hall as [Hinner Hall]. cbn [snd] in Hinner.
    apply Forall_cons in Hcan as [[Hck Hcinner] Hcan]. cbn [fst snd] in Hck, Hcinner.
    rewrite (IH _ _ H (conj Hnd Hall) Hcan). cbn [JsMap.get].
    unfold JsMap.entries in Hassets.
    apply (toValue_inner inner nm) in Hassets; [|assumption..].
    rewrite lookup_empty in Hassets.
    destruct (String.eqb_spec (bytesToHex pid) k) as [<-|Hne].
    + destruct (JsMap.get (bytesToHex pid) m) as [i0|] eqn:Hget.
      * exfalso. apply Hk. apply JsMap_get_In in Hget.
        change (map fst m) with (fst <$> m). apply list_elem_of_fmap.
        now exists (bytesToHex pid, i0).
      * rewrite maQty_insert, hexToBytes_bytesToHex, bool_decide_true by reflexivity.
        rewrite Hassets. now destruct (JsMap.get (bytesToHex nm) inner).
    + destruct (JsMap.get (bytesToHex pid) m); [reflexivity|].
      rewrite maQty_insert, bool_decide_false; [reflexivity|].
      intros Heq. apply Hne. symmetry. now apply canonical_decode.
Qed.

Lemma jsAssetsToValue_qty (v v' : Value) (m : JsAssets) (pid nm : list byte) :
  jsAssetsToValue v m = Ok v' -> JsWf m -> JsCanon m ->
  valueOptQty pid nm v' = assetsQty (bytesToHex pid) (bytesToHex nm) m.
Proof.
  unfold jsAssetsToValue. intros H Hwf Hcan. bind_inv H as ma Hma.
  injection H as <-. unfold valueOptQty, assetsQty. cbn [multiasset set_multiasset].
  unfold JsMap.entries in Hma.
  rewrite (toValue_outer m pid nm _ _ Hma Hwf Hcan).
  destruct (JsMap.get (bytesToHex pid) m); [reflexivity|].
  unfold maQty. now rewrite lookup_empty.
Qed.

Lemma jsAssetsIsEmpty_qty (m : JsAssets) (p n : string) :
  jsAssetsIsEmpty m = true -> assetsQty p n m = None.
Proof.
  unfold jsAssetsIsEmpty, assetsQty, JsMap.entries.
  induction m as [|[k inner] m IH]; [reflexivity|].
  cbn [forallb JsMap.get]. intros H. apply andb_true_iff in H as [Hsize H].
  destruct (String.eqb p k); [|now apply IH].
  destruct inner; [reflexivity | discriminate].
Qed.

Section Output_quantities.
Context (lib : CSLib) (MIN_ADA : Z).

Lemma tokens_value_qty (v0 v1 v2 : Value) (m : JsAssets) (pid nm : list byte) :
  (if negb (jsAssetsIsEmpty m) then jsAssetsToValue v0 m else Ok v0) = Ok v1 ->
  multiasset v0 = None ->
  (if bool_decide (multiasset v1 <> None) then bumpAdaIfTokens MIN_ADA v1
   else Ok v1) = Ok v2 ->
  JsWf m -> JsCanon m ->
  valueQty pid nm v2 = mapQty pid nm m.
Proof.
  intros H1 Hnone H2 Hwf Hcan. rewrite valueQty_opt. unfold mapQty.
  assert (Hma : multiasset v2 = multiasset v1).
  { destruct (bool_decide (multiasset v1 <> None)).
    - now apply bumpAdaIfTokens_Ok in H2 as [-> _].
    - now injection H2 as <-. }
  unfold valueOptQty at 1. rewrite Hma. fold (valueOptQty pid nm v1).
  destruct (jsAssetsIsEmpty m) eqn:Hempty; cbn [negb] in H1.
  - injection H1 as <-. unfold valueOptQty. rewrite Hnone.
    now rewrite jsAssetsIsEmpty_qty.
  - now rewrite (jsAssetsToValue_qty v0 v1 m pid nm H1 Hwf Hcan).
Qed.

Lemma specOutput_qty (spec : OutSpec) (o : TransactionOutput) (pid nm : list byte) :
  specOutput lib MIN_ADA spec = Ok o ->
  JsWf (assetsMap spec) -> JsCanon (assetsMap spec) ->
  valueQty pid nm (out_amount o) = mapQty pid nm (assetsMap spec).
Proof.
  unfold specOutput. intros H Hwf Hcan. bind_inv H as c Hc.
  bind_inv H as v1 Hv1. bind_inv H as v2 Hv2. bind_inv H as addr Haddr.
  injection H as <-. cbn [out_amount].
  exact (tokens_value_qty (Value_new c) v1 v2 (assetsMap spec) pid nm
           Hv1 eq_refl Hv2 Hwf Hcan).
Qed.

Lemma changeOutput_qty (mode : string) (destAddress : option string)
    (msAddr : list byte) (changeAssets : JsAssets) (changeCoin : Z)
    (change : option TransactionOutput) (pid nm : list byte) :
  changeOutput lib MIN_ADA mode destAddress msAddr changeAssets changeCoin
  = Ok change ->
  JsWf changeAssets -> JsCanon changeAssets ->
  sumZ (map (fun o => valueQty pid nm (out_amount o))
          (match change with Some o => [o] | None => [] end))
  = mapQty pid nm changeAssets.
Proof.
  unfold changeOutput. intros H Hwf Hcan.
  destruct ((0 <? changeCoin)%Z || negb (jsAssetsIsEmpty changeAssets)) eqn:Hc.
  - bind_inv H as c Hcc. bind_inv H as v1 Hv1. bind_inv H as v2 Hv2.
    bind_inv H as addr Haddr. injection H as <-. cbn [map sumZ foldr out_amount].
    rewrite (tokens_value_qty (Value_new c) v1 v2 changeAssets pid nm
               Hv1 eq_refl Hv2 Hwf Hcan). lia.
  - injection H as <-. apply orb_false_iff in Hc as [_ Hc].
    apply negb_false_iff in Hc. unfold mapQty.
    now rewrite jsAssetsIsEmpty_qty.
Qed.

End Output_quantities.

(** ** What [jsAssetsSub] returns *)

Lemma JsMap_get_fresh {V} (k : string) (m : JsMap.t V) :
  k ∉ JsMap.keys m -> JsMap.get k m = None.
Proof.
  intros Hk. destruct (JsMap.get k m) as [v|] eqn:Hget; [|reflexivity].
  exfalso. apply Hk. apply JsMap_get_In in Hget.
  unfold JsMap.keys. change (map fst m) with (fst <$> m).
  apply list_elem_of_fmap. now exists (k, v).
Qed.

Lemma JsMap_Forall_set {V} (P : string * V -> Prop) (k : string) (v : V)
    (m : JsMap.t V) :
  Forall P m -> P (k, v) -> Forall P (JsMap.set k v m).
Proof.
  intros Hm Hkv. apply Forall_forall. intros e He.
  apply JsMap_set_elem_of in He as [->|He]; [assumption|].
  now apply (proj1 (Forall_forall _ _) Hm).
Qed.

Section jsAssetsSub_result.
Context (innerB : JsMap.t Z).

Lemma subInner_Ok (innerA : list (string * Z)) (n : string) :
  forall res res',
    foldM (subInner innerB) res innerA = Ok res' ->
    NoDup (JsMap.keys innerA) ->
    (forall k, k ∈ JsMap.keys innerA ->
               JsMap.get k (default JsMap.empty res) = None) ->
    default 0%Z (JsMap.get n (default JsMap.empty res'))
    = match JsMap.get n innerA with
      | Some qa => (qa - default 0%Z (JsMap.get n innerB))%Z
      | None => default 0%Z (JsMap.get n (default JsMap.empty res))
      end
    /\ (forall qa, JsMap.get n innerA = Some qa ->
                   (default 0%Z (JsMap.get n innerB) <= qa)%Z).
Proof.
  induction innerA as [|[k qa] l IH]; intros res res' H Hnd Hfresh.
  - injection H as <-. split; [reflexivity | discriminate].
  - cbn [foldM] in H. bind_inv H as r1 Hr1.
    unfold JsMap.keys in Hnd. cbn [map fst] in Hnd.
    apply NoDup_cons in Hnd as [Hk Hnd].
    assert (Hkl : JsMap.get k l = None) by now apply JsMap_get_fresh.
    assert (Hkres : JsMap.get k (default JsMap.empty res) = None).
    { apply Hfresh. unfold JsMap.keys. cbn [map fst]. apply list_elem_of_here. }
    unfold subInner in Hr1.
    destruct (qa - default 0%Z (JsMap.get k innerB) <? 0)%Z eqn:Hneg;
      [discriminate|]. apply Z.ltb_ge in Hneg.
    assert (Hr1' : forall k', k' <> k ->
              JsMap.get k' (default JsMap.empty r1)
              = JsMap.get k' (default JsMap.empty res)).
    { intros k' Hne.
      destruct (0 <? qa - default 0%Z (JsMap.get k innerB))%Z;
        injection Hr1 as <-; [|reflexivity].
      cbn [from_option id]. rewrite JsMap_get_set.
      destruct (String.eqb_spec k' k); [contradiction | reflexivity]. }
    destruct (IH r1 res' H Hnd) as [Hq Hle].
    { intros k' Hk'. rewrite Hr1'.
      - apply Hfresh. unfold JsMap.keys. cbn [map fst].
        now apply list_elem_of_further.
      - intros ->. contradiction. }
    cbn [JsMap.get]. destruct (String.eqb_spec n k) as [->|Hne].
    + rewrite Hkl in Hq. split.
      * rewrite Hq.
        destruct (0 <? qa - default 0%Z (JsMap.get k innerB))%Z eqn:Hpos;
          injection Hr1 as <-.
        -- cbn [from_option id]. rewrite JsMap_get_set, String.eqb_refl. reflexivity.
        -- apply Z.ltb_ge in Hpos. rewrite Hkres. cbn [from_option id]. lia.
      * intros qa' [= <-]. lia.
    + rewrite Hr1' in Hq by assumption. split; [exact Hq | exact Hle].
Qed.

Lemma subInner_shape (P : string * Z -> Prop) (innerA : list (string * Z)) :
  (forall k q q', P (k, q) -> P (k, q')) ->
  Forall P innerA ->
  forall res res',
    foldM (subInner innerB) res innerA = Ok res' ->
    NoDup (JsMap.keys (default JsMap.empty res)) ->
    Forall P (default JsMap.empty res) ->
    NoDup (JsMap.keys (default JsMap.empty res'))
    /\ Forall P (default JsMap.empty res').
Proof.
  intros HP. induction 1 as [|[k qa] l Hk Hl IH]; intros res res' H Hnd Hres.
  - injection H as <-. now split.
  - cbn [foldM] in H. bind_inv H as r1 Hr1. unfold subInner in Hr1.
    destruct (qa - default 0%Z (JsMap.get k innerB) <? 0)%Z; [discriminate|].
    destruct (0 <? qa - default 0%Z (JsMap.get k innerB))%Z;
      injection Hr1 as <-.
    + apply (IH _ _ H); cbn [from_option id].
      * now apply JsMap_NoDup_set.
      * apply JsMap_Forall_set; [assumption|]. now apply (HP k qa).
    + now apply (IH _ _ H).
Qed.

End jsAssetsSub_result.

Lemma assetsQty_inner (p n : string) (b : JsAssets) :
  default 0%Z (JsMap.get n (default JsMap.empty (JsMap.get p b)))
  = default 0%Z (assetsQty p n b).
Proof. unfold assetsQty. now destruct (JsMap.get p b). Qed.

Lemma assetsQty_cons (p n pid : string) (inner : JsMap.t Z) (m : JsAssets) :
  assetsQty p n ((pid, inner) :: m)
  = if String.eqb p pid then JsMap.get n inner else assetsQty p n m.
Proof. unfold assetsQty. cbn [JsMap.get]. now destruct (String.eqb p pid). Qed.

Lemma jsAssetsSub_loop (b : JsAssets) (p n : string) (a : JsAssets) :
  forall out out',
    foldM (fun out '(pid, innerA) =>
             let innerB := default JsMap.empty (JsMap.get pid b) in
             resInner ← foldM (subInner innerB) None (JsMap.entries innerA);
             Ok (match resInner with
                 | Some r => JsMap.set pid r out
                 | None => out
                 end)) out a = Ok out' ->
    JsWf a ->
    (forall k, k ∈ JsMap.keys a -> JsMap.get k out = None) ->
    default 0%Z (assetsQty p n out')
    = match assetsQty p n a with
      | Some qa => (qa - default 0%Z (assetsQty p n b))%Z
      | None => default 0%Z (assetsQty p n out)
      end
    /\ (forall qa, assetsQty p n a = Some qa ->
                   (default 0%Z (assetsQty p n b) <= qa)%Z).
Proof.
  induction a as [|[pid innerA] a IH]; intros out out' H [Hnd Hall] Hfresh.
  - injection H as <-. split; [reflexivity | discriminate].
  - cbn [foldM] in H. bind_inv H as out1 Hout1. bind_inv Hout1 as res Hres.
    injection Hout1 as <-.
    unfold JsMap.keys in Hnd. cbn [map fst] in Hnd.
    apply NoDup_cons in Hnd as [Hpid Hnd].
    apply Forall_cons in Hall as [Hinner Hall]. cbn [snd] in Hinner.
    assert (Hpa : JsMap.get pid a = None) by now apply JsMap_get_fresh.
    assert (Hpout : JsMap.get pid out = None).
    { apply Hfresh. unfold JsMap.keys. cbn [map fst]. apply list_elem_of_here. }
    unfold JsMap.entries in Hres.
    destruct (subInner_Ok _ innerA n None res Hres Hinner) as [Hq Hle];
      [reflexivity|]. cbn [from_option id JsMap.empty JsMap.get] in Hq.
    rewrite assetsQty_inner in Hq.
    destruct (IH _ out' H (conj Hnd Hall)) as [Hq' Hle'].
    { intros k Hk. assert (k <> pid) by (intros ->; contradiction).
      assert (JsMap.get k out = None).
      { apply Hfresh. unfold JsMap.keys. cbn [map fst].
        now apply list_elem_of_further. }
      destruct res; [|assumption]. rewrite JsMap_get_set.
      destruct (String.eqb_spec k pid); [contradiction | assumption]. }
    assert (HNone : forall m : JsAssets,
              JsMap.get pid m = None -> assetsQty pid n m = None).
    { intros m Hm. unfold assetsQty. now rewrite Hm. }
    rewrite !assetsQty_cons.
    destruct (String.eqb_spec p pid) as [->|Hne].
    + rewrite (HNone a Hpa) in Hq', Hle'. rewrite (HNone out Hpout). split.
      * rewrite Hq'. destruct res as [r|].
        -- rewrite assetsQty_set, String.eqb_refl. cbn [from_option id] in Hq.
           rewrite Hq. now destruct (JsMap.get n innerA).
        -- rewrite (HNone out Hpout). cbn [from_option id] in Hq.
           now destruct (JsMap.get n innerA).
      * intros qa Hqa. rewrite <- assetsQty_inner. now apply Hle.
    + split; [|exact Hle'].
      rewrite Hq'. destruct (assetsQty p n a); [reflexivity|].
      destruct res; [|reflexivity]. rewrite assetsQty_set.
      destruct (String.eqb_spec p pid); [contradiction | reflexivity].
Qed.

Lemma jsAssetsSub_qty (a b out : JsAssets) (p n : string) :
  jsAssetsSub a b = Ok out -> JsWf a ->
  default 0%Z (assetsQty p n out)
  = match assetsQty p n a with
    | Some qa => (qa - default 0%Z (assetsQty p n b))%Z
    | None => 0%Z
    end
  /\ (forall qa, assetsQty p n a = Some qa ->
                 (default 0%Z (assetsQty p n b) <= qa)%Z).
Proof.
  unfold jsAssetsSub, JsMap.entries. intros H Hwf.
  apply (jsAssetsSub_loop b p n a _ _ H Hwf). reflexivity.
Qed.

Lemma jsAssetsSub_shape (a b : JsAssets) :
  JsCanon a ->
  forall out out',
    foldM (fun out '(pid, innerA) =>
             let innerB := default JsMap.empty (JsMap.get pid b) in
             resInner ← foldM (subInner innerB) None (JsMap.entries innerA);
             Ok (match resInner with
                 | Some r => JsMap.set pid r out
                 | None => out
                 end)) out a = Ok out' ->
    JsWf out -> JsCanon out -> JsWf out' /\ JsCanon out'.
Proof.
  induction 1 as [|[pid innerA] a [Hpid Hinner] Ha IH];
    intros out out' H Hwf Hcan.
  - injection H as <-. now split.
  - cbn [foldM] in H. bind_inv H as out1 Hout1. bind_inv Hout1 as res Hres.
    injection Hout1 as <-. cbn [fst snd] in Hpid, Hinner.
    unfold JsMap.entries in Hres.
    destruct (subInner_shape _ (fun e => canonical (fst e)) innerA
                (fun k q q' Hc => Hc) Hinner None res Hres)
      as [Hnd Hc]; [constructor | constructor |].
    apply (IH _ _ H); destruct res as [r|]; try assumption.
    + now apply JsWf_set.
    + apply JsMap_Forall_set; [assumption|]. now split.
Qed.

Lemma jsAssetsSub_wf (a b out : JsAssets) :
  jsAssetsSub a b = Ok out -> JsCanon a -> JsWf out /\ JsCanon out.
Proof.
  unfold jsAssetsSub, JsMap.entries. intros H Hcan.
  apply (jsAssetsSub_shape a b Hcan _ _ H); [apply JsWf_empty | constructor].
Qed.

(** ** Maps of assets keep their shape *)

Lemma addQty_loop_canon (inner : list (string * Z)) :
  Forall (fun e => canonical (fst e)) inner ->
  forall d, Forall (fun e : string * Z => canonical (fst e)) d ->
            Forall (fun e : string * Z => canonical (fst e))
              (foldl (fun d '(nm, q) => jsAddQty d nm q) d inner).
Proof.
  induction 1 as [|[nm q] inner Hnm Hinner IH]; intros d Hd; [exact Hd|].
  cbn [foldl]. apply IH. unfold jsAddQty. now apply JsMap_Forall_set.
Qed.

Lemma JsCanon_inner (pid : string) (m : JsAssets) :
  JsCanon m ->
  Forall (fun e : string * Z => canonical (fst e))
    (default JsMap.empty (JsMap.get pid m)).
Proof.
  intros Hm. destruct (JsMap.get pid m) as [inner|] eqn:Hget; [|constructor].
  apply JsMap_get_In in Hget.
  exact (proj2 (proj1 (Forall_forall _ _) Hm _ Hget)).
Qed.

Lemma JsWf_add (add : JsAssets) :
  forall dst, JsWf dst -> JsWf (jsAssetsAdd dst add).
Proof.
  unfold jsAssetsAdd, JsMap.entries.
  induction add as [|[pid inner] add IH]; intros dst Hdst; [exact Hdst|].
  cbn [foldl]. apply IH. apply JsWf_set; [assumption|].
  apply addQty_loop_NoDup. now apply JsWf_inner.
Qed.

Lemma JsCanon_add (add : JsAssets) :
  JsCanon add -> forall dst, JsCanon dst -> JsCanon (jsAssetsAdd dst add).
Proof.
  unfold jsAssetsAdd, JsMap.entries.
  induction 1 as [|[pid inner] add [Hpid Hinner] Hadd IH]; intros dst Hdst;
    [exact Hdst|].
  cbn [foldl]. apply IH. apply JsMap_Forall_set; [assumption|].
  split; [exact Hpid|]. cbn [snd].
  apply addQty_loop_canon; [exact Hinner | now apply JsCanon_inner].
Qed.

Lemma JsCanon_fromSpec (l : list AmountEntry) :
  Forall (fun a => canonical (fst (splitUnit (unit a)))
                   /\ canonical (snd (splitUnit (unit a)))) l ->
  JsCanon (jsAssetsFromOutputSpec l).
Proof.
  unfold jsAssetsFromOutputSpec.
  assert (Hgen : forall m, JsCanon m ->
            Forall (fun a => canonical (fst (splitUnit (unit a)))
                             /\ canonical (snd (splitUnit (unit a)))) l ->
            JsCanon (foldl (fun m a =>
                       let '(pid, nm) := splitUnit (unit a) in
                       let d := default JsMap.empty (JsMap.get pid m) in
                       JsMap.set pid (jsAddQty d nm (quantity a)) m) m l)).
  { induction l as [|a l IH]; intros m Hm Hl; [exact Hm|].
    apply Forall_cons in Hl as [[Hp Hn] Hl]. cbn [foldl].
    apply IH; [|exact Hl].
    destruct (splitUnit (unit a)) as [pid nm]. cbn [fst snd] in Hp, Hn.
    apply JsMap_Forall_set; [assumption|]. split; [exact Hp|]. cbn [snd].
    unfold jsAddQty. apply JsMap_Forall_set; [now apply JsCanon_inner | exact Hn]. }
  intros Hl. apply Hgen; [constructor | exact Hl].
Qed.

Lemma valueToJs_shape (v : Value) :
  JsWf (js_assets (valueToJs v)) /\ JsCanon (js_assets (valueToJs v)).
Proof.
  unfold valueToJs. destruct (multiasset v) as [ma|]; cbn [js_assets];
    [|split; [apply JsWf_empty | constructor]].
  rewrite valueToJs_loop. split.
  - apply JsWf_add, JsWf_empty.
  - apply JsCanon_add; [|constructor].
    apply Forall_forall. intros e He.
    change (map ?f ?l) with (f <$> l) in He.
    apply list_elem_of_fmap in He as ([pid a] & -> & _).
    split; [now exists pid|]. cbn [snd].
    apply Forall_forall. intros e' He'.
    change (map ?f ?l) with (f <$> l) in He'.
    apply list_elem_of_fmap in He' as ([nm q] & -> & _). now exists nm.
Qed.

(** ** Every asset the inputs carry is conserved *)

Lemma default_total (l : list Z) : default 0%Z (total l) = sumZ l.
Proof. now destruct l. Qed.

Lemma keyed_app {K : Type} (key : string -> K) (l1 l2 : list AmountEntry) :
  keyed key (l1 ++ l2) = keyed key l1 ++ keyed key l2.
Proof. unfold keyed. apply map_app. Qed.

Lemma explicit_specs_qty (p n : string) (outs : list OutputRequest) :
  sumZ (map (fun o => default 0%Z
                        (assetsQty p n
                           (jsAssetsFromOutputSpec (default [] (assets o)))))
          outs)
  = sumZ (pick (p, n)
            (keyed splitUnit (flat_map (fun o => default [] (assets o)) outs))).
Proof.
  induction outs as [|o outs IH]; [reflexivity|].
  cbn [map flat_map sumZ foldr]. fold (sumZ (map (fun o => default 0%Z
    (assetsQty p n (jsAssetsFromOutputSpec (default [] (assets o))))) outs)).
  rewrite IH, keyed_app, pick_app, sumZ_app, jsAssetsFromOutputSpec_qty.
  now rewrite default_total.
Qed.

Section Asset_conservation.
Context (lib : CSLib) (MIN_ADA FIXED_FEE : Z).

Lemma spec_outputs_qty (pid nm : list byte) (specs : list OutSpec)
    (outs : list TransactionOutput) :
  Forall2 (fun spec o => specOutput lib MIN_ADA spec = Ok o) specs outs ->
  Forall (fun spec => JsWf (assetsMap spec) /\ JsCanon (assetsMap spec)) specs ->
  sumZ (map (fun o => valueQty pid nm (out_amount o)) outs)
  = sumZ (map (fun spec => mapQty pid nm (assetsMap spec)) specs).
Proof.
  induction 1 as [|spec o specs outs Ho _ IH]; intros Hall; [reflexivity|].
  apply Forall_cons in Hall as [[Hwf Hcan] Hall].
  cbn [map sumZ foldr]. f_equal; [|now apply IH].
  now apply (specOutput_qty lib MIN_ADA).
Qed.

Lemma planned_qty (mode : string) (destAddress : option string)
    (requested : option (list OutputRequest)) (totalJS : JsValue)
    (plan : OutPlan) (outs : list TransactionOutput) (pid nm : list byte) :
  planOutputs MIN_ADA mode destAddress requested totalJS = Ok plan ->
  Forall2 (fun spec o => specOutput lib MIN_ADA spec = Ok o) (outSpecs plan) outs ->
  JsWf (js_assets totalJS) -> JsCanon (js_assets totalJS) ->
  (mode = "explicit" -> canonicalRequest requested) ->
  sumZ (map (fun o => valueQty pid nm (out_amount o)) outs)
  = mapQty pid nm (outAssets plan).
Proof.
  intros Hplan Houts Hwf Hcan Hreq. unfold planOutputs in Hplan.
  destruct (String.eqb mode "sendAll").
  - destruct (falsy destAddress); [discriminate|]. injection Hplan as <-.
    cbn [outSpecs outAssets] in *.
    rewrite (spec_outputs_qty pid nm _ _ Houts) by (constructor; [split; assumption | constructor]).
    cbn [map sumZ foldr assetsMap]. unfold mapQty.
    rewrite jsAssetsAdd_qty, (pick_flatten_wf _ _ _ Hwf).
    unfold assetsQty at 2. cbn [JsMap.get JsMap.empty].
    destruct (assetsQty (bytesToHex pid) (bytesToHex nm) (js_assets totalJS));
      cbn; lia.
  - destruct (String.eqb_spec mode "explicit") as [->|]; [|discriminate].
    specialize (Hreq eq_refl).
    destruct (explicit_plan MIN_ADA destAddress requested totalJS)
      as (plan' & Hplan' & _ & Hqty & Hspecs).
    unfold planOutputs in Hplan'. cbn [String.eqb Ascii.eqb Bool.eqb] in Hplan'.
    rewrite Hplan in Hplan'. injection Hplan' as <-.
    rewrite (spec_outputs_qty pid nm _ _ Houts).
    + rewrite Hspecs, map_map. cbn [assetsMap]. unfold mapQty.
      rewrite explicit_specs_qty, Hqty. unfold demanded, requestedEntries.
      now rewrite default_total.
    + rewrite Hspecs. apply Forall_forall. intros spec Hspec.
      change (map ?f ?l) with (f <$> l) in Hspec.
      apply list_elem_of_fmap in Hspec as (o & -> & Ho). cbn [assetsMap].
      split; [apply JsWf_fromSpec|]. apply JsCanon_fromSpec.
      apply Forall_forall. intros a Ha.
      apply (proj1 (Forall_forall _ _) Hreq). unfold requestedEntries.
      apply list_elem_of_In, in_flat_map. exists o.
      split; now apply list_elem_of_In.
Qed.

Lemma planned_demand (mode : string) (destAddress : option string)
    (requested : option (list OutputRequest)) (totalJS : JsValue)
    (plan : OutPlan) (p n : string) :
  planOutputs MIN_ADA mode destAddress requested totalJS = Ok plan ->
  JsWf (js_assets totalJS) ->
  (mode = "sendAll"
   /\ assetsQty p n (outAssets plan) = assetsQty p n (js_assets totalJS))
  \/ (mode = "explicit"
      /\ assetsQty p n (outAssets plan) = demanded p n requested).
Proof.
  intros Hplan Hwf. unfold planOutputs in Hplan.
  destruct (String.eqb_spec mode "sendAll") as [->|_].
  - left. split; [reflexivity|].
    destruct (falsy destAddress); [discriminate|]. injection Hplan as <-.
    cbn [outAssets]. rewrite jsAssetsAdd_qty, (pick_flatten_wf _ _ _ Hwf).
    unfold assetsQty at 1. cbn [JsMap.get JsMap.empty].
    now destruct (assetsQty p n (js_assets totalJS)).
  - destruct (String.eqb_spec mode "explicit") as [->|]; [|discriminate].
    right. split; [reflexivity|].
    destruct (explicit_plan MIN_ADA destAddress requested totalJS)
      as (plan' & Hplan' & _ & Hqty & _).
    unfold planOutputs in Hplan'. cbn [String.eqb Ascii.eqb Bool.eqb] in Hplan'.
    rewrite Hplan in Hplan'. injection Hplan' as <-. apply Hqty.
Qed.

Lemma buildBody_conserves_asset (bf : Blockfrost) (multisigAddress : string)
    (requiredKeyHashes : list string) (mode : string)
    (destAddress : option string) (requested : option (list OutputRequest))
    (body : TransactionBody) (utxos : list Utxo) (changeAssets : JsAssets)
    (changeCoin : Z) (pid nm : list byte) :
  buildBody lib MIN_ADA FIXED_FEE bf multisigAddress requiredKeyHashes mode
    destAddress requested = Ok (body, utxos, changeAssets, changeCoin) ->
  (mode = "explicit" ->
   canonicalRequest requested
   /\ (demanded (bytesToHex pid) (bytesToHex nm) requested <> None ->
       carried pid nm utxos <> None)) ->
  inputQty pid nm utxos = outputQty pid nm body.
Proof.
  intros H Hreq.
  apply buildBody_Ok in H
    as (msAddr & totalValue & plan & outs & change & _ & Hsum & Hplan & Hchange
        & Houts & Hchg & Hbody & _).
  destruct (sumInputs_Ok utxos totalValue pid nm Hsum) as [_ Htotal].
  destruct (valueToJs_qty totalValue pid nm) as [_ Hjs].
  destruct (valueToJs_shape totalValue) as [Hwf Hcan].
  apply computeChange_Ok in Hchange as (_ & _ & _ & Hsub).
  destruct (jsAssetsSub_qty _ _ _ (bytesToHex pid) (bytesToHex nm) Hsub Hwf)
    as [Hdiff _].
  destruct (jsAssetsSub_wf _ _ _ Hsub Hcan) as [Hwf' Hcan'].
  unfold inputQty, outputQty. rewrite Hbody, map_app, sumZ_app.
  rewrite (changeOutput_qty lib MIN_ADA _ _ _ _ _ _ pid nm Hchg Hwf' Hcan').
  rewrite (planned_qty _ _ _ _ _ _ pid nm Hplan Houts Hwf Hcan
             (fun Hm => proj1 (Hreq Hm))).
  unfold mapQty. rewrite Hdiff, Hjs, Htotal.
  destruct (carried pid nm utxos) as [q|] eqn:Hcarried; [cbn; lia|].
  destruct (planned_demand _ _ _ _ _ (bytesToHex pid) (bytesToHex nm) Hplan Hwf)
    as [[_ ->]|[Hm ->]].
  - rewrite Hjs, Htotal. reflexivity.
  - destruct (demanded (bytesToHex pid) (bytesToHex nm) requested) eqn:Hd;
      [|reflexivity].
    exfalso. now apply (proj2 (Hreq Hm)).
Qed.

End Asset_conservation.

(** ** The sessions of every reachable state *)

Lemma JsMap_set_keys_incl {V} (k x : string) (v : V) (m : JsMap.t V) :
  x ∈ JsMap.keys m -> x ∈ JsMap.keys (JsMap.set k v m).
Proof.
  unfold JsMap.keys. induction m as [|[k' v'] m IH]; cbn [JsMap.set map fst].
  - intros H. inversion H.
  - intros H. destruct (String.eqb_spec k k') as [->|Hne]; cbn [map fst].
    + exact H.
    + apply elem_of_cons in H as [->|H]; [apply list_elem_of_here|].
      apply list_elem_of_further. now apply IH.
Qed.

Lemma JsMap_set_size {V} (k : string) (v : V) (m : JsMap.t V) :
  (JsMap.size m <= JsMap.size (JsMap.set k v m))%nat.
Proof.
  unfold JsMap.size. induction m as [|[k' v'] m IH]; cbn [JsMap.set length].
  - lia.
  - destruct (String.eqb k k'); cbn [length]; lia.
Qed.

Lemma storeEach_keeps (lib : CSLib) (vws : list Vkeywitness) :
  forall w : JsMap.t string,
    (forall x, x ∈ JsMap.keys w -> x ∈ JsMap.keys (storeEach lib vws w))
    /\ (JsMap.size w <= JsMap.size (storeEach lib vws w))%nat.
Proof.
  unfold storeEach. induction vws as [|vw vws IH]; intros w; cbn [foldl].
  - split; [auto | lia].
  - destruct (IH (JsMap.set (witnessKeyHash lib vw) (singleWitnessHex lib vw) w))
      as [Hk Hs]. split.
    + intros x Hx. apply Hk. now apply JsMap_set_keys_incl.
    + etransitivity; [apply JsMap_set_size | exact Hs].
Qed.

Lemma storeEach_normalized (lib : CSLib) (vws : list Vkeywitness) :
  forall w : JsMap.t string,
    NoDup (JsMap.keys w) -> Forall (normalized lib) w ->
    NoDup (JsMap.keys (storeEach lib vws w))
    /\ Forall (normalized lib) (storeEach lib vws w).
Proof.
  unfold storeEach. induction vws as [|vw vws IH]; intros w Hnd Hall; cbn [foldl].
  - now split.
  - apply IH.
    + now apply JsMap_NoDup_set.
    + apply JsMap_Forall_set; [assumption|]. now exists vw.
Qed.

(** The state a witness request leaves. *)
Lemma postWitness_state (lib : CSLib) (req : WitnessBody) (st : ServerState) :
  snd (postWitness lib req st) = st
  \/ exists txId rec vks,
       witness_txId req = Some txId
       /\ txs st !! txId = Some rec
       /\ snd (postWitness lib req st)
          = mkServerState
              (<[txId := txStore.set_witnesses
                           (storeEach lib
                              (List.filter
                                 (isRequired lib (txStore.signersKeyHashes rec))
                                 vks)
                              (txStore.witnesses rec)) rec]> (txs st))
              (latestSession st).
Proof.
  unfold postWitness.
  destruct (falsy (witness_txId req) || falsy (witnessHex req)) eqn:Hfalsy;
    [now left|].
  destruct (witness_txId req) as [txId|]; [|discriminate]. cbn [from_option id].
  unfold txStore.getTxRecord.
  destruct (txs st !! txId) as [rec|] eqn:Hrec; [|now left].
  destruct (parseVkeys lib _) as [vks|e]; [|now left].
  destruct (length (default [] vks) =? 0)%nat; [now left|].
  rewrite (intake_spec lib txId (txStore.signersKeyHashes rec) (default [] vks)
             (txs st) rec [] [] Hrec).
  right. exists txId, rec, (default [] vks).
  split; [reflexivity|]. split; [exact Hrec|].
  destruct (length _ =? 0)%nat; [reflexivity|].
  now destruct (txStore.status txId _).
Qed.

Lemma buildUnsignedTx_artifact (lib : CSLib) (MIN_ADA FIXED_FEE : Z)
    (bf : Blockfrost) (multisigAddress paymentScriptHex : string)
    (requiredKeyHashes : list string) (mode : string)
    (destAddress : option string) (requested : option (list OutputRequest))
    (art : BuildArtifact) :
  buildUnsignedTx lib MIN_ADA FIXED_FEE bf multisigAddress paymentScriptHex
    requiredKeyHashes mode destAddress requested = Ok art ->
  exists body ns,
    NativeScript_from_bytes lib (hexToBytes paymentScriptHex) = Some ns
    /\ txId art = bytesToHex (hash_transaction lib body)
    /\ txBodyHex art = bytesToHex (TransactionBody_to_bytes lib body)
    /\ txHex art = bytesToHex (Transaction_to_bytes lib (unsignedTx ns body))
    /\ fee body = FIXED_FEE.
Proof.
  unfold buildUnsignedTx. intros H.
  bind_inv H as r Hr. destruct r as [[[body utxos] changeAssets] changeCoin].
  bind_inv H as ns Hns. injection H as <-.
  apply build_conserves_coin in Hr as [_ Hfee].
  exists body, ns. cbn [txId txBodyHex txHex]. repeat split; try assumption.
  unfold csl in Hns. now destruct (NativeScript_from_bytes lib _) as [ns'|];
    [injection Hns as -> | discriminate].
Qed.

Section Sessions.
Context (lib : CSLib) (MIN_ADA FIXED_FEE : Z).
Context (PAYMENT_SCRIPT_CBOR_HEX : string).
Context (PAYMENT_SUMMARY : ScriptSummary) (MULTISIG_ADDRESS : string).

Lemma postCreate_ok (bf : Blockfrost) (req : CreateBody) (st : ServerState) :
  store_ok lib FIXED_FEE PAYMENT_SCRIPT_CBOR_HEX PAYMENT_SUMMARY
    (txs st) ->
  store_ok lib FIXED_FEE PAYMENT_SCRIPT_CBOR_HEX PAYMENT_SUMMARY
    (txs (snd (postCreate lib MIN_ADA FIXED_FEE PAYMENT_SCRIPT_CBOR_HEX
                  PAYMENT_SUMMARY MULTISIG_ADDRESS bf req st))).
Proof.
  intros Hok. unfold postCreate.
  destruct (buildUnsignedTx _ _ _ _ _ _ _ _ _ _) as [build|e] eqn:Hbuild;
    cbn [snd txs]; [|assumption].
  apply buildUnsignedTx_artifact in Hbuild as (body & ns & Hns & Hid & Hb & Hx & Hfee).
  intros txId rec Hrec. unfold txStore.createTxRecord in Hrec.
  apply lookup_insert_Some in Hrec as [[<- <-]|[_ Hrec]]; [|now apply Hok].
  repeat split; cbn; try reflexivity; try constructor.
  now exists body, ns.
Qed.

Lemma postWitness_ok (req : WitnessBody) (st : ServerState) :
  store_ok lib FIXED_FEE PAYMENT_SCRIPT_CBOR_HEX PAYMENT_SUMMARY
    (txs st) -> store_ok lib FIXED_FEE PAYMENT_SCRIPT_CBOR_HEX PAYMENT_SUMMARY
    (txs (snd (postWitness lib req st))).
Proof.
  intros Hok.
  destruct (postWitness_state lib req st)
    as [->|(txId & rec & vks & _ & Hrec & ->)]; [assumption|].
  cbn [txs]. intros txId' rec' Hrec'.
  apply lookup_insert_Some in Hrec' as [[<- <-]|[_ Hrec']]; [|now apply Hok].
  destruct (Hok _ _ Hrec) as (Hs & Hm & Hk & Hbody & Hnd & Hall).
  destruct (storeEach_normalized lib
              (List.filter (isRequired lib (txStore.signersKeyHashes rec)) vks)
              _ Hnd Hall) as [Hnd' Hall'].
  repeat split; assumption.
Qed.

Lemma postSubmit_ok (bf : Blockfrost) (txId : option string) (st : ServerState) :
  store_ok lib FIXED_FEE PAYMENT_SCRIPT_CBOR_HEX PAYMENT_SUMMARY
    (txs st) -> store_ok lib FIXED_FEE PAYMENT_SCRIPT_CBOR_HEX PAYMENT_SUMMARY
    (txs (snd (fst (postSubmit lib bf txId st)))).
Proof.
  intros Hok. unfold postSubmit.
  destruct (falsy txId); [assumption|]. unfold txStore.getTxRecord.
  destruct (txs st !! default "" txId) as [rec|]; [|assumption].
  destruct (_ <? _)%nat; [assumption|].
  destruct (assembleAndSerializeTx _ _ _ _); [|assumption].
  destruct (submitTx bf _); [|assumption].
  cbn [fst snd txs]. unfold txStore.clearTx. intros txId' rec' Hrec'.
  apply lookup_delete_Some in Hrec' as [_ Hrec']. now apply Hok.
Qed.

Lemma postReset_ok (txId : option string) (st : ServerState) :
  store_ok lib FIXED_FEE PAYMENT_SCRIPT_CBOR_HEX PAYMENT_SUMMARY
    (txs st) -> store_ok lib FIXED_FEE PAYMENT_SCRIPT_CBOR_HEX PAYMENT_SUMMARY
    (txs (snd (postReset txId st))).
Proof.
  intros Hok. unfold postReset. cbn [snd txs].
  destruct (falsy txId); [assumption|].
  unfold txStore.clearTx. intros txId' rec' Hrec'.
  apply lookup_delete_Some in Hrec' as [_ Hrec']. now apply Hok.
Qed.

Lemma handle_ok (r : Request) (st : ServerState) :
  store_ok lib FIXED_FEE PAYMENT_SCRIPT_CBOR_HEX PAYMENT_SUMMARY
    (txs st) ->
  store_ok lib FIXED_FEE PAYMENT_SCRIPT_CBOR_HEX PAYMENT_SUMMARY
    (txs (snd (handle lib MIN_ADA FIXED_FEE PAYMENT_SCRIPT_CBOR_HEX
                  PAYMENT_SUMMARY MULTISIG_ADDRESS r st))).
Proof.
  intros Hok. destruct r as [bf req | req | bf txId | txId]; cbn [handle].
  - now apply postCreate_ok.
  - now apply postWitness_ok.
  - pose proof (postSubmit_ok bf txId st Hok) as H.
    destruct (postSubmit lib bf txId st) as [[resp st'] calls]. exact H.
  - now apply postReset_ok.
Qed.

Lemma run_ok (rs : list Request) (st : ServerState) :
  store_ok lib FIXED_FEE PAYMENT_SCRIPT_CBOR_HEX PAYMENT_SUMMARY
    (txs st) ->
  store_ok lib FIXED_FEE PAYMENT_SCRIPT_CBOR_HEX PAYMENT_SUMMARY
    (txs (run lib MIN_ADA FIXED_FEE PAYMENT_SCRIPT_CBOR_HEX
             PAYMENT_SUMMARY MULTISIG_ADDRESS rs st)).
Proof.
  revert st. unfold run. induction rs as [|r rs IH]; intros st Hok; cbn [foldl].
  - assumption.
  - apply IH. now apply handle_ok.
Qed.

Lemma initial_ok : store_ok lib FIXED_FEE PAYMENT_SCRIPT_CBOR_HEX PAYMENT_SUMMARY
    (txs initialState).
Proof. intros txId rec H. cbn in H. now rewrite lookup_empty in H. Qed.

End Sessions.

(** X3. The status route never reports more signers than the script has keys:
    in every state the server reaches, the status of a session carries the
    threshold and the allow-list derived from the hard-coded script, and
    lists every collected signer once. *)
Theorem status_collected_within_required (lib : CSLib) (MIN_ADA FIXED_FEE : Z)
    (PAYMENT_SCRIPT_CBOR_HEX : string) (PAYMENT_SUMMARY : ScriptSummary)
    (MULTISIG_ADDRESS : string) (rs : list Request) (txId : string)
    (s : txStore.Status) :
  getStatus txId (run lib MIN_ADA FIXED_FEE PAYMENT_SCRIPT_CBOR_HEX
                    PAYMENT_SUMMARY MULTISIG_ADDRESS rs initialState)
  = reply_json s ->
  txStore.status_m s = M_REQUIRED PAYMENT_SUMMARY
  /\ txStore.required s = REQUIRED_KEY_HASHES PAYMENT_SUMMARY
  /\ NoDup (txStore.collected s)
  /\ (length (txStore.collected s) <= length (txStore.required s))%nat.
Proof.
  intros H. unfold getStatus, txStore.status in H.
  destruct (txs _ !! txId) as [rec|] eqn:Hrec; [|discriminate].
  injection H as <-. cbn.
  destruct (run_ok lib MIN_ADA FIXED_FEE PAYMENT_SCRIPT_CBOR_HEX PAYMENT_SUMMARY
              MULTISIG_ADDRESS rs initialState
              (initial_ok lib FIXED_FEE PAYMENT_SCRIPT_CBOR_HEX PAYMENT_SUMMARY)
              _ _ Hrec) as (_ & Hm & Hk & _ & Hnd & _).
  destruct (run_wf lib MIN_ADA FIXED_FEE PAYMENT_SCRIPT_CBOR_HEX PAYMENT_SUMMARY
              MULTISIG_ADDRESS rs initialState store_wf_empty _ _ Hrec)
    as [Hinv _].
  repeat split; try assumption.
  apply submseteq_length, NoDup_submseteq; assumption.
Qed.

Lemma status_collected_within_required_witness :
  exists s,
    getStatus Scenario.txId
      (Scenario.serve [Scenario.create; Scenario.sign "a10a015a09"])
    = reply_json s
    /\ txStore.collected s = [Sample.hashA]
    /\ (length (txStore.collected s) <= length (txStore.required s))%nat.
Proof.
  eexists. split; [vm_compute; reflexivity|]. split; [reflexivity|].
  refine (proj2 (proj2 (proj2
            (status_collected_within_required Sample.lib 2000000 1000000 "5c"
               Scenario.summary "addr_ms"
               [Scenario.create; Scenario.sign "a10a015a09"] Scenario.txId
               _ _)))).
  vm_compute. reflexivity.
Defined.

(** X4. What the witnesses route serves, in every state the server reaches:
    each item is the witness set of one key witness, filed under the hash
    of its key; that hash is on the allow-list, and no signer is listed
    twice. *)
Theorem served_witnesses_are_normalized (lib : CSLib) (MIN_ADA FIXED_FEE : Z)
    (PAYMENT_SCRIPT_CBOR_HEX : string) (PAYMENT_SUMMARY : ScriptSummary)
    (MULTISIG_ADDRESS : string) (rs : list Request) (txId : string)
    (r : WitnessesReply) :
  getWitnesses txId (run lib MIN_ADA FIXED_FEE PAYMENT_SCRIPT_CBOR_HEX
                       PAYMENT_SUMMARY MULTISIG_ADDRESS rs initialState)
  = reply_json r ->
  NoDup (map item_signer (reply_witnesses r))
  /\ Forall (fun it =>
               item_signer it ∈ reply_required r
               /\ exists vw,
                    item_signer it = witnessKeyHash lib vw
                    /\ item_witnessHex it
                       = bytesToHex (TransactionWitnessSet_to_bytes lib
                                       (mkWitnessSet (Some [vw]) None [])))
       (reply_witnesses r).
Proof.
  intros H. unfold getWitnesses, txStore.getTxRecord in H.
  destruct (txs _ !! txId) as [rec|] eqn:Hrec; [|discriminate].
  injection H as <-. cbn [reply_witnesses reply_required].
  destruct (run_ok lib MIN_ADA FIXED_FEE PAYMENT_SCRIPT_CBOR_HEX PAYMENT_SUMMARY
              MULTISIG_ADDRESS rs initialState
              (initial_ok lib FIXED_FEE PAYMENT_SCRIPT_CBOR_HEX PAYMENT_SUMMARY)
              _ _ Hrec) as (_ & _ & _ & _ & Hnd & Hall).
  destruct (run_wf lib MIN_ADA FIXED_FEE PAYMENT_SCRIPT_CBOR_HEX PAYMENT_SUMMARY
              MULTISIG_ADDRESS rs initialState store_wf_empty _ _ Hrec)
    as [Hinv _].
  unfold JsMap.entries. split.
  - rewrite map_map.
    erewrite map_ext; [exact Hnd|]. now intros [k w].
  - apply Forall_forall. intros it Hit.
    change (map ?f ?l) with (f <$> l) in Hit.
    apply list_elem_of_fmap in Hit as ([k w] & -> & Hkw). cbn [item_signer item_witnessHex].
    split.
    + apply Hinv. unfold JsMap.keys.
      change (map fst ?l) with (fst <$> l). apply list_elem_of_fmap.
      now exists (k, w).
    + destruct (proj1 (Forall_forall _ _) Hall _ Hkw) as (vw & Hk & Hw).
      exists vw. split; [exact Hk | exact Hw].
Qed.

Lemma served_witnesses_are_normalized_witness :
  exists r,
    getWitnesses Scenario.txId
      (Scenario.serve [Scenario.create; Scenario.sign "a10a015a09";
                       Scenario.sign "a10b02"])
    = reply_json r
    /\ reply_witnesses r
       = [mkWitnessItem Sample.hashA "a10a01"; mkWitnessItem Sample.hashB "a10b02"]
    /\ NoDup (map item_signer (reply_witnesses r)).
Proof.
  eexists. split; [vm_compute; reflexivity|]. split; [reflexivity|].
  refine (proj1
            (served_witnesses_are_normalized Sample.lib 2000000 1000000 "5c"
               Scenario.summary "addr_ms"
               [Scenario.create; Scenario.sign "a10a015a09";
                Scenario.sign "a10b02"] Scenario.txId _ _)).
  vm_compute. reflexivity.
Defined.

(** X5. What the transaction route serves for signing, in every state the
    server reaches: the id of a session is the hash of the body it holds,
    the transaction offered to the wallets is that body with the payment
    script as its only witness, and the body carries the fixed fee. *)
Theorem session_id_is_body_hash (lib : CSLib) (MIN_ADA FIXED_FEE : Z)
    (PAYMENT_SCRIPT_CBOR_HEX : string) (PAYMENT_SUMMARY : ScriptSummary)
    (MULTISIG_ADDRESS : string) (rs : list Request) (txId : string)
    (r : TxBodyReply) :
  getTxbody txId (run lib MIN_ADA FIXED_FEE PAYMENT_SCRIPT_CBOR_HEX
                    PAYMENT_SUMMARY MULTISIG_ADDRESS rs initialState)
  = reply_json r ->
  exists body ns,
    NativeScript_from_bytes lib (hexToBytes PAYMENT_SCRIPT_CBOR_HEX) = Some ns
    /\ txId = bytesToHex (hash_transaction lib body)
    /\ reply_txBodyHex r = bytesToHex (TransactionBody_to_bytes lib body)
    /\ reply_txHex r
       = bytesToHex (Transaction_to_bytes lib
                       (mkTransaction body
                          (mkWitnessSet None (Some [ns]) [])))
    /\ fee body = FIXED_FEE.
Proof.
  intros H. unfold getTxbody, txStore.getTxRecord in H.
  destruct (txs _ !! txId) as [rec|] eqn:Hrec; [|discriminate].
  injection H as <-. cbn [reply_txHex reply_txBodyHex].
  destruct (run_ok lib MIN_ADA FIXED_FEE PAYMENT_SCRIPT_CBOR_HEX PAYMENT_SUMMARY
              MULTISIG_ADDRESS rs initialState
              (initial_ok lib FIXED_FEE PAYMENT_SCRIPT_CBOR_HEX PAYMENT_SUMMARY)
              _ _ Hrec) as (_ & _ & _ & Hbody & _).
  exact Hbody.
Qed.

Lemma session_id_is_body_hash_witness :
  exists r body,
    getTxbody Scenario.txId (Scenario.serve [Scenario.create]) = reply_json r
    /\ reply_txBodyHex r = "b0"
    /\ Scenario.txId = bytesToHex (hash_transaction Sample.lib body)
    /\ fee body = 1000000%Z.
Proof.
  assert (Hr : getTxbody Scenario.txId (Scenario.serve [Scenario.create])
               = reply_json (mkTxBodyReply "84b0a1" "b0"))
    by (vm_compute; reflexivity).
  destruct (session_id_is_body_hash Sample.lib 2000000 1000000 "5c"
              Scenario.summary "addr_ms" [Scenario.create] Scenario.txId _ Hr)
    as (body & ns & _ & Hid & _ & _ & Hfee).
  exists (mkTxBodyReply "84b0a1" "b0"), body.
  split; [exact Hr|]. split; [reflexivity|]. split; assumption.
Defined.

(** X7. A witness request touches nothing but the witnesses of the session it
    names: it creates and removes no session, leaves [latestSession], the
    other sessions and the transaction, script, threshold, allow-list and
    preview of every session as they are, and no signer collected before
    is lost. *)
Theorem witness_request_frame (lib : CSLib) (req : WitnessBody) (st : ServerState) :
  let st' := snd (postWitness lib req st) in
  latestSession st' = latestSession st
  /\ forall txId,
       match txs st !! txId, txs st' !! txId with
       | Some rec, Some rec' =>
           txStore.txHex rec' = txStore.txHex rec
           /\ txStore.txBodyHex rec' = txStore.txBodyHex rec
           /\ txStore.scriptHex rec' = txStore.scriptHex rec
           /\ txStore.m rec' = txStore.m rec
           /\ txStore.signersKeyHashes rec' = txStore.signersKeyHashes rec
           /\ txStore.preview rec' = txStore.preview rec
           /\ (forall k, k ∈ JsMap.keys (txStore.witnesses rec) ->
                         k ∈ JsMap.keys (txStore.witnesses rec'))
           /\ (JsMap.size (txStore.witnesses rec)
               <= JsMap.size (txStore.witnesses rec'))%nat
           /\ (witness_txId req <> Some txId -> rec' = rec)
       | None, None => True
       | _, _ => False
       end.
Proof.
  intros st'. subst st'.
  destruct (postWitness_state lib req st)
    as [->|(txId0 & rec0 & vks & Hid & Hrec0 & ->)].
  - split; [reflexivity|]. intros txId.
    destruct (txs st !! txId) as [rec|]; [|exact I].
    repeat split; try reflexivity; auto.
  - split; [reflexivity|]. intros txId. cbn [txs].
    destruct (decide (txId0 = txId)) as [<-|Hne].
    + rewrite Hrec0, lookup_insert_eq.
      destruct (storeEach_keeps lib
                  (List.filter (isRequired lib (txStore.signersKeyHashes rec0)) vks)
                  (txStore.witnesses rec0)) as [Hk Hs].
      repeat split; try reflexivity; try assumption.
      intros Hne. congruence.
    + rewrite lookup_insert_ne by assumption.
      destruct (txs st !! txId) as [rec|]; [|exact I].
      repeat split; try reflexivity; auto.
Qed.

(** X9. A session is submitted once: after a successful submit the session is
    gone, so submitting it again answers [not_found] without a call to
    the gateway, and so do its status and further witnesses for it. *)
Theorem no_double_submit (lib : CSLib) (bf bf' : Blockfrost)
    (txId : option string) (st st' : ServerState) (txHash : string)
    (calls : list (list byte)) :
  postSubmit lib bf txId st = (submitted txHash, st', calls) ->
  postSubmit lib bf' txId st' = (not_found, st', [])
  /\ getStatus (default "" txId) st' = reply_not_found
  /\ forall signer blob,
       blob <> "" ->
       postWitness lib (mkWitnessBody txId signer (Some blob)) st'
       = (not_found, st').
Proof.
  unfold postSubmit. destruct (falsy txId) eqn:Hfalsy; [discriminate|].
  unfold txStore.getTxRecord.
  destruct (txs st !! default "" txId) as [rec|]; [|discriminate].
  destruct (_ <? _)%nat; [discriminate|].
  destruct (assembleAndSerializeTx _ _ _ _) as [txBytes|]; [|discriminate].
  destruct (submitTx bf txBytes) as [h|]; [|discriminate].
  intros [= <- <- <-]. cbn [txs]. unfold txStore.clearTx.
  rewrite lookup_delete_eq. split; [reflexivity|]. split.
  - unfold getStatus, txStore.status. cbn [txs]. now rewrite lookup_delete_eq.
  - intros signer blob Hblob. unfold postWitness.
    cbn [witness_txId witnessHex]. rewrite Hfalsy.
    cbn [falsy orb]. destruct (String.eqb_spec blob ""); [contradiction|].
    unfold txStore.getTxRecord. cbn [txs]. now rewrite lookup_delete_eq.
Qed.

Lemma no_double_submit_witness :
  let st := Sample.stateWith [(Sample.hashA, "a10a01"); (Sample.hashB, "a10b02")] in
  postSubmit Sample.lib Sample.accepting (Some "tx1") st
  = (submitted "txhash", mkServerState ∅ None, [hexToBytes "84b0a10a010b02"])
  /\ postSubmit Sample.lib Sample.accepting (Some "tx1") (mkServerState ∅ None)
     = (not_found, mkServerState ∅ None, []).
Proof.
  intros st.
  assert (H : postSubmit Sample.lib Sample.accepting (Some "tx1") st
              = (submitted "txhash", mkServerState ∅ None,
                 [hexToBytes "84b0a10a010b02"]))
    by (vm_compute; reflexivity).
  split; [exact H|].
  exact (proj1 (no_double_submit Sample.lib Sample.accepting Sample.accepting
                  (Some "tx1") st _ "txhash" _ H)).
Defined.

(** X6. A created session starts without witnesses, whatever the store held
    under its id. When the build returns an artifact, the create request
    answers with the id and the preview of that artifact and the
    hard-coded threshold, allow-list and address, files the session under
    that id with the transaction of the artifact and no witness, makes
    it the latest session and leaves the other sessions alone; when the
    build throws, the answer is [server_error] with that exception and
    nothing changes. *)
Theorem create_starts_without_witnesses (lib : CSLib) (MIN_ADA FIXED_FEE : Z)
    (PAYMENT_SCRIPT_CBOR_HEX : string) (PAYMENT_SUMMARY : ScriptSummary)
    (MULTISIG_ADDRESS : string) (bf : Blockfrost) (req : CreateBody)
    (st : ServerState) :
  match buildUnsignedTx lib MIN_ADA FIXED_FEE bf MULTISIG_ADDRESS
          PAYMENT_SCRIPT_CBOR_HEX (REQUIRED_KEY_HASHES PAYMENT_SUMMARY)
          (default "sendAll" (create_mode req)) (create_destAddress req)
          (create_outputs req) with
  | Ok build =>
      exists st',
        postCreate lib MIN_ADA FIXED_FEE PAYMENT_SCRIPT_CBOR_HEX
          PAYMENT_SUMMARY MULTISIG_ADDRESS bf req st
        = (created (txId build) (preview build) (M_REQUIRED PAYMENT_SUMMARY)
             (REQUIRED_KEY_HASHES PAYMENT_SUMMARY) MULTISIG_ADDRESS, st')
        /\ getStatus (txId build) st'
           = reply_json (txStore.mkStatus (M_REQUIRED PAYMENT_SUMMARY)
                           (REQUIRED_KEY_HASHES PAYMENT_SUMMARY) []
                           (preview build))
        /\ getWitnesses (txId build) st'
           = reply_json (mkWitnessesReply [] (M_REQUIRED PAYMENT_SUMMARY)
                           (REQUIRED_KEY_HASHES PAYMENT_SUMMARY))
        /\ getTxbody (txId build) st'
           = reply_json (mkTxBodyReply (txHex build) (txBodyHex build))
        /\ latestSession st' = Some (txId build, preview build)
        /\ (forall txId', txId' <> txId build ->
                          txs st' !! txId' = txs st !! txId')
  | Throw e =>
      postCreate lib MIN_ADA FIXED_FEE PAYMENT_SCRIPT_CBOR_HEX
        PAYMENT_SUMMARY MULTISIG_ADDRESS bf req st
      = (server_error e, st)
  end.
Proof.
  unfold postCreate.
  destruct (buildUnsignedTx _ _ _ _ _ _ _ _ _ _) as [build|e]; [|reflexivity].
  eexists. split; [reflexivity|].
  unfold getStatus, getWitnesses, getTxbody, txStore.getTxRecord, txStore.status,
    txStore.createTxRecord.
  cbn [txs latestSession]. rewrite lookup_insert_eq. cbn.
  repeat split; try reflexivity.
  intros txId' Hne. now rewrite lookup_insert_ne.
Qed.

(** ** Storing the same witnesses again *)

Lemma JsMap_ext {V} (m1 m2 : JsMap.t V) :
  NoDup (JsMap.keys m1) ->
  JsMap.keys m1 = JsMap.keys m2 ->
  (forall k, JsMap.get k m1 = JsMap.get k m2) ->
  m1 = m2.
Proof.
  revert m2. induction m1 as [|[k v] m1 IH]; intros [|[k' v'] m2] Hnd Hkeys Hget;
    try discriminate; [reflexivity|].
  unfold JsMap.keys in *. cbn [map fst] in *.
  injection Hkeys as <- Hkeys. apply NoDup_cons in Hnd as [Hk Hnd].
  pose proof (Hget k) as Hv. cbn [JsMap.get] in Hv.
  rewrite String.eqb_refl in Hv. injection Hv as <-.
  f_equal. apply IH; [assumption | assumption |].
  intros k0. specialize (Hget k0). cbn [JsMap.get] in Hget.
  destruct (String.eqb_spec k0 k) as [Heq|_]; [|exact Hget].
  rewrite Heq.
  rewrite (JsMap_get_fresh k m1) by exact Hk.
  rewrite (JsMap_get_fresh k m2); [reflexivity|].
  unfold JsMap.keys. now rewrite <- Hkeys.
Qed.

Lemma JsMap_keys_set_present {V} (k : string) (v : V) (m : JsMap.t V) :
  k ∈ JsMap.keys m -> JsMap.keys (JsMap.set k v m) = JsMap.keys m.
Proof.
  unfold JsMap.keys. induction m as [|[k' v'] m IH]; cbn [JsMap.set map fst].
  - intros H. inversion H.
  - intros H. destruct (String.eqb_spec k k') as [->|Hne]; cbn [map fst];
      [reflexivity|].
    f_equal. apply IH. apply elem_of_cons in H as [->|H]; [contradiction | exact H].
Qed.

Lemma JsMap_keys_set_here {V} (k : string) (v : V) (m : JsMap.t V) :
  k ∈ JsMap.keys (JsMap.set k v m).
Proof.
  unfold JsMap.keys. induction m as [|[k' v'] m IH]; cbn [JsMap.set map fst].
  - apply list_elem_of_here.
  - destruct (String.eqb_spec k k') as [->|Hne]; cbn [map fst].
    + apply list_elem_of_here.
    + now apply list_elem_of_further.
Qed.

Section storeEach_again.
Context (lib : CSLib).

Lemma storeEach_cons (vw : Vkeywitness) (vws : list Vkeywitness)
    (w : JsMap.t string) :
  storeEach lib (vw :: vws) w
  = storeEach lib vws
      (JsMap.set (witnessKeyHash lib vw) (singleWitnessHex lib vw) w).
Proof. reflexivity. Qed.

Lemma storeEach_NoDup (vws : list Vkeywitness) :
  forall w : JsMap.t string,
    NoDup (JsMap.keys w) -> NoDup (JsMap.keys (storeEach lib vws w)).
Proof.
  induction vws as [|vw vws IH]; intros w Hnd; [exact Hnd|].
  rewrite storeEach_cons. apply IH. now apply JsMap_NoDup_set.
Qed.

Lemma storeEach_get (vws : list Vkeywitness) (k : string) :
  forall w : JsMap.t string,
    JsMap.get k (storeEach lib vws w)
    = match JsMap.get k (storeEach lib vws JsMap.empty) with
      | Some v => Some v
      | None => JsMap.get k w
      end.
Proof.
  induction vws as [|vw vws IH]; intros w; [reflexivity|].
  rewrite !storeEach_cons, IH, (IH (JsMap.set _ _ JsMap.empty)).
  destruct (JsMap.get k (storeEach lib vws JsMap.empty)); [reflexivity|].
  rewrite !JsMap_get_set. cbn [JsMap.get JsMap.empty].
  now destruct (String.eqb k (witnessKeyHash lib vw)).
Qed.

Lemma storeEach_stored (vws : list Vkeywitness) :
  forall (w : JsMap.t string) (vw : Vkeywitness),
    vw ∈ vws -> witnessKeyHash lib vw ∈ JsMap.keys (storeEach lib vws w).
Proof.
  induction vws as [|vw0 vws IH]; intros w vw Hin; [inversion Hin|].
  rewrite storeEach_cons. apply elem_of_cons in Hin as [->|Hin].
  - apply storeEach_keeps, JsMap_keys_set_here.
  - now apply IH.
Qed.

Lemma storeEach_keys_present (vws : list Vkeywitness) :
  forall w : JsMap.t string,
    (forall vw, vw ∈ vws -> witnessKeyHash lib vw ∈ JsMap.keys w) ->
    JsMap.keys (storeEach lib vws w) = JsMap.keys w.
Proof.
  induction vws as [|vw0 vws IH]; intros w Hin; [reflexivity|].
  rewrite storeEach_cons, IH.
  - apply JsMap_keys_set_present, Hin, list_elem_of_here.
  - intros vw Hvw. apply JsMap_set_keys_incl, Hin.
    now apply list_elem_of_further.
Qed.

Lemma storeEach_idempotent (vws : list Vkeywitness) (w : JsMap.t string) :
  NoDup (JsMap.keys w) ->
  storeEach lib vws (storeEach lib vws w) = storeEach lib vws w.
Proof.
  intros Hnd. apply JsMap_ext.
  - now apply storeEach_NoDup, storeEach_NoDup.
  - apply storeEach_keys_present. intros vw. apply storeEach_stored.
  - intros k. rewrite storeEach_get, (storeEach_get vws k w).
    now destruct (JsMap.get k (storeEach lib vws JsMap.empty)).
Qed.

End storeEach_again.

(** The answer and the state of a witness request, case by case. *)
Lemma postWitness_eq (lib : CSLib) (req : WitnessBody) (st : ServerState) :
  postWitness lib req st
  = if falsy (witness_txId req) || falsy (witnessHex req) then (missing_params, st)
    else
      let txId := default "" (witness_txId req) in
      match txs st !! txId with
      | None => (not_found, st)
      | Some rec =>
          match parseVkeys lib (default "" (witnessHex req)) with
          | Throw _ => (invalid_witness_cbor, st)
          | Ok vkeys =>
              let signers := txStore.signersKeyHashes rec in
              let accepted :=
                List.filter (isRequired lib signers) (default [] vkeys) in
              let ignored :=
                List.filter (fun vw => negb (isRequired lib signers vw))
                  (default [] vkeys) in
              let witnesses' := storeEach lib accepted (txStore.witnesses rec) in
              match default [] vkeys, accepted with
              | [], _ => (empty_vkeys, st)
              | _ :: _, [] =>
                  (signer_not_allowed (map (witnessKeyHash lib) ignored)
                     (JsSet.of_list (map toLowerCase signers)), st)
              | _ :: _, _ :: _ =>
                  (witness_ok (map (witnessKeyHash lib) accepted)
                     (map (witnessKeyHash lib) ignored)
                     (JsMap.size witnesses') (txStore.m rec),
                   mkServerState
                     (<[txId := txStore.set_witnesses witnesses' rec]> (txs st))
                     (latestSession st))
              end
          end
      end.
Proof.
  unfold postWitness.
  destruct (falsy (witness_txId req) || falsy (witnessHex req)); [reflexivity|].
  cbv zeta. unfold txStore.getTxRecord.
  destruct (txs st !! default "" (witness_txId req)) as [rec|] eqn:Hrec;
    [|reflexivity].
  destruct (parseVkeys lib _) as [vkeys|e]; [|reflexivity].
  destruct (default [] vkeys) as [|vw vks] eqn:Hvks; [reflexivity|].
  cbn [length Nat.eqb].
  rewrite (intake_spec lib _ (txStore.signersKeyHashes rec) (vw :: vks)
             (txs st) rec [] [] Hrec).
  cbn [app].
  destruct (List.filter (isRequired lib (txStore.signersKeyHashes rec)) (vw :: vks))
    as [|a accepted'] eqn:Hacc.
  - cbn [map length Nat.eqb storeEach foldl].
    rewrite set_witnesses_id, insert_id by exact Hrec. now destruct st.
  - cbn [map length Nat.eqb].
    unfold txStore.status. rewrite lookup_insert_eq. cbn.
    unfold JsMap.size, JsMap.keys. now rewrite length_map.
Qed.

(** X8. Sending the same witness request twice changes nothing the second
    time: in every state the server reaches, the second request gets the
    answer of the first and leaves the state the first left. *)
Theorem witness_request_idempotent (lib : CSLib) (MIN_ADA FIXED_FEE : Z)
    (PAYMENT_SCRIPT_CBOR_HEX : string) (PAYMENT_SUMMARY : ScriptSummary)
    (MULTISIG_ADDRESS : string) (rs : list Request) (req : WitnessBody) :
  let st := run lib MIN_ADA FIXED_FEE PAYMENT_SCRIPT_CBOR_HEX PAYMENT_SUMMARY
              MULTISIG_ADDRESS rs initialState in
  postWitness lib req (snd (postWitness lib req st)) = postWitness lib req st.
Proof.
  intros st.
  pose proof (run_ok lib MIN_ADA FIXED_FEE PAYMENT_SCRIPT_CBOR_HEX PAYMENT_SUMMARY
                MULTISIG_ADDRESS rs initialState
                (initial_ok lib FIXED_FEE PAYMENT_SCRIPT_CBOR_HEX PAYMENT_SUMMARY))
    as Hok. fold st in Hok. clearbody st.
  rewrite (postWitness_eq lib req st).
  destruct (falsy (witness_txId req) || falsy (witnessHex req)) eqn:Hfalsy.
  { cbn [snd]. rewrite postWitness_eq, Hfalsy. reflexivity. }
  cbv zeta.
  destruct (txs st !! default "" (witness_txId req)) as [rec|] eqn:Hrec.
  2: { cbn [snd]. rewrite postWitness_eq, Hfalsy. cbv zeta. now rewrite Hrec. }
  destruct (parseVkeys lib (default "" (witnessHex req))) as [vkeys|e] eqn:Hparse.
  2: { cbn [snd]. rewrite postWitness_eq, Hfalsy. cbv zeta.
       now rewrite Hrec, Hparse. }
  destruct (default [] vkeys) as [|vw vks] eqn:Hvks.
  { cbn [snd]. rewrite postWitness_eq, Hfalsy. cbv zeta.
    now rewrite Hrec, Hparse, Hvks. }
  destruct (List.filter (isRequired lib (txStore.signersKeyHashes rec)) (vw :: vks))
    as [|a accepted'] eqn:Hacc.
  { cbn [snd]. rewrite postWitness_eq, Hfalsy. cbv zeta.
    now rewrite Hrec, Hparse, Hvks, Hacc. }
  cbn [snd]. rewrite postWitness_eq, Hfalsy. cbv zeta. cbn [txs latestSession].
  rewrite lookup_insert_eq, Hparse, Hvks.
  change (txStore.signersKeyHashes (txStore.set_witnesses ?w rec))
    with (txStore.signersKeyHashes rec).
  change (txStore.witnesses (txStore.set_witnesses ?w rec)) with w.
  change (txStore.m (txStore.set_witnesses ?w rec)) with (txStore.m rec).
  rewrite Hacc.
  destruct (Hok _ _ Hrec) as (_ & _ & _ & _ & Hnd & _).
  rewrite (storeEach_idempotent lib (a :: accepted') _ Hnd).
  now rewrite set_witnesses_twice, insert_insert_eq.
Qed.

Lemma witness_request_idempotent_witness :
  let st := Scenario.serve [Scenario.create] in
  let req := mkWitnessBody (Some Scenario.txId) None (Some "a10a015a09") in
  fst (postWitness Sample.lib req st)
  = witness_ok [Sample.hashA] [bytesToHex (replicate 28 x5a)] 1 2
  /\ postWitness Sample.lib req (snd (postWitness Sample.lib req st))
     = postWitness Sample.lib req st.
Proof.
  intros st req. split; [vm_compute; reflexivity|].
  exact (witness_request_idempotent Sample.lib 2000000 1000000 "5c"
           Scenario.summary "addr_ms" [Scenario.create] req).
Defined.
(** ** The key witnesses of a submitted transaction *)

Lemma takeBytes_encodeBytes (l r : list byte) :
  Codec.takeBytes (Codec.encodeBytes l ++ r) = Some (l, r).
Proof.
  unfold Codec.encodeBytes. induction l as [|b l IH]; [reflexivity|].
  cbn [flat_map app Codec.takeBytes]. now rewrite IH.
Qed.

Lemma Codec_single (vw : Vkeywitness) :
  vkeys <$> TransactionWitnessSet_from_bytes Codec.lib
              (TransactionWitnessSet_to_bytes Codec.lib
                 (mkWitnessSet (Some [vw]) None []))
  = Some (Some [vw]).
Proof.
  cbn [TransactionWitnessSet_from_bytes TransactionWitnessSet_to_bytes Codec.lib].
  unfold Codec.witnessSet_to_bytes, Codec.witnessSet_from_bytes.
  cbn [vkeys default from_option id flat_map]. rewrite app_nil_r.
  unfold Codec.encodeVkey.
  destruct (Codec.encodeBytes (vkey vw) ++ Codec.encodeBytes (signature vw))
    as [|b0 b'] eqn:Hb.
  { destruct (vkey vw); discriminate. }
  cbn [length Codec.decodeVkeys]. rewrite <- Hb.
  rewrite takeBytes_encodeBytes.
  rewrite <- (app_nil_r (Codec.encodeBytes (signature vw))).
  rewrite takeBytes_encodeBytes.
  destruct (length b'); destruct vw; reflexivity.
Qed.

Section Submitted_witnesses.
Context (lib : CSLib).
Hypothesis codec :
  forall vw,
    vkeys <$> TransactionWitnessSet_from_bytes lib
                (TransactionWitnessSet_to_bytes lib
                   (mkWitnessSet (Some [vw]) None []))
    = Some (Some [vw]).

Lemma single_parses (vw : Vkeywitness) :
  parses lib (singleWitnessHex lib vw) = true
  /\ keyWitnessesOf lib (singleWitnessHex lib vw) = [vw].
Proof.
  unfold parses, keyWitnessesOf, singleWitnessHex.
  rewrite hexToBytes_bytesToHex. specialize (codec vw).
  change (set_vkeys [vw] TransactionWitnessSet_new)
    with (mkWitnessSet (Some [vw]) None []).
  destruct (TransactionWitnessSet_from_bytes lib _) as [ws|]; [|discriminate].
  injection codec as ->. now split.
Qed.

Lemma normalized_witnesses (w : JsMap.t string) :
  Forall (normalized lib) w ->
  forallb (parses lib) (JsMap.values w) = true
  /\ map (witnessKeyHash lib) (flat_map (keyWitnessesOf lib) (JsMap.values w))
     = JsMap.keys w.
Proof.
  unfold JsMap.values, JsMap.keys.
  induction 1 as [|[k v] w (vw & Hk & Hv) _ [IHp IHk]]; [now split|].
  cbn [fst snd] in Hk, Hv. subst k v. cbn [map fst snd forallb flat_map].
  destruct (single_parses vw) as [-> ->]. split; [exact IHp|].
  cbn [app map]. now rewrite IHk.
Qed.

End Submitted_witnesses.

(** X10. What the gateway is handed: when the library writes and reads back
    the witness set of a single key witness, the transaction of every
    call to the gateway, in every state the server reaches, carries the
    payment script and exactly one key witness per collected signer, in
    the order of collection; their keys are distinct, all on the
    allow-list, and at least as many as the threshold. *)
Theorem submitted_transaction_signers (lib : CSLib) (MIN_ADA FIXED_FEE : Z)
    (PAYMENT_SCRIPT_CBOR_HEX : string) (PAYMENT_SUMMARY : ScriptSummary)
    (MULTISIG_ADDRESS : string) (rs : list Request) (bf : Blockfrost)
    (txId : option string) (resp : Response) (st' : ServerState)
    (txBytes : list byte) (calls : list (list byte)) :
  (forall vw,
     vkeys <$> TransactionWitnessSet_from_bytes lib
                 (TransactionWitnessSet_to_bytes lib
                    (mkWitnessSet (Some [vw]) None []))
     = Some (Some [vw])) ->
  postSubmit lib bf txId
    (run lib MIN_ADA FIXED_FEE PAYMENT_SCRIPT_CBOR_HEX PAYMENT_SUMMARY
       MULTISIG_ADDRESS rs initialState)
  = (resp, st', txBytes :: calls) ->
  exists tx ns,
    txBytes = Transaction_to_bytes lib tx
    /\ calls = []
    /\ NativeScript_from_bytes lib (hexToBytes PAYMENT_SCRIPT_CBOR_HEX) = Some ns
    /\ native_scripts (witness_set tx) = Some [ns]
    /\ NoDup (map (witnessKeyHash lib) (vkeysOfTx tx))
    /\ (forall k, k ∈ map (witnessKeyHash lib) (vkeysOfTx tx) ->
                  k ∈ REQUIRED_KEY_HASHES PAYMENT_SUMMARY)
    /\ (M_REQUIRED PAYMENT_SUMMARY <= length (vkeysOfTx tx))%nat.
Proof.
  intros codec.
  pose proof (run_ok lib MIN_ADA FIXED_FEE PAYMENT_SCRIPT_CBOR_HEX PAYMENT_SUMMARY
                MULTISIG_ADDRESS rs initialState
                (initial_ok lib FIXED_FEE PAYMENT_SCRIPT_CBOR_HEX PAYMENT_SUMMARY))
    as Hok.
  pose proof (run_wf lib MIN_ADA FIXED_FEE PAYMENT_SCRIPT_CBOR_HEX PAYMENT_SUMMARY
                MULTISIG_ADDRESS rs initialState store_wf_empty) as Hwf.
  set (st := run _ _ _ _ _ _ _ _) in *. clearbody st.
  unfold postSubmit. destruct (falsy txId); [discriminate|].
  unfold txStore.getTxRecord.
  destruct (txs st !! default "" txId) as [rec|] eqn:Hrec; [|discriminate].
  destruct (_ <? _)%nat eqn:Hcount; [discriminate|].
  apply Nat.ltb_ge in Hcount.
  destruct (Hok _ _ Hrec) as (Hscript & Hm & Hsigners & _ & Hnd & Hall).
  destruct (Hwf _ _ Hrec) as [Hinv _].
  destruct (normalized_witnesses lib codec _ Hall) as [Hparses Hkeys].
  unfold assembleAndSerializeTx, assembleTx.
  destruct (csl (TransactionBody_from_bytes lib _)) as [body|e];
    [|intros H; discriminate H].
  rewrite Ok_bind.
  destruct (NativeScript_from_bytes lib (hexToBytes (txStore.scriptHex rec)))
    as [ns|] eqn:Hns; [|intros H; discriminate H].
  cbn [csl]. rewrite Ok_bind, aggregateVkeys_spec, Hparses, !Ok_bind.
  set (agg := flat_map (keyWitnessesOf lib) (JsMap.values (txStore.witnesses rec)))
    in *.
  set (tx := mkTransaction body _).
  assert (Hvks : vkeysOfTx tx = agg).
  { subst tx. unfold vkeysOfTx. cbn [witness_set].
    destruct agg; reflexivity. }
  intros Hsub. exists tx, ns.
  assert (Hcalls : txBytes = Transaction_to_bytes lib tx /\ calls = []).
  { destruct (submitTx bf _); injection Hsub as _ _ <- <-; now split. }
  destruct Hcalls as [-> ->]. rewrite Hvks, Hkeys, <- Hscript.
  repeat split; try assumption.
  - subst tx. cbn [witness_set]. now destruct agg.
  - intros k Hk. rewrite <- Hsigners. now apply Hinv.
  - rewrite <- Hm. etransitivity; [exact Hcount|].
    unfold JsMap.size. rewrite <- (length_map fst).
    fold (JsMap.keys (txStore.witnesses rec)). rewrite <- Hkeys.
    now rewrite length_map.
Qed.

(** Two of the three signers sign; the gateway gets one transaction with
    their two key witnesses. *)
Lemma submitted_transaction_signers_witness :
  let rs := [Scenario.create; Scenario.sign "a1010a00010100";
             Scenario.sign "a1010b00010200"] in
  exists tx,
    snd (postSubmit Codec.lib Sample.accepting (Some Scenario.txId)
           (Codec.serve rs))
    = [Transaction_to_bytes Codec.lib tx]
    /\ NoDup (map (witnessKeyHash Codec.lib) (vkeysOfTx tx))
    /\ (M_REQUIRED Scenario.summary <= length (vkeysOfTx tx))%nat.
Proof.
  intros rs. unfold Codec.serve.
  assert (Hcalls :
            snd (postSubmit Codec.lib Sample.accepting (Some Scenario.txId)
                   (run Codec.lib 2000000 1000000 "5c" Scenario.summary
                      "addr_ms" rs initialState))
            = [hexToBytes "84b0a10a010b02"])
    by (vm_compute; reflexivity).
  assert (Hpair : forall q : Response * ServerState * list (list byte),
            q = (fst (fst q), snd (fst q), snd q))
    by (now intros [[? ?] ?]).
  pose proof (Hpair (postSubmit Codec.lib Sample.accepting (Some Scenario.txId)
                       (run Codec.lib 2000000 1000000 "5c" Scenario.summary
                          "addr_ms" rs initialState))) as Hsub.
  rewrite Hcalls in Hsub.
  destruct (submitted_transaction_signers Codec.lib 2000000 1000000 "5c"
              Scenario.summary "addr_ms" rs Sample.accepting
              (Some Scenario.txId) _ _ _ [] Codec_single Hsub)
    as (tx & ns & Hbytes & _ & _ & _ & Hnd & _ & Hlen).
  exists tx. rewrite Hcalls, Hbytes. split; [reflexivity|].
  split; [exact Hnd | exact Hlen].
Defined.
(** ** What a built transaction conserves *)

Lemma buildUnsignedTx_body (lib : CSLib) (MIN_ADA FIXED_FEE : Z)
    (bf : Blockfrost) (multisigAddress paymentScriptHex : string)
    (requiredKeyHashes : list string) (mode : string)
    (destAddress : option string) (requested : option (list OutputRequest))
    (art : BuildArtifact) :
  buildUnsignedTx lib MIN_ADA FIXED_FEE bf multisigAddress paymentScriptHex
    requiredKeyHashes mode destAddress requested = Ok art ->
  exists body changeAssets,
    buildBody lib MIN_ADA FIXED_FEE bf multisigAddress requiredKeyHashes mode
      destAddress requested
    = Ok (body, selectedInputs (preview art), changeAssets,
          changeCoin (preview art))
    /\ txBodyHex art = bytesToHex (TransactionBody_to_bytes lib body)
    /\ utxosByAddress bf multisigAddress = Ok (selectedInputs (preview art))
    /\ changeHasTokens (preview art) = negb (jsAssetsIsEmpty changeAssets)
    /\ computedOutputs (preview art) = previewRows lib body.
Proof.
  unfold buildUnsignedTx. intros H.
  bind_inv H as r Hr. destruct r as [[[body utxos] changeAssets] changeCoin].
  bind_inv H as ns Hns. injection H as <-. cbn.
  exists body, changeAssets. repeat split; try assumption.
  now apply buildBody_Ok in Hr as (? & ? & ? & ? & ? & Hutxos & _).
Qed.



(** X18. The builder knows two modes: a build succeeds only in mode
    [sendAll] with a destination address, or in mode [explicit]. *)
Theorem build_knows_two_modes (lib : CSLib) (MIN_ADA FIXED_FEE : Z)
    (bf : Blockfrost) (multisigAddress paymentScriptHex : string)
    (requiredKeyHashes : list string) (mode : string)
    (destAddress : option string) (requested : option (list OutputRequest))
    (art : BuildArtifact) :
  buildUnsignedTx lib MIN_ADA FIXED_FEE bf multisigAddress paymentScriptHex
    requiredKeyHashes mode destAddress requested = Ok art ->
  (mode = "sendAll"
   /\ exists dest, destAddress = Some dest /\ dest <> ""
                   /\ Address_from_bech32 lib dest <> None)
  \/ mode = "explicit".
Proof.
  intros H.
  apply buildUnsignedTx_body in H as (body & changeAssets & Hbody & _).
  apply buildBody_Ok in Hbody
    as (msAddr & totalValue & plan & outs & change & _ & _ & Hplan & _ & Houts & _).
  unfold planOutputs in Hplan.
  destruct (String.eqb_spec mode "sendAll") as [->|_].
  - left. split; [reflexivity|].
    destruct destAddress as [dest|]; [|discriminate]. cbn [falsy] in Hplan.
    destruct (String.eqb_spec dest "") as [->|Hne]; [discriminate|].
    exists dest. split; [reflexivity|]. split; [exact Hne|].
    injection Hplan as <-. cbn [outSpecs] in Houts.
    apply Forall2_cons_inv_l in Houts as (o & outs' & Ho & _ & _).
    unfold specOutput in Ho. cbn [spec_address default from_option id] in Ho.
    bind_inv Ho as c Hc. bind_inv Ho as v1 Hv1. bind_inv Ho as v2 Hv2.
    bind_inv Ho as addr Haddr. unfold csl in Haddr.
    now destruct (Address_from_bech32 lib dest).
  - destruct (String.eqb_spec mode "explicit") as [->|_]; [now right | discriminate].
Qed.

Lemma build_knows_two_modes_witness :
  exists art,
    buildUnsignedTx Sample.lib 2000000 1000000
      (Sample.chain [Sample.utxoSevenTokens]) "addr_ms" "5c" [Sample.hashA]
      "sendAll" (Some "addr_d") None = Ok art
    /\ Address_from_bech32 Sample.lib "addr_d" <> None.
Proof.
  eexists. split; [vm_compute; reflexivity|].
  edestruct (build_knows_two_modes Sample.lib 2000000 1000000
               (Sample.chain [Sample.utxoSevenTokens]) "addr_ms" "5c"
               [Sample.hashA] "sendAll" (Some "addr_d") None)
    as [(_ & dest & Hdest & _ & Haddr)|Hmode].
  - vm_compute. reflexivity.
  - injection Hdest as <-. exact Haddr.
  - discriminate Hmode.
Defined.

(** ** Builds that cannot pay *)

(** The lovelace of the step-2 plan: the floor for a sweep, the requested
    coins, each raised to the floor when it carries tokens, otherwise. *)
Lemma planOutputs_coin (MIN_ADA : Z) (mode : string)
    (destAddress : option string) (requested : option (list OutputRequest))
    (totalJS : JsValue) (plan : OutPlan) :
  planOutputs MIN_ADA mode destAddress requested totalJS = Ok plan ->
  outCoin plan
  = if String.eqb mode "sendAll" then MIN_ADA else requestedCoin MIN_ADA requested.
Proof.
  unfold planOutputs. destruct (String.eqb mode "sendAll").
  - destruct (falsy destAddress); [discriminate|]. intros [= <-]. reflexivity.
  - destruct (String.eqb_spec mode "explicit") as [->|_]; [|discriminate].
    intros Hplan.
    destruct (explicit_plan MIN_ADA destAddress requested totalJS)
      as (plan' & Hplan' & Hcoin & _).
    unfold planOutputs in Hplan'. cbn [String.eqb Ascii.eqb Bool.eqb] in Hplan'.
    rewrite Hplan in Hplan'. now injection Hplan' as <-.
Qed.

(** X17. A build that lacks lovelace fails before anything is built: whenever
    the UTxOs of the address hold less than the outputs take plus the
    fixed fee, the builder throws "insufficient ADA for outputs + 1 ADA
    fee", in both modes and whatever tokens are involved. *)
Theorem build_short_of_coin_fails (lib : CSLib) (MIN_ADA FIXED_FEE : Z)
    (bf : Blockfrost) (multisigAddress paymentScriptHex : string)
    (requiredKeyHashes : list string) (mode : string)
    (destAddress : option string) (requested : option (list OutputRequest))
    (protocol : ProtocolParams) (msAddr : list byte) (utxos : list Utxo)
    (totalValue : Value) :
  protocolParams bf = Ok protocol ->
  Address_from_bech32 lib multisigAddress = Some msAddr ->
  utxosByAddress bf multisigAddress = Ok utxos ->
  sumInputs utxos = Ok totalValue ->
  (mode = "sendAll" /\ falsy destAddress = false) \/ mode = "explicit" ->
  (inputCoin utxos
   < (if String.eqb mode "sendAll" then MIN_ADA
      else requestedCoin MIN_ADA requested) + FIXED_FEE)%Z ->
  buildUnsignedTx lib MIN_ADA FIXED_FEE bf multisigAddress paymentScriptHex
    requiredKeyHashes mode destAddress requested
  = Throw (Error insufficient_ada).
Proof.
  intros Hprotocol Haddr Hutxos Hsum Hmode Hlt.
  destruct (sumInputs_Ok utxos totalValue [] [] Hsum) as [Hc _].
  destruct (valueToJs_qty totalValue [] []) as [Hjc _].
  unfold buildUnsignedTx, buildBody.
  rewrite Hprotocol, Ok_bind, Haddr. cbn [csl]. rewrite Ok_bind, Hutxos, Ok_bind.
  rewrite Hsum, Ok_bind.
  destruct (planOutputs MIN_ADA mode destAddress requested (valueToJs totalValue))
    as [plan|e] eqn:Hplan.
  - rewrite Ok_bind. apply planOutputs_coin in Hplan.
    unfold computeChange, bigGtEq, bigAdd. rewrite Hjc, Hc, Hplan.
    destruct (Z.leb_spec
                ((if String.eqb mode "sendAll" then MIN_ADA
                  else requestedCoin MIN_ADA requested) + FIXED_FEE)
                (inputCoin utxos)); [lia | reflexivity].
  - exfalso. unfold planOutputs in Hplan.
    destruct Hmode as [[-> Hdest]| ->].
    + cbn [String.eqb Ascii.eqb Bool.eqb] in Hplan. rewrite Hdest in Hplan.
      discriminate.
    + cbn [String.eqb Ascii.eqb Bool.eqb] in Hplan. discriminate.
Qed.

(** The UTxO [(coin = 2_000_000, assets = {P: {N: 5}})] cannot pay
    1_500_000 lovelace and the fee of 1_000_000. *)
Lemma build_short_of_coin_fails_witness :
  buildUnsignedTx Sample.lib 2000000 1000000 (Sample.chain [Sample.utxoPoor])
    "addr_ms" "5c" [Sample.hashA] "explicit" None
    (Some [mkOutputRequest "addr_x" (Some 1500000%Z) None])
  = Throw (Error insufficient_ada).
Proof.
  eapply (build_short_of_coin_fails Sample.lib 2000000 1000000
            (Sample.chain [Sample.utxoPoor]) "addr_ms" "5c" [Sample.hashA]
            "explicit" None (Some [mkOutputRequest "addr_x" (Some 1500000%Z) None])).
  - reflexivity.
  - reflexivity.
  - reflexivity.
  - vm_compute. reflexivity.
  - now right.
  - vm_compute. reflexivity.
Defined.

(** ** What a sweep pays *)

Lemma subInner_even (innerB : JsMap.t Z) (innerA : list (string * Z)) :
  (forall nm qa, (nm, qa) ∈ innerA -> default 0%Z (JsMap.get nm innerB) = qa) ->
  forall res, foldM (subInner innerB) res innerA = Ok res.
Proof.
  induction innerA as [|[nm qa] innerA IH]; intros Hall res; [reflexivity|].
  cbn [foldM]. unfold subInner at 2.
  rewrite (Hall nm qa) by apply list_elem_of_here.
  rewrite Z.sub_diag. cbn [Z.ltb Z.compare]. rewrite Ok_bind.
  apply IH. intros nm' qa' Hin. apply Hall. now apply list_elem_of_further.
Qed.

Lemma jsAssetsSub_even (b : JsAssets) (a : JsAssets) :
  (forall pid innerA nm qa,
      (pid, innerA) ∈ a -> (nm, qa) ∈ innerA ->
      default 0%Z (assetsQty pid nm b) = qa) ->
  forall out,
    foldM (fun out '(pid, innerA) =>
             let innerB := default JsMap.empty (JsMap.get pid b) in
             resInner ← foldM (subInner innerB) None (JsMap.entries innerA);
             Ok (match resInner with
                 | Some r => JsMap.set pid r out
                 | None => out
                 end)) out a = Ok out.
Proof.
  induction a as [|[pid innerA] a IH]; intros Hall out; [reflexivity|].
  cbn [foldM]. cbv zeta. unfold JsMap.entries.
  rewrite subInner_even.
  - rewrite Ok_bind, Ok_bind. apply IH.
    intros pid' innerA' nm qa Hin. apply Hall. now apply list_elem_of_further.
  - intros nm qa Hin. rewrite assetsQty_inner.
    apply (Hall pid innerA); [apply list_elem_of_here | exact Hin].
Qed.

(** Nothing is left of a map after all of it was taken out. *)
Lemma jsAssetsSub_all (a : JsAssets) :
  JsWf a -> jsAssetsSub a (jsAssetsAdd JsMap.empty a) = Ok JsMap.empty.
Proof.
  intros [Hnd Hall]. unfold jsAssetsSub, JsMap.entries.
  apply jsAssetsSub_even. intros pid innerA nm qa Hpid Hnm.
  rewrite jsAssetsAdd_qty, (pick_flatten_wf _ _ _ (conj Hnd Hall)).
  assert (Hq : assetsQty pid nm a = Some qa).
  { unfold assetsQty. rewrite (JsMap_get_elem_of _ _ _ Hnd Hpid).
    apply JsMap_get_elem_of; [|exact Hnm].
    exact (proj1 (Forall_forall _ _) Hall _ Hpid). }
  rewrite Hq. unfold assetsQty. cbn. lia.
Qed.

(** X15. A sweep leaves nothing at the multisig address: every transaction
    built in mode [sendAll] pays the destination only. Its first output
    holds the floor [MIN_ADA] and all the tokens of the inputs; the rest
    of the lovelace, less the fee, follows in a second output without
    tokens when there is any. *)
Theorem sweep_pays_destination_only (lib : CSLib) (MIN_ADA FIXED_FEE : Z)
    (bf : Blockfrost) (multisigAddress paymentScriptHex : string)
    (requiredKeyHashes : list string) (destAddress : option string)
    (requested : option (list OutputRequest)) (art : BuildArtifact) :
  buildUnsignedTx lib MIN_ADA FIXED_FEE bf multisigAddress paymentScriptHex
    requiredKeyHashes "sendAll" destAddress requested = Ok art ->
  exists body first rest,
    let utxos := selectedInputs (preview art) in
    let left := (inputCoin utxos - MIN_ADA - FIXED_FEE)%Z in
    txBodyHex art = bytesToHex (TransactionBody_to_bytes lib body)
    /\ outputs body = first :: rest
    /\ Forall (fun o => Address_from_bech32 lib (default "" destAddress)
                        = Some (out_address o)) (outputs body)
    /\ coin (out_amount first) = MIN_ADA
    /\ (forall pid nm,
          valueQty pid nm (out_amount first) = inputQty pid nm utxos)
    /\ rest = (if (0 <? left)%Z
               then [mkOutput (out_address first) (Value_new left)]
               else [])
    /\ changeCoin (preview art) = left
    /\ changeHasTokens (preview art) = false.
Proof.
  intros H.
  apply buildUnsignedTx_body in H
    as (body & changeAssets & Hbody & Hhex & _ & Htokens & _).
  apply buildBody_Ok in Hbody
    as (msAddr & totalValue & plan & outs & change & _ & Hsum & Hplan & Hchange
        & Houts & Hchg & Hout & _).
  destruct (valueToJs_shape totalValue) as [Hwf Hcan].
  unfold planOutputs in Hplan. cbn [String.eqb Ascii.eqb Bool.eqb] in Hplan.
  destruct (falsy destAddress); [discriminate|]. injection Hplan as <-.
  apply computeChange_Ok in Hchange as (Hcoin & Hpos & _ & Hsub).
  cbn [outAssets outCoin] in Hsub, Hcoin.
  rewrite (jsAssetsSub_all _ Hwf) in Hsub. injection Hsub as <-.
  cbn [outSpecs] in Houts.
  apply Forall2_cons_inv_l in Houts as (first & outs' & Hfirst & Hnil & ->).
  apply Forall2_nil_inv_l in Hnil as ->.
  destruct (specOutput_Ok lib MIN_ADA _ _ Hfirst) as (_ & Hfcoin & _).
  cbn [spec_coin assetsMap] in Hfcoin.
  assert (Hfaddr : Address_from_bech32 lib (default "" destAddress)
                   = Some (out_address first)).
  { unfold specOutput in Hfirst. cbn [spec_address] in Hfirst.
    bind_inv Hfirst as c Hc. bind_inv Hfirst as v1 Hv1.
    bind_inv Hfirst as v2 Hv2. bind_inv Hfirst as addr Haddr.
    injection Hfirst as <-. cbn [out_address]. unfold csl in Haddr.
    destruct (Address_from_bech32 lib _); [now injection Haddr as -> | discriminate]. }
  destruct (sumInputs_Ok (selectedInputs (preview art)) totalValue [] [] Hsum)
    as [Hc _].
  destruct (valueToJs_qty totalValue [] []) as [Hjc _].
  unfold bigAdd in Hcoin. rewrite Hjc, Hc, Z.add_0_l in Hcoin.
  exists body, first,
    (match change with Some o => [o] | None => [] end).
  cbv zeta. rewrite <- Hcoin.
  assert (Hrest : match change with Some o => [o] | None => [] end
                  = if (0 <? changeCoin (preview art))%Z
                    then [mkOutput (out_address first)
                            (Value_new (changeCoin (preview art)))]
                    else []).
  { unfold changeOutput in Hchg.
    cbn [jsAssetsIsEmpty JsMap.entries JsMap.empty forallb negb orb] in Hchg.
    rewrite orb_false_r in Hchg.
    destruct (0 <? changeCoin (preview art))%Z eqn:Hgt.
    - cbn [String.eqb Ascii.eqb Bool.eqb] in Hchg.
      apply Z.ltb_lt in Hgt.
      destruct (Z.ltb_spec (changeCoin (preview art)) 0); [lia|].
      bind_inv Hchg as c Hcc. apply from_str_Ok in Hcc as [-> _].
      rewrite Ok_bind in Hchg. cbn [Value_new multiasset] in Hchg.
      rewrite bool_decide_false, Ok_bind in Hchg by (intros Hf; now apply Hf).
      rewrite Hfaddr in Hchg. cbn [csl] in Hchg. rewrite Ok_bind in Hchg.
      now injection Hchg as <-.
    - now injection Hchg as <-. }
  split; [exact Hhex|]. split; [exact Hout|]. split.
  - rewrite Hout, Hrest. constructor; [exact Hfaddr|].
    destruct (0 <? changeCoin (preview art))%Z; repeat constructor. exact Hfaddr.
  - split.
    { rewrite Hfcoin, Z.max_id.
      now destruct (jsAssetsIsEmpty (js_assets (valueToJs totalValue))). }
    split.
    { intros pid nm.
      rewrite (specOutput_qty lib MIN_ADA _ _ pid nm Hfirst Hwf Hcan).
      cbn [assetsMap]. unfold mapQty, inputQty.
      destruct (valueToJs_qty totalValue pid nm) as [_ ->].
      now destruct (sumInputs_Ok _ totalValue pid nm Hsum) as [_ ->]. }
    split; [exact Hrest|]. split; [reflexivity|].
    rewrite Htokens. reflexivity.
Qed.

(** Scenario 2 of the specification. *)
Lemma sweep_pays_destination_only_witness :
  exists art body first rest,
    buildUnsignedTx Sample.lib 2000000 1000000
      (Sample.chain [Sample.utxoSevenTokens]) "addr_ms" "5c" [Sample.hashA]
      "sendAll" (Some "addr_d") None = Ok art
    /\ outputs body = first :: rest
    /\ coin (out_amount first) = 2000000%Z
    /\ valueQty (hexToBytes Sample.policy) [x4e] (out_amount first) = 7%Z
    /\ rest = [mkOutput (out_address first) (Value_new 2000000)].
Proof.
  eexists.
  assert (H : forall art,
             buildUnsignedTx Sample.lib 2000000 1000000
               (Sample.chain [Sample.utxoSevenTokens]) "addr_ms" "5c"
               [Sample.hashA] "sendAll" (Some "addr_d") None = Ok art ->
             selectedInputs (preview art) = [Sample.utxoSevenTokens] ->
             exists body first rest,
               outputs body = first :: rest
               /\ coin (out_amount first) = 2000000%Z
               /\ valueQty (hexToBytes Sample.policy) [x4e] (out_amount first)
                  = 7%Z
               /\ rest = [mkOutput (out_address first) (Value_new 2000000)]).
  { intros art Hart Hsel.
    destruct (sweep_pays_destination_only _ _ _ _ _ _ _ _ _ art Hart)
      as (body & first & rest & _ & Hout & _ & Hcoin & Hqty & Hrest & _).
    exists body, first, rest. rewrite Hsel in Hqty, Hrest.
    split; [exact Hout|]. split; [exact Hcoin|]. split.
    - rewrite Hqty. reflexivity.
    - exact Hrest. }
  edestruct H as (body & first & rest & Hres);
    [vm_compute; reflexivity | reflexivity |].
  exists body, first, rest. split; [vm_compute; reflexivity | exact Hres].
Defined.

(** ** The inputs and the required signers of a built transaction *)

Section Builder_inputs.
Context (lib : CSLib) (MIN_ADA FIXED_FEE : Z).

Lemma add_output_frame (o : TransactionOutput) (tb tb' : TransactionBuilder) :
  add_output lib o tb = Ok tb' ->
  tb_inputs tb' = tb_inputs tb
  /\ tb_required_signers tb' = tb_required_signers tb.
Proof.
  unfold add_output. destruct (add_output_accepts lib _ _); [|discriminate].
  intros [= <-]. now split.
Qed.

Lemma bytes_compare_eq (a b : list byte) : bytes_compare a b = Eq -> a = b.
Proof.
  revert b. induction a as [|x a IH]; intros [|y b]; cbn [bytes_compare];
    try discriminate; [reflexivity|].
  destruct (N.compare_spec (Byte.to_N x) (Byte.to_N y)) as [Hxy| |];
    try discriminate.
  intros Hab. f_equal; [|now apply IH].
  apply (f_equal Byte.of_N) in Hxy. rewrite !Byte.of_to_N in Hxy. congruence.
Qed.

Lemma input_compare_eq (i j : TransactionInput) : input_compare i j = Eq -> i = j.
Proof.
  unfold input_compare. destruct i as [hi ni], j as [hj nj]. cbn [transaction_id index].
  destruct (bytes_compare hi hj) eqn:Hh; try discriminate.
  intros Hn. apply bytes_compare_eq in Hh. apply Nat.compare_eq in Hn. congruence.
Qed.

Lemma insert_input_elem (x : list byte * TransactionInput * Value)
    (l : list (list byte * TransactionInput * Value)) (i : TransactionInput) :
  i ∈ map (fun x => snd (fst x)) (insert_input x l)
  <-> i = snd (fst x) \/ i ∈ map (fun x => snd (fst x)) l.
Proof.
  induction l as [|y l IH]; cbn [insert_input map].
  - rewrite list_elem_of_singleton, elem_of_nil. tauto.
  - destruct (input_compare (snd (fst x)) (snd (fst y))) eqn:Hc; cbn [map].
    + apply input_compare_eq in Hc. rewrite !elem_of_cons, <- Hc. tauto.
    + rewrite !elem_of_cons. tauto.
    + rewrite !elem_of_cons, IH. tauto.
Qed.

Lemma insert_input_fresh (x : list byte * TransactionInput * Value)
    (l : list (list byte * TransactionInput * Value)) :
  snd (fst x) ∉ map (fun x => snd (fst x)) l ->
  Permutation (map (fun x => snd (fst x)) (insert_input x l))
    (map (fun x => snd (fst x)) l ++ [snd (fst x)]).
Proof.
  induction l as [|y l IH]; cbn [insert_input map app]; intros Hfresh.
  - reflexivity.
  - rewrite not_elem_of_cons in Hfresh. destruct Hfresh as [Hne Hfresh].
    destruct (input_compare (snd (fst x)) (snd (fst y))) eqn:Hc; cbn [map].
    + now apply input_compare_eq in Hc.
    + change (snd (fst y) :: map (fun x => snd (fst x)) l ++ [snd (fst x)])
        with ((snd (fst y) :: map (fun x => snd (fst x)) l) ++ [snd (fst x)]).
      apply Permutation_cons_append.
    + constructor. now apply IH.
Qed.

Lemma input_loop_inputs (msAddr : list byte) (utxos : list Utxo) :
  forall tb tb',
    foldM (fun tb u =>
             input ← utxoInput u; v ← utxoValue u;
             Ok (add_input msAddr input v tb)) tb utxos = Ok tb' ->
    (forall i, i ∈ map (fun x => snd (fst x)) (tb_inputs tb')
               <-> i ∈ map (fun x => snd (fst x)) (tb_inputs tb)
                   \/ i ∈ map utxoRef utxos)
    /\ (NoDup (map (fun x => snd (fst x)) (tb_inputs tb) ++ map utxoRef utxos) ->
        Permutation (map (fun x => snd (fst x)) (tb_inputs tb'))
          (map (fun x => snd (fst x)) (tb_inputs tb) ++ map utxoRef utxos))
    /\ tb_required_signers tb' = tb_required_signers tb.
Proof.
  induction utxos as [|u utxos IH]; intros tb tb' H.
  - injection H as <-. cbn [map]. rewrite app_nil_r.
    split; [|split; [reflexivity | reflexivity]].
    intros i. rewrite elem_of_nil. tauto.
  - cbn [foldM] in H. bind_inv H as tb1 Htb1.
    bind_inv Htb1 as input Hinput. bind_inv Htb1 as v Hv. injection Htb1 as <-.
    unfold utxoInput in Hinput. bind_inv Hinput as h Hh. injection Hinput as <-.
    unfold TransactionHash_from_bytes in Hh.
    destruct (length _ =? 32)%nat; [injection Hh as <- | discriminate].
    fold (utxoRef u) in H.
    destruct (IH _ _ H) as (Hin & Hperm & Hs). cbn [add_input tb_inputs] in Hin, Hperm.
    split; [|split; [|exact Hs]].
    + intros i. rewrite Hin, insert_input_elem. cbn [map snd fst].
      rewrite elem_of_cons. tauto.
    + cbn [map]. intros Hnd.
      assert (Hfresh : utxoRef u ∉ map (fun x => snd (fst x)) (tb_inputs tb)).
      { apply NoDup_app in Hnd as (_ & Hdis & _). intros Hu.
        apply (Hdis _ Hu). apply elem_of_cons. now left. }
      pose proof (insert_input_fresh (msAddr, utxoRef u, v) (tb_inputs tb) Hfresh)
        as Hins. cbn [snd fst] in Hins.
      rewrite Hperm.
      * rewrite Hins, <- app_assoc. reflexivity.
      * rewrite Hins, <- app_assoc. exact Hnd.
Qed.

Lemma spec_loop_frame (specs : list OutSpec) :
  forall tb tb',
    foldM (fun tb spec =>
             output ← specOutput lib MIN_ADA spec; add_output lib output tb)
      tb specs = Ok tb' ->
    tb_inputs tb' = tb_inputs tb
    /\ tb_required_signers tb' = tb_required_signers tb.
Proof.
  intros tb tb'.
  apply (foldM_invariant
           (fun t => tb_inputs t = tb_inputs tb
                     /\ tb_required_signers t = tb_required_signers tb));
    [|now split].
  intros b spec b' [Hi Hs] H. bind_inv H as o Ho.
  apply add_output_frame in H as [-> ->]. now split.
Qed.

Lemma signers_loop_signers (hs : list string) :
  forall tb,
    let tb' := foldl (fun tb khHex =>
                        match Ed25519KeyHash_from_bytes
                                (hexToBytes (toLowerCase khHex)) with
                        | Ok kh => add_required_signer kh tb
                        | Throw _ => tb
                        end) tb hs in
    tb_inputs tb' = tb_inputs tb
    /\ tb_required_signers tb'
       = tb_required_signers tb
         ++ List.filter (fun kh => (length kh =? 28)%nat)
              (map (fun h => hexToBytes (toLowerCase h)) hs).
Proof.
  induction hs as [|h hs IH]; intros tb; cbn [foldl map List.filter].
  - now rewrite app_nil_r.
  - destruct (IH (match Ed25519KeyHash_from_bytes (hexToBytes (toLowerCase h)) with
                  | Ok kh => add_required_signer kh tb
                  | Throw _ => tb
                  end)) as [Hi Hs].
    cbv zeta in Hi, Hs. rewrite Hi, Hs. unfold Ed25519KeyHash_from_bytes.
    destruct (length (hexToBytes (toLowerCase h)) =? 28)%nat;
      cbn [add_required_signer tb_inputs tb_required_signers];
      [now rewrite <- app_assoc | easy].
Qed.

Lemma buildBody_inputs (bf : Blockfrost) (multisigAddress : string)
    (requiredKeyHashes : list string) (mode : string)
    (destAddress : option string) (requested : option (list OutputRequest))
    (body : TransactionBody) (utxos : list Utxo) (changeAssets : JsAssets)
    (changeCoin : Z) :
  buildBody lib MIN_ADA FIXED_FEE bf multisigAddress requiredKeyHashes mode
    destAddress requested = Ok (body, utxos, changeAssets, changeCoin) ->
  (forall i, i ∈ inputs body <-> i ∈ map utxoRef utxos)
  /\ (NoDup (map utxoRef utxos) -> Permutation (inputs body) (map utxoRef utxos))
  /\ required_signers body
     = List.filter (fun kh => (length kh =? 28)%nat)
         (map (fun h => hexToBytes (toLowerCase h)) requiredKeyHashes).
Proof.
  unfold buildBody. intros H.
  bind_inv H as protocol Hprotocol. bind_inv H as msAddr HmsAddr.
  bind_inv H as utxos' Hutxos. bind_inv H as totalValue Htotal.
  bind_inv H as plan Hplan. bind_inv H as ch Hch. destruct ch as [cA cC].
  bind_inv H as cfg Hcfg. bind_inv H as tb1 Htb1. bind_inv H as tb2 Htb2.
  bind_inv H as change Hchange. bind_inv H as tb3 Htb3.
  bind_inv H as f Hf. bind_inv H as body' Hbody.
  injection H as -> -> -> ->.
  apply input_loop_inputs in Htb1 as (Hin1 & Hperm1 & Hs1).
  cbn [tb_inputs tb_required_signers map app] in Hin1, Hperm1, Hs1.
  apply spec_loop_frame in Htb2 as [Hin2 Hs2].
  assert (Hin3 : tb_inputs tb3 = tb_inputs tb2
                 /\ tb_required_signers tb3 = tb_required_signers tb2).
  { destruct change as [o|]; [now apply add_output_frame in Htb3|].
    injection Htb3 as <-. now split. }
  destruct Hin3 as [Hin3 Hs3].
  destruct (signers_loop_signers requiredKeyHashes (set_fee f tb3)) as [Hin4 Hs4].
  unfold build in Hbody.
  destruct (tb_fee _) as [f'|]; [|discriminate].
  destruct (build_accepts lib _ _); [|discriminate].
  injection Hbody as <-. cbn [inputs required_signers].
  rewrite Hin4, Hs4. cbn [set_fee tb_inputs tb_required_signers].
  rewrite Hin3, Hin2, Hs3, Hs2, Hs1.
  split; [|split; [exact Hperm1 | reflexivity]].
  intros i. rewrite Hin1, elem_of_nil. tauto.
Qed.

End Builder_inputs.

(** X13. A sweep spends what it pays out: when the indexer lists no UTxO of
    the multisig address twice, the inputs of every transaction built in
    mode [sendAll] are exactly the UTxOs the indexer returned, each once,
    and its outputs hold, together with the fee, exactly the lovelace of
    those UTxOs, and of every asset exactly what they hold. *)
Theorem sweep_conserves_value (lib : CSLib) (MIN_ADA FIXED_FEE : Z)
    (bf : Blockfrost) (multisigAddress paymentScriptHex : string)
    (requiredKeyHashes : list string) (destAddress : option string)
    (requested : option (list OutputRequest)) (art : BuildArtifact) :
  buildUnsignedTx lib MIN_ADA FIXED_FEE bf multisigAddress paymentScriptHex
    requiredKeyHashes "sendAll" destAddress requested = Ok art ->
  NoDup (map utxoRef (selectedInputs (preview art))) ->
  exists body,
    txBodyHex art = bytesToHex (TransactionBody_to_bytes lib body)
    /\ utxosByAddress bf multisigAddress = Ok (selectedInputs (preview art))
    /\ Permutation (inputs body) (map utxoRef (selectedInputs (preview art)))
    /\ fee body = FIXED_FEE
    /\ conserved (selectedInputs (preview art)) body.
Proof.
  intros H Hnd.
  apply buildUnsignedTx_body in H
    as (body & changeAssets & Hbody & Hhex & Hutxos & _).
  exists body. split; [exact Hhex|]. split; [exact Hutxos|].
  destruct (buildBody_inputs lib MIN_ADA FIXED_FEE _ _ _ _ _ _ _ _ _ _ Hbody)
    as (_ & Hperm & _).
  split; [exact (Hperm Hnd)|].
  destruct (build_conserves_coin _ _ _ _ _ _ _ _ _ _ _ _ _ Hbody) as [Hcoin Hfee].
  split; [exact Hfee|]. split; [exact Hcoin|].
  intros pid nm.
  apply (buildBody_conserves_asset _ _ _ _ _ _ _ _ _ _ _ _ _ pid nm Hbody).
  discriminate.
Qed.

(** Scenario 2 of the specification: the sweep of
    [(coin = 5_000_000, assets = {P: {N: 7}})] pays 2_000_000 and the 7
    tokens, then 2_000_000, with a fee of 1_000_000. *)
Lemma sweep_conserves_value_witness :
  exists art body,
    buildUnsignedTx Sample.lib 2000000 1000000
      (Sample.chain [Sample.utxoSevenTokens]) "addr_ms" "5c" [Sample.hashA]
      "sendAll" (Some "addr_d") None = Ok art
    /\ selectedInputs (preview art) = [Sample.utxoSevenTokens]
    /\ Permutation (inputs body) [utxoRef Sample.utxoSevenTokens]
    /\ conserved [Sample.utxoSevenTokens] body.
Proof.
  eexists.
  assert (H : forall art,
             buildUnsignedTx Sample.lib 2000000 1000000
               (Sample.chain [Sample.utxoSevenTokens]) "addr_ms" "5c"
               [Sample.hashA] "sendAll" (Some "addr_d") None = Ok art ->
             selectedInputs (preview art) = [Sample.utxoSevenTokens] ->
             exists body,
               Permutation (inputs body) [utxoRef Sample.utxoSevenTokens]
               /\ conserved [Sample.utxoSevenTokens] body).
  { intros art Hart Hsel.
    assert (Hnd : NoDup (map utxoRef (selectedInputs (preview art))))
      by (rewrite Hsel; apply NoDup_singleton).
    destruct (sweep_conserves_value _ _ _ _ _ _ _ _ _ art Hart Hnd)
      as (body & _ & _ & Hperm & _ & Hcons).
    rewrite Hsel in Hperm, Hcons. exists body. split; [exact Hperm | exact Hcons]. }
  edestruct H as (body & Hperm & Hbody); [vm_compute; reflexivity | reflexivity |].
  exists body. split; [vm_compute; reflexivity|].
  split; [reflexivity|]. split; [exact Hperm | exact Hbody].
Defined.


(** X16. Every build spends the whole address: in both modes the inputs of the
    transaction are the UTxOs the indexer returned for the multisig
    address, all of them, and its required signers are the well-formed
    key hashes of the allow-list (a hash that is not 28 bytes of hex is
    skipped without an error). *)
Theorem build_spends_every_utxo (lib : CSLib) (MIN_ADA FIXED_FEE : Z)
    (bf : Blockfrost) (multisigAddress paymentScriptHex : string)
    (requiredKeyHashes : list string) (mode : string)
    (destAddress : option string) (requested : option (list OutputRequest))
    (art : BuildArtifact) :
  buildUnsignedTx lib MIN_ADA FIXED_FEE bf multisigAddress paymentScriptHex
    requiredKeyHashes mode destAddress requested = Ok art ->
  exists body utxos,
    txBodyHex art = bytesToHex (TransactionBody_to_bytes lib body)
    /\ utxosByAddress bf multisigAddress = Ok utxos
    /\ selectedInputs (preview art) = utxos
    /\ (forall i, i ∈ inputs body <->
          exists u, u ∈ utxos
                    /\ i = mkInput (hexToBytes (tx_hash u)) (output_index u))
    /\ (forall kh, kh ∈ required_signers body <->
          length kh = 28%nat
          /\ exists h, h ∈ requiredKeyHashes /\ kh = hexToBytes (toLowerCase h)).
Proof.
  intros H.
  apply buildUnsignedTx_body in H
    as (body & changeAssets & Hbody & Hhex & Hutxos & _).
  apply buildBody_inputs in Hbody as (Hin & _ & Hs).
  exists body, (selectedInputs (preview art)).
  split; [exact Hhex|]. split; [exact Hutxos|]. split; [reflexivity|]. split.
  - intros i. rewrite Hin.
    change (map ?f ?l) with (f <$> l). rewrite list_elem_of_fmap.
    split; intros (u & H1 & H2); exists u; auto.
  - intros kh. rewrite Hs, list_elem_of_In, filter_In, <- list_elem_of_In.
    change (map ?f ?l) with (f <$> l). rewrite list_elem_of_fmap.
    rewrite Nat.eqb_eq.
    split.
    + intros [(h & H1 & H2) Hl]. split; [exact Hl|]. exists h. auto.
    + intros [Hl (h & H1 & H2)]. split; [|exact Hl]. exists h. auto.
Qed.

Lemma build_spends_every_utxo_witness :
  exists art body,
    buildUnsignedTx Sample.lib 2000000 1000000
      (Sample.chain [Sample.utxoFiveTokens; Sample.utxoPoor]) "addr_ms" "5c"
      [Sample.hashA; "zz"] "explicit" None
      (Some [Sample.requestTokens 1500000 3]) = Ok art
    /\ mkInput (hexToBytes Sample.txHash) 2 ∈ inputs body
    /\ Sample.keyA ∈ required_signers body
    /\ hexToBytes "zz" ∉ required_signers body.
Proof.
  eexists.
  assert (H : forall art,
             buildUnsignedTx Sample.lib 2000000 1000000
               (Sample.chain [Sample.utxoFiveTokens; Sample.utxoPoor])
               "addr_ms" "5c" [Sample.hashA; "zz"] "explicit" None
               (Some [Sample.requestTokens 1500000 3]) = Ok art ->
             exists body,
               mkInput (hexToBytes Sample.txHash) 2 ∈ inputs body
               /\ Sample.keyA ∈ required_signers body
               /\ hexToBytes "zz" ∉ required_signers body).
  { intros art Hart.
    destruct (build_spends_every_utxo _ _ _ _ _ _ _ _ _ _ art Hart)
      as (body & utxos & _ & Hutxos & _ & Hin & Hs).
    injection Hutxos as <-. exists body. split; [|split].
    - apply Hin. exists Sample.utxoPoor. split; [|reflexivity].
      apply list_elem_of_further, list_elem_of_here.
    - apply Hs. split; [reflexivity|]. exists Sample.hashA.
      split; [apply list_elem_of_here | reflexivity].
    - intros Hzz. apply Hs in Hzz as [Hlen _]. discriminate Hlen. }
  edestruct H as (body & Hres); [vm_compute; reflexivity|].
  exists body. split; [vm_compute; reflexivity | exact Hres].
Defined.
(** ** When [jsAssetsSub] throws *)

Lemma subInner_Throw (innerB : JsMap.t Z) (innerA : list (string * Z)) :
  forall res e,
    foldM (subInner innerB) res innerA = Throw e ->
    e = Error insufficient_tokens
    /\ exists nm qa, (nm, qa) ∈ innerA
                     /\ (qa < default 0%Z (JsMap.get nm innerB))%Z.
Proof.
  induction innerA as [|[nm qa] innerA IH]; intros res e H; [discriminate|].
  cbn [foldM] in H. unfold subInner at 2 in H.
  destruct (Z.ltb_spec (qa - default 0%Z (JsMap.get nm innerB)) 0) as [Hneg|_].
  - rewrite Throw_bind in H. injection H as <-. split; [reflexivity|].
    exists nm, qa. split; [apply list_elem_of_here | lia].
  - destruct (0 <? qa - default 0%Z (JsMap.get nm innerB))%Z;
      rewrite Ok_bind in H; apply IH in H as (-> & nm' & qa' & Hin & Hlt);
      (split; [reflexivity|]); exists nm', qa';
      (split; [now apply list_elem_of_further | exact Hlt]).
Qed.

Lemma jsAssetsSub_Throw (b : JsAssets) (a : JsAssets) :
  forall out e,
    foldM (fun out '(pid, innerA) =>
             let innerB := default JsMap.empty (JsMap.get pid b) in
             resInner ← foldM (subInner innerB) None (JsMap.entries innerA);
             Ok (match resInner with
                 | Some r => JsMap.set pid r out
                 | None => out
                 end)) out a = Throw e ->
    e = Error insufficient_tokens
    /\ exists pid innerA nm qa,
         (pid, innerA) ∈ a /\ (nm, qa) ∈ innerA
         /\ (qa < default 0%Z (assetsQty pid nm b))%Z.
Proof.
  induction a as [|[pid innerA] a IH]; intros out e H; [discriminate|].
  cbn [foldM] in H. cbv zeta in H. unfold JsMap.entries in H.
  destruct (foldM (subInner (default JsMap.empty (JsMap.get pid b))) None innerA)
    as [res|e'] eqn:Hinner.
  - rewrite !Ok_bind in H.
    apply IH in H as (-> & pid' & innerA' & nm & qa & Hpid & Hnm & Hlt).
    split; [reflexivity|]. exists pid', innerA', nm, qa.
    split; [now apply list_elem_of_further | now split].
  - rewrite !Throw_bind in H. injection H as <-.
    apply subInner_Throw in Hinner as (-> & nm & qa & Hnm & Hlt).
    split; [reflexivity|]. exists pid, innerA, nm, qa.
    split; [apply list_elem_of_here|]. split; [exact Hnm|].
    now rewrite <- assetsQty_inner.
Qed.

(** X19. What "returns a - b, throws if negative" comes to: [jsAssetsSub(a, b)]
    goes through the assets of [a] only. It throws "insufficient tokens
    for requested outputs" exactly when [b] holds more than [a] of an
    asset that [a] lists; otherwise it returns, for every asset of [a],
    the difference, and nothing for any other asset, whatever [b] holds
    of it. *)
Theorem jsAssetsSub_visits_minuend_only (a b : JsAssets) :
  JsWf a ->
  match jsAssetsSub a b with
  | Ok out =>
      forall p n,
        default 0%Z (assetsQty p n out)
        = match assetsQty p n a with
          | Some qa => (qa - default 0%Z (assetsQty p n b))%Z
          | None => 0%Z
          end
        /\ (0 <= default 0%Z (assetsQty p n out))%Z
  | Throw e =>
      e = Error insufficient_tokens
      /\ exists p n qa, assetsQty p n a = Some qa
                        /\ (qa < default 0%Z (assetsQty p n b))%Z
  end.
Proof.
  intros Hwf. destruct (jsAssetsSub a b) as [out|e] eqn:Hsub.
  - intros p n. destruct (jsAssetsSub_qty a b out p n Hsub Hwf) as [Hq Hle].
    split; [exact Hq|]. rewrite Hq.
    destruct (assetsQty p n a) as [qa|]; [|lia].
    specialize (Hle qa eq_refl). lia.
  - unfold jsAssetsSub, JsMap.entries in Hsub.
    apply jsAssetsSub_Throw in Hsub as (-> & pid & innerA & nm & qa & Hpid & Hnm & Hlt).
    split; [reflexivity|]. exists pid, nm, qa. split; [|exact Hlt].
    destruct Hwf as [Hnd Hall]. unfold assetsQty.
    rewrite (JsMap_get_elem_of _ _ _ Hnd Hpid).
    apply JsMap_get_elem_of; [|exact Hnm].
    exact (proj1 (Forall_forall _ _) Hall _ Hpid).
Qed.

(** From [{P: {N: 5}}]: taking 3 of [P.N] leaves 2, taking 6 throws, and
    taking 6 of another asset [P.M] leaves the 5 untouched. *)
Lemma jsAssetsSub_visits_minuend_only_witness :
  let a := [("p", [("n", 5%Z)])] in
  jsAssetsSub a [("p", [("n", 3%Z)])] = Ok [("p", [("n", 2%Z)])]
  /\ jsAssetsSub a [("p", [("n", 6%Z)])] = Throw (Error insufficient_tokens)
  /\ jsAssetsSub a [("p", [("m", 6%Z)])] = Ok a
  /\ (forall out, jsAssetsSub a [("p", [("m", 6%Z)])] = Ok out ->
        default 0%Z (assetsQty "p" "m" out) = 0%Z).
Proof.
  intros a. split; [reflexivity|]. split; [reflexivity|]. split; [reflexivity|].
  intros out Hout.
  assert (Hwf : JsWf a).
  { split; repeat constructor; cbn; intros H; inversion H. }
  pose proof (jsAssetsSub_visits_minuend_only a [("p", [("m", 6%Z)])] Hwf) as H.
  rewrite Hout in H. exact (proj1 (H "p" "m")).
Defined.

(** X20. The assets of a requested output: entries that name the same unit,
    in whatever letter case, are added up, and the map lists each policy
    and each asset name once. The unit is lower-cased and cut after its
    56th character into policy id and asset name. *)
Theorem jsAssetsFromOutputSpec_adds_up (specAssets : list AmountEntry) :
  JsWf (jsAssetsFromOutputSpec specAssets)
  /\ forall p n,
       assetsQty p n (jsAssetsFromOutputSpec specAssets)
       = match List.filter
                 (fun a => bool_decide (splitUnit (unit a) = (p, n)))
                 specAssets with
         | [] => None
         | l => Some (sumZ (map quantity l))
         end.
Proof.
  split; [apply JsWf_fromSpec|]. intros p n.
  rewrite jsAssetsFromOutputSpec_qty. unfold total, pick, keyed.
  assert (Hmap : forall l : list AmountEntry,
            map snd (List.filter (fun e : string * string * Z =>
                                    bool_decide (fst e = (p, n)))
                       (map (fun a => (splitUnit (unit a), quantity a)) l))
            = map quantity
                (List.filter (fun a => bool_decide (splitUnit (unit a) = (p, n))) l)).
  { induction l as [|a l IH]; [reflexivity|]. cbn [map List.filter fst].
    destruct (bool_decide (splitUnit (unit a) = (p, n))); cbn [map snd];
      now rewrite IH. }
  rewrite Hmap.
  now destruct (List.filter _ specAssets).
Qed.
(** ** From a value to a map of assets and back *)

Lemma addQty_fresh (inner : list (string * Z)) :
  forall d : JsMap.t Z,
    NoDup (JsMap.keys d ++ JsMap.keys inner) ->
    foldl (fun d '(nm, q) => jsAddQty d nm q) d inner = d ++ inner.
Proof.
  unfold JsMap.keys.
  induction inner as [|[nm q] inner IH]; intros d Hnd; cbn [foldl].
  - now rewrite app_nil_r.
  - cbn [map fst] in Hnd.
    assert (Hnm : nm ∉ map fst d).
    { apply NoDup_app in Hnd as (_ & Hd & _). intros Hin.
      apply (Hd nm Hin), list_elem_of_here. }
    unfold jsAddQty. rewrite (JsMap_get_fresh nm d Hnm), JsMap_set_fresh by exact Hnm.
    rewrite IH; [now rewrite <- app_assoc|].
    rewrite map_app. cbn [map fst]. rewrite <- app_assoc. exact Hnd.
Qed.

Lemma jsAssetsAdd_fresh (add : JsAssets) :
  forall dst : JsAssets,
    NoDup (JsMap.keys dst ++ JsMap.keys add) ->
    Forall (fun e => NoDup (JsMap.keys (snd e))) add ->
    jsAssetsAdd dst add = dst ++ add.
Proof.
  unfold jsAssetsAdd, JsMap.entries, JsMap.keys.
  induction add as [|[pid inner] add IH]; intros dst Hnd Hall; cbn [foldl].
  - now rewrite app_nil_r.
  - cbn [map fst] in Hnd. apply Forall_cons in Hall as [Hinner Hall].
    cbn [snd] in Hinner.
    assert (Hpid : pid ∉ map fst dst).
    { apply NoDup_app in Hnd as (_ & Hd & _). intros Hin.
      apply (Hd pid Hin), list_elem_of_here. }
    rewrite (JsMap_get_fresh pid dst Hpid). cbn [from_option JsMap.empty].
    rewrite (addQty_fresh inner JsMap.empty) by exact Hinner.
    cbn [app JsMap.empty].
    rewrite JsMap_set_fresh by exact Hpid.
    rewrite IH; [now rewrite <- app_assoc | | exact Hall].
    rewrite map_app. cbn [map fst]. rewrite <- app_assoc. exact Hnd.
Qed.

Lemma hexEntries_keys (ma : MultiAsset) :
  JsMap.keys (hexEntries ma) = map bytesToHex (map fst (policies ma)).
Proof.
  unfold JsMap.keys, hexEntries. rewrite !map_map.
  apply map_ext. now intros [pid a].
Qed.

Lemma hexed_keys (a : Assets) :
  JsMap.keys (map (fun '(nm, q) => (bytesToHex nm, q)) (assetNames a))
  = map bytesToHex (map fst (assetNames a)).
Proof.
  unfold JsMap.keys. rewrite !map_map. apply map_ext. now intros [nm q].
Qed.

Lemma NoDup_hex (l : list (list byte)) : NoDup l -> NoDup (map bytesToHex l).
Proof.
  intros Hnd. change (map bytesToHex l) with (bytesToHex <$> l).
  apply (NoDup_fmap_2 bytesToHex (Inj0 := bytesToHex_inj)). exact Hnd.
Qed.

Lemma hexEntries_wf (ma : MultiAsset) : JsWf (hexEntries ma).
Proof.
  split.
  - rewrite hexEntries_keys. apply NoDup_hex, NoDup_fst_entries.
  - apply Forall_forall. intros e He. unfold hexEntries in He.
    change (map ?f ?l) with (f <$> l) in He.
    apply list_elem_of_fmap in He as ([pid a] & -> & _). cbn [snd].
    rewrite hexed_keys. apply NoDup_hex, NoDup_fst_entries.
Qed.

(** [valueToJs] lists the assets of a value as its [keys()] give them. *)
Lemma valueToJs_entries (v : Value) :
  valueToJs v
  = mkJsValue (coin v)
      (match multiasset v with
       | Some ma => hexEntries ma
       | None => JsMap.empty
       end).
Proof.
  unfold valueToJs. destruct (multiasset v) as [ma|]; [|reflexivity].
  f_equal. rewrite valueToJs_loop. fold (hexEntries ma).
  destruct (hexEntries_wf ma) as [Hnd Hall].
  now rewrite jsAssetsAdd_fresh.
Qed.

Lemma foldl_insert_lookup {V} (l : list (list byte * V)) (k : list byte) :
  NoDup (map fst l) ->
  forall acc : gmap (list byte) V,
    foldl (fun acc '(k, v) => <[k := v]> acc) acc l !! k
    = match (list_to_map l : gmap (list byte) V) !! k with
      | Some v => Some v
      | None => acc !! k
      end.
Proof.
  induction l as [|[k0 v0] l IH]; intros Hnd acc; cbn [foldl list_to_map foldr].
  - now rewrite lookup_empty.
  - cbn [map fst] in Hnd. apply NoDup_cons in Hnd as [Hk0 Hnd].
    rewrite (IH Hnd). cbn [curry fst snd].
    destruct (decide (k0 = k)) as [->|Hne].
    + rewrite lookup_insert_eq.
      assert (Hnone : (list_to_map l : gmap (list byte) V) !! k = None).
      { apply not_elem_of_list_to_map_1. exact Hk0. }
      now rewrite Hnone, lookup_insert_eq.
    + rewrite !lookup_insert_ne by exact Hne. reflexivity.
Qed.

Lemma foldl_insert_all {V} (cmp : list byte -> list byte -> comparison)
    (m : gmap (list byte) V) :
  foldl (fun acc '(k, v) => <[k := v]> acc) ∅ (entries_by cmp m) = m.
Proof.
  apply map_eq. intros k.
  rewrite foldl_insert_lookup by apply NoDup_fst_entries.
  rewrite list_to_map_entries, lookup_empty. now destruct (m !! k).
Qed.

Lemma toValue_inner_Ok (l : list (list byte * Z)) :
  Forall (fun e => (length (fst e) <= 32)%nat /\ (0 <= snd e <= U64_MAX)%Z) l ->
  forall acc : Assets,
    foldM (fun (assets : Assets) '(nmHex, qtyStr) =>
             nm ← AssetName_new (hexToBytes nmHex);
             q ← BigNum.from_str qtyStr;
             Ok (<[nm := q]> assets)) acc
      (map (fun '(nm, q) => (bytesToHex nm, q)) l)
    = Ok (foldl (fun acc '(nm, q) => <[nm := q]> acc) acc l).
Proof.
  induction 1 as [|[nm q] l [Hlen Hq] _ IH]; intros acc; [reflexivity|].
  cbn [map foldM foldl fst snd] in *.
  rewrite hexToBytes_bytesToHex. unfold AssetName_new, BigNum.from_str.
  rewrite (proj2 (Nat.leb_le _ _) Hlen).
  rewrite (proj2 (Z.leb_le _ _) (proj1 Hq)), (proj2 (Z.leb_le _ _) (proj2 Hq)).
  cbn [andb]. rewrite !Ok_bind. apply IH.
Qed.

Lemma toValue_outer_Ok (l : list (list byte * Assets)) :
  Forall (fun e => length (fst e) = 28%nat
                   /\ forall nm q, snd e !! nm = Some q ->
                                   (length nm <= 32)%nat /\ (0 <= q <= U64_MAX)%Z) l ->
  forall acc : MultiAsset,
    foldM (fun (ma : MultiAsset) '(pidHex, inner) =>
             pid ← ScriptHash_from_bytes (hexToBytes pidHex);
             assets ← foldM (fun (assets : Assets) '(nmHex, qtyStr) =>
                         nm ← AssetName_new (hexToBytes nmHex);
                         q ← BigNum.from_str qtyStr;
                         Ok (<[nm := q]> assets))
                       ∅ (JsMap.entries inner);
             Ok (<[pid := assets]> ma)) acc
      (map (fun '(pid, a) =>
              (bytesToHex pid,
               map (fun '(nm, q) => (bytesToHex nm, q)) (assetNames a))) l)
    = Ok (foldl (fun acc '(pid, a) => <[pid := a]> acc) acc l).
Proof.
  induction 1 as [|[pid a] l [Hlen Ha] _ IH]; intros acc; [reflexivity|].
  cbn [map foldM foldl fst snd] in *.
  rewrite hexToBytes_bytesToHex. unfold ScriptHash_from_bytes.
  rewrite (proj2 (Nat.eqb_eq _ _) Hlen), Ok_bind.
  unfold JsMap.entries. rewrite toValue_inner_Ok.
  - rewrite Ok_bind, foldl_insert_all. apply IH.
  - apply Forall_forall. intros [nm q] Hin.
    apply elem_of_entries in Hin. exact (Ha nm q Hin).
Qed.

(** X22. Round trip: the map of assets that [valueToJs] makes of a value of
    the library is turned back by [jsAssetsToValue] into the multi-asset
    it came from, whatever value receives it; a value without
    multi-asset comes back with an empty one. The coin of the receiving
    value is kept. *)
Theorem valueToJs_round_trip (v receiver : Value) :
  cslValue v ->
  jsAssetsToValue receiver (js_assets (valueToJs v))
  = Ok (mkValue (coin receiver) (Some (default ∅ (multiasset v)))).
Proof.
  intros Hv. rewrite valueToJs_entries. cbn [js_assets]. unfold jsAssetsToValue.
  destruct (multiasset v) as [ma|] eqn:Hma; [|reflexivity].
  unfold JsMap.entries, hexEntries. rewrite toValue_outer_Ok.
  - rewrite Ok_bind, foldl_insert_all. reflexivity.
  - apply Forall_forall. intros [pid a] Hin.
    apply elem_of_entries in Hin. exact (Hv ma pid a Hma Hin).
Qed.

Lemma valueToJs_round_trip_witness :
  let pid := hexToBytes Sample.policy in
  let v := mkValue 5000000 (Some {[ pid := {[ [x4e] := 7%Z ]} ]}) in
  valueToJs v = mkJsValue 5000000 [(Sample.policy, [("4e", 7%Z)])]
  /\ jsAssetsToValue (Value_new 2000000) (js_assets (valueToJs v))
     = Ok (mkValue 2000000 (multiasset v)).
Proof.
  intros pid v. split; [vm_compute; reflexivity|].
  apply (valueToJs_round_trip v (Value_new 2000000)).
  intros ma pid' a [= <-] Ha.
  apply lookup_singleton_Some in Ha as [<- <-]. split; [reflexivity|].
  intros nm q Hq. apply lookup_singleton_Some in Hq as [<- <-].
  split; [cbn; lia | unfold U64_MAX; lia].
Defined.

(** ** Adding assets to a value, and values to each other *)

Lemma foldM_throws {A B} (P : Exn -> Prop) (body : B -> A -> Result B)
    (xs : list A) :
  (forall b x e, body b x = Throw e -> P e) ->
  forall b e, foldM body b xs = Throw e -> P e.
Proof.
  intros Hbody. induction xs as [|x xs IH]; intros b e H; [discriminate|].
  cbn [foldM] in H. destruct (body b x) as [b'|e'] eqn:Hb.
  - rewrite Ok_bind in H. now apply (IH b').
  - rewrite Throw_bind in H. injection H as <-. now apply (Hbody b x).
Qed.

Lemma foldM_Exists_throws {A B} (bad : A -> Prop) (e0 : Exn)
    (body : B -> A -> Result B) (xs : list A) :
  (forall b x e, body b x = Throw e -> e = e0) ->
  (forall b x, bad x -> body b x = Throw e0) ->
  Exists bad xs ->
  forall b, foldM body b xs = Throw e0.
Proof.
  intros Hall Hbad. induction 1 as [x xs Hx|x xs _ IH]; intros b; cbn [foldM].
  - now rewrite (Hbad b x Hx).
  - destruct (body b x) as [b'|e] eqn:Hb.
    + rewrite Ok_bind. apply IH.
    + rewrite Throw_bind. f_equal. now apply (Hall b x).
Qed.

Lemma default_addAll (acc : option Z) (l : list Z) :
  default 0%Z (addAll acc l) = (default 0%Z acc + sumZ l)%Z.
Proof.
  destruct l as [|q l].
  - unfold addAll. cbn [foldl sumZ foldr]. lia.
  - rewrite addAll_cons. cbn [from_option id sumZ foldr].
    fold (sumZ l). lia.
Qed.

Lemma pick_keyed (pid nm : list byte) (assets : list AmountEntry) :
  pick (pid, nm) (keyed unitKey assets)
  = map quantity
      (List.filter (fun a => bool_decide (unitKey (unit a) = (pid, nm))) assets).
Proof.
  unfold pick, keyed. induction assets as [|a assets IH]; [reflexivity|].
  cbn [map List.filter fst].
  destruct (bool_decide (unitKey (unit a) = (pid, nm))); cbn [map snd];
    now rewrite IH.
Qed.

Lemma addAsset_throws (ma : MultiAsset) (a : AmountEntry) (e : Exn) :
  addAsset ma a = Throw e -> e = CslError.
Proof.
  unfold addAsset. destruct (splitUnit (unit a)) as [policy nameHex].
  unfold ScriptHash_from_bytes, AssetName_new, BigNum.from_str, insertQty,
    BigNum.checked_add.
  destruct (length (hexToBytes policy) =? 28)%nat; [|now intros [= <-]].
  rewrite Ok_bind.
  destruct (length (hexToBytes nameHex) <=? 32)%nat; [|now intros [= <-]].
  rewrite Ok_bind.
  destruct ((0 <=? quantity a)%Z && (quantity a <=? U64_MAX)%Z);
    [|now intros [= <-]].
  rewrite Ok_bind.
  destruct (default ∅ (ma !! hexToBytes policy) !! hexToBytes nameHex) as [prev|].
  - destruct (prev + quantity a <=? U64_MAX)%Z; [discriminate | now intros [= <-]].
  - discriminate.
Qed.

(** An entry the library refuses: its policy id is not 28 bytes of hex,
    its asset name has more than 32 bytes, or its quantity is not an
    unsigned 64-bit number. *)
Lemma addAsset_refuses (ma : MultiAsset) (a : AmountEntry) :
  length (unitKey (unit a)).1 <> 28%nat
  \/ (32 < length (unitKey (unit a)).2)%nat
  \/ ~ (0 <= quantity a <= U64_MAX)%Z ->
  addAsset ma a = Throw CslError.
Proof.
  unfold addAsset, unitKey. destruct (splitUnit (unit a)) as [policy nameHex].
  cbn [fst snd].
  unfold ScriptHash_from_bytes, AssetName_new, BigNum.from_str.
  intros Hbad.
  destruct (Nat.eqb_spec (length (hexToBytes policy)) 28) as [Hp|Hp];
    [|reflexivity].
  rewrite Ok_bind.
  destruct (Nat.leb_spec (length (hexToBytes nameHex)) 32) as [Hn|Hn];
    [|reflexivity].
  rewrite Ok_bind.
  destruct (Z.leb_spec 0 (quantity a)); destruct (Z.leb_spec (quantity a) U64_MAX);
    cbn [andb]; try reflexivity.
  exfalso. destruct Hbad as [Hbad|[Hbad|Hbad]]; [contradiction | lia | lia].
Qed.

(** X23. [addAssetsToValue] adds to a value the quantities of the entries, each
    under the policy id and asset name that its unit denotes, and keeps
    the coin; its only failure is the library's, and an entry with a
    malformed unit or quantity makes it fail. *)
Theorem addAssetsToValue_adds (value : Value) (assets : list AmountEntry) :
  match addAssetsToValue value assets with
  | Ok v' =>
      coin v' = coin value
      /\ forall pid nm,
           valueQty pid nm v'
           = (valueQty pid nm value
              + sumZ (map quantity
                        (List.filter
                           (fun a => bool_decide (unitKey (unit a) = (pid, nm)))
                           assets)))%Z
  | Throw e => e = CslError
  end
  /\ (Exists (fun a => length (unitKey (unit a)).1 <> 28%nat
                       \/ (32 < length (unitKey (unit a)).2)%nat
                       \/ ~ (0 <= quantity a <= U64_MAX)%Z) assets ->
      addAssetsToValue value assets = Throw CslError).
Proof.
  unfold addAssetsToValue. split.
  - destruct assets as [|a assets]; [cbn; split; [reflexivity | intros; lia]|].
    cbn [length Nat.eqb].
    destruct (foldM addAsset (default ∅ (multiasset value)) (a :: assets))
      as [ma'|e] eqn:Hloop.
    + rewrite Ok_bind. split; [reflexivity|]. intros pid nm.
      rewrite !valueQty_opt. unfold valueOptQty at 1. cbn [multiasset set_multiasset].
      rewrite (addAsset_loop_qty _ pid nm _ _ Hloop), default_addAll, pick_keyed.
      f_equal. unfold valueOptQty.
      destruct (multiasset value); [reflexivity|].
      cbn [from_option id]. unfold maQty. now rewrite lookup_empty.
    + rewrite Throw_bind.
      apply (foldM_throws (fun e => e = CslError) addAsset _ addAsset_throws _ _ Hloop).
  - intros Hbad. destruct assets as [|a assets]; [inversion Hbad|].
    cbn [length Nat.eqb].
    rewrite (foldM_Exists_throws _ CslError addAsset (a :: assets)
               addAsset_throws addAsset_refuses Hbad).
    reflexivity.
Qed.

Lemma mergeValue_throws (a b : Value) (e : Exn) :
  mergeValue a b = Throw e -> e = CslError.
Proof.
  unfold mergeValue, BigNum.checked_add.
  destruct (coin a + coin b <=? U64_MAX)%Z; [|now intros [= <-]].
  rewrite Ok_bind. destruct (multiasset b) as [mb|]; [|discriminate].
  destruct (foldM _ _ (policies mb)) as [merged|e'] eqn:Hloop;
    [discriminate|].
  rewrite Throw_bind. intros [= <-].
  apply (foldM_throws (fun e => e = CslError) _ _) in Hloop; [exact Hloop|].
  intros merged [pid bAssets] e0 H.
  destruct (mergeAssets _ bAssets) as [d|e1] eqn:Hd; [discriminate|].
  rewrite Throw_bind in H. injection H as <-. unfold mergeAssets in Hd.
  apply (foldM_throws (fun e => e = CslError) _ _) in Hd; [exact Hd|].
  intros d [nm q] e2 H. unfold insertQty, BigNum.checked_add in H.
  destruct (d !! nm) as [prev|]; [|discriminate].
  destruct (prev + q <=? U64_MAX)%Z; [discriminate | now injection H as <-].
Qed.

(** X24. [mergeValue] adds two values: the coins and, asset by asset, the
    quantities; the sum of the coins must fit an unsigned 64-bit number,
    and the only failure is the library's overflow error. *)
Theorem mergeValue_adds (a b : Value) :
  match mergeValue a b with
  | Ok v =>
      coin v = (coin a + coin b)%Z
      /\ (coin a + coin b <= U64_MAX)%Z
      /\ forall pid nm,
           valueQty pid nm v = (valueQty pid nm a + valueQty pid nm b)%Z
  | Throw e => e = CslError
  end
  /\ ((U64_MAX < coin a + coin b)%Z -> mergeValue a b = Throw CslError).
Proof.
  split.
  - destruct (mergeValue a b) as [v|e] eqn:Hm; [|now apply (mergeValue_throws a b)].
    destruct (mergeValue_Ok a b v [] [] Hm) as [Hcoin _].
    split; [exact Hcoin|]. split.
    + unfold mergeValue, BigNum.checked_add in Hm.
      destruct (Z.leb_spec (coin a + coin b) U64_MAX); [assumption | discriminate].
    + intros pid nm. destruct (mergeValue_Ok a b v pid nm Hm) as [_ Hq].
      rewrite !valueQty_opt, Hq, default_addAll.
      now destruct (valueOptQty pid nm b); cbn; lia.
  - intros Hover. unfold mergeValue, BigNum.checked_add.
    destruct (Z.leb_spec (coin a + coin b) U64_MAX); [lia | reflexivity].
Qed.

(** A unit that is no policy id makes the library refuse the entry. *)
Lemma addAssetsToValue_adds_witness :
  addAssetsToValue (Value_new 5000000)
    [mkAmount Sample.token 7; mkAmount "lovelace" 1]
  = Throw CslError.
Proof.
  apply (proj2 (addAssetsToValue_adds (Value_new 5000000)
                  [mkAmount Sample.token 7; mkAmount "lovelace" 1])).
  apply Exists_cons_tl, Exists_cons_hd. left. cbn. discriminate.
Defined.

(** The coins of two values may not add up beyond 2^64 - 1. *)
Lemma mergeValue_adds_witness :
  mergeValue (Value_new U64_MAX) (Value_new 1) = Throw CslError.
Proof.
  apply (proj2 (mergeValue_adds (Value_new U64_MAX) (Value_new 1))).
  cbn. unfold U64_MAX. lia.
Defined.
(** ** The trace and the time bounds of a script *)

Lemma forIndexed_traces (l : list NativeScript) (path : list string)
    (seg : nat -> string) :
  Forall (fun t => forall acc path r,
            collectScriptInfo t acc path = Ok r -> traces t path acc r) l ->
  forall i acc r,
    forIndexed (fun i s acc => collectScriptInfo s acc (path ++ [seg i])) i l acc
    = Ok r ->
    map (fun x => (node_type x, length (node_path x))) (tree r)
    = map (fun x => (node_type x, length (node_path x))) (tree acc)
      ++ flat_map (outline (S (length path))) l
    /\ invalidBefore r = invalidBefore acc
    /\ invalidHereafter r = invalidHereafter acc.
Proof.
  induction 1 as [|t l Ht _ IH]; intros i acc r; cbn [forIndexed flat_map].
  - intros [= <-]. rewrite app_nil_r. auto.
  - destruct (collectScriptInfo t acc (path ++ [seg i])) as [acc'|e] eqn:Hwalk;
      [|discriminate].
    intros Hloop. destruct (IH (S i) acc' r Hloop) as (Htr & Hb & Hh).
    destruct (Ht acc (path ++ [seg i]) acc' Hwalk) as (Htr' & Hb' & Hh').
    rewrite Htr, Hb, Hh, Htr', Hb', Hh'.
    rewrite length_app, Nat.add_1_r, <- app_assoc. auto.
Qed.

Lemma collectScriptInfo_traces (t : NativeScript) :
  forall acc path r, collectScriptInfo t acc path = Ok r -> traces t path acc r.
Proof.
  induction t as [kh | l IH | l IH | n l IH | slot | slot]
    using NativeScript_tree_ind; intros acc path r; unfold traces;
    cbn [collectScriptInfo slot_to_str outline]; try discriminate.
  - intros [= <-]. cbn. rewrite map_app. auto.
  - intros Hloop.
    destruct (forIndexed_traces l path
                (fun i => "all[" +:+ pretty i +:+ "]") IH 0%nat
                (push_tree (node_all path) acc) r Hloop) as (Htr & Hb & Hh).
    rewrite Htr, Hb, Hh. cbn [push_tree tree invalidBefore invalidHereafter].
    rewrite map_app. cbn [map node_type node_path]. rewrite <- app_assoc. auto.
  - intros Hloop.
    destruct (forIndexed_traces l path
                (fun i => "any[" +:+ pretty i +:+ "]") IH 0%nat
                (push_tree (node_any path) acc) r Hloop) as (Htr & Hb & Hh).
    rewrite Htr, Hb, Hh. cbn [push_tree tree invalidBefore invalidHereafter].
    rewrite map_app. cbn [map node_type node_path]. rewrite <- app_assoc. auto.
  - intros Hloop.
    destruct (forIndexed_traces l path
                (fun i => "atLeast(n=" +:+ pretty n +:+ ")[" +:+ pretty i +:+ "]")
                IH 0%nat
                (push_tree (node_atLeast n (length l) path) (push_threshold n acc))
                r Hloop) as (Htr & Hb & Hh).
    rewrite Htr, Hb, Hh.
    cbn [push_tree push_threshold tree invalidBefore invalidHereafter].
    rewrite map_app. cbn [map node_type node_path]. rewrite <- app_assoc. auto.
Qed.

(** X26. The trace of a summary follows the script: the structure of the
    summary that [summarize] returns has one entry per node of the
    script, parents before children and children from left to right,
    each with the kind of its node and a path of as many segments as the
    node lies deep. It returns no summary for a script with a time
    lock. *)
Theorem summary_outlines_script (ns : NativeScript) (scriptHashHex : string) :
  match summarize ns scriptHashHex with
  | Ok s =>
      hasTimelock ns = false
      /\ map (fun x => (node_type x, length (node_path x))) (structure s)
         = outline 0 ns
  | Throw _ => hasTimelock ns = true
  end.
Proof.
  pose proof (summarize_returns ns scriptHashHex) as Hret.
  destruct (summarize ns scriptHashHex) as [s|e] eqn:Hs; [|exact (proj1 Hret)].
  split; [exact Hret|].
  apply summarize_Ok in Hs as (info & Hwalk & _ & _ & _ & -> & _).
  destruct (collectScriptInfo_traces ns _ _ _ Hwalk) as (Htr & _). exact Htr.
Qed.

(** X27. No summary carries a time bound. [deriveSummary] throws a
    [TypeError] on every script that parses and has a time lock, for it
    reads the slot with [slot.to_str()]; so [invalidBefore] and
    [invalidHereafter] of every summary it returns are [null] and
    [hasTimeConstraints] is false. Its only other failure is the
    library's, on bytes that are no script. *)
Theorem summary_time_bounds (lib : CSLib) (scriptHex : string) :
  match deriveSummary lib scriptHex,
        NativeScript_from_bytes lib (hexToBytes scriptHex) with
  | Ok s, Some ns =>
      hasTimelock ns = false
      /\ summaryInvalidBefore s = None
      /\ summaryInvalidHereafter s = None
      /\ hasTimeConstraints s = false
      /\ scriptHash s = bytesToHex (NativeScript_hash lib ns)
  | Throw e, Some ns => hasTimelock ns = true /\ e = TypeError
  | Throw e, None => e = CslError
  | Ok _, None => False
  end.
Proof.
  unfold deriveSummary.
  destruct (NativeScript_from_bytes lib (hexToBytes scriptHex)) as [ns|];
    [|reflexivity].
  cbn [csl]. rewrite Ok_bind.
  pose proof (summarize_returns ns (bytesToHex (NativeScript_hash lib ns))) as Hret.
  destruct (summarize ns (bytesToHex (NativeScript_hash lib ns)))
    as [s|e] eqn:Hs; [|exact Hret].
  split; [exact Hret|].
  apply summarize_Ok in Hs
    as (info & Hwalk & _ & _ & _ & _ & -> & -> & -> & ->).
  destruct (collectScriptInfo_traces ns _ _ _ Hwalk) as (_ & -> & ->).
  cbn. repeat split.
Qed.

(** X28. The allow-list of a summary names each key of the script once:
    [requiredKeyHashes] holds the hex, in lower case, of the key hashes of
    the pubkey leaves, each once, and [totalKeys] counts them; so the
    lower-casing that makes [REQUIRED_KEY_HASHES] of it changes nothing.
    There is no summary for a script with a time lock. *)
Theorem required_key_hashes_listed_once (ns : NativeScript)
    (scriptHashHex : string) :
  match summarize ns scriptHashHex with
  | Ok s =>
      NoDup (requiredKeyHashes s)
      /\ (forall k, k ∈ requiredKeyHashes s <->
                    exists kh, kh ∈ pubkeyHashes ns /\ k = bytesToHex kh)
      /\ totalKeys s = length (requiredKeyHashes s)
      /\ REQUIRED_KEY_HASHES s = requiredKeyHashes s
  | Throw _ => hasTimelock ns = true
  end.
Proof.
  pose proof (summarize_returns ns scriptHashHex) as Hret.
  destruct (summarize ns scriptHashHex) as [s|e] eqn:Hs; [|exact (proj1 Hret)].
  apply summarize_Ok in Hs as (info & Hwalk & _ & Hreq & Htotal & _).
  unfold REQUIRED_KEY_HASHES. rewrite Htotal, Hreq. cbn [JsSet.to_list].
  destruct (collectScriptInfo_collects ns _ _ _ Hwalk) as (_ & Hk & _).
  cbn [keys] in Hk. rewrite Hk.
  assert (Hmem : forall k,
            k ∈ foldl (fun s h => JsSet.add (keyOf h) s) JsSet.empty (pubkeyHashes ns)
            <-> exists kh, kh ∈ pubkeyHashes ns /\ k = bytesToHex kh).
  { intros k. rewrite (JsSet_fold_elem_of keyOf).
    change (map keyOf ?l) with (keyOf <$> l). rewrite list_elem_of_fmap.
    unfold keyOf. setoid_rewrite toLowerCase_bytesToHex.
    split.
    - intros [Hin|(kh & -> & Hin)]; [inversion Hin | now exists kh].
    - intros (kh & Hin & ->). right. now exists kh. }
  split; [apply (JsSet_fold_NoDup keyOf); constructor|].
  split; [exact Hmem|]. split; [reflexivity|].
  apply map_lower_fixed. apply Forall_forall. intros k Hin.
  apply Hmem in Hin as (kh & _ & ->). apply toLowerCase_bytesToHex.
Qed.

(** ** Hexadecimal strings *)

Lemma bytesToHex_length (b : list byte) :
  String.length (bytesToHex b) = (2 * length b)%nat.
Proof.
  induction b as [|x b IH]; [reflexivity|].
  rewrite bytesToHex_cons. cbn [String.length length]. rewrite IH. lia.
Qed.

Lemma hex_value_lower (c : ascii) : hex_value (lower_ascii c) = hex_value c.
Proof. destruct c as [[] [] [] [] [] [] [] []]; reflexivity. Qed.

Lemma hexToBytes_lower (h : string) : hexToBytes (toLowerCase h) = hexToBytes h.
Proof.
  revert h.
  assert (Hgen : forall (n : nat) (h : string),
            (String.length h < n)%nat ->
            hexToBytes (toLowerCase h) = hexToBytes h).
  { induction n as [|n IH]; intros h Hn; [lia|].
    destruct h as [|a [|b h]]; [reflexivity | reflexivity|].
    cbn [toLowerCase hexToBytes]. rewrite !hex_value_lower.
    cbn [String.length] in Hn. rewrite IH by lia. reflexivity. }
  intros h. apply (Hgen (S (String.length h))). lia.
Qed.

(** X1. The two hex helpers: [bytesToHex] writes two lower-case digits per
    byte, [hexToBytes] reads them back, and reads upper-case digits as
    well. *)
Theorem hex_round_trip (b : list byte) (h : string) :
  hexToBytes (bytesToHex b) = b
  /\ String.length (bytesToHex b) = (2 * length b)%nat
  /\ toLowerCase (bytesToHex b) = bytesToHex b
  /\ hexToBytes (toLowerCase h) = hexToBytes h.
Proof.
  split; [apply hexToBytes_bytesToHex|]. split; [apply bytesToHex_length|].
  split; [apply toLowerCase_bytesToHex | apply hexToBytes_lower].
Qed.

(** ** The balance route *)

Lemma substring_hex_take (n : nat) :
  forall b : list byte,
    substring 0 (2 * n) (bytesToHex b) = bytesToHex (take n b).
Proof.
  induction n as [|n IH]; intros b.
  - destruct b; reflexivity.
  - destruct b as [|x b]; [reflexivity|].
    replace (2 * S n)%nat with (S (S (2 * n))) by lia.
    rewrite bytesToHex_cons. cbn [substring take]. rewrite IH.
    now rewrite bytesToHex_cons.
Qed.

Lemma substring_hex_drop (n : nat) :
  forall b : list byte,
    substring (2 * n) (String.length (bytesToHex b) - 2 * n) (bytesToHex b)
    = bytesToHex (drop n b).
Proof.
  induction n as [|n IH]; intros b.
  - change (2 * 0)%nat with 0%nat. rewrite Nat.sub_0_r, drop_0.
    generalize (bytesToHex b). intros s.
    induction s as [|c s IHs]; [reflexivity|].
    cbn [String.length substring]. now rewrite IHs.
  - destruct b as [|x b]; [reflexivity|].
    replace (2 * S n)%nat with (S (S (2 * n))) by lia.
    rewrite bytesToHex_cons. cbn [String.length substring drop Nat.sub].
    apply IH.
Qed.

(** The policy id and the asset name that a unit in hex denotes. *)
Lemma unitKey_hex (b : list byte) :
  unitKey (bytesToHex b) = (take 28 b, drop 28 b).
Proof.
  unfold unitKey, splitUnit. rewrite toLowerCase_bytesToHex.
  cbn [fst snd]. change 56%nat with (2 * 28)%nat.
  now rewrite substring_hex_take, substring_hex_drop, !hexToBytes_bytesToHex.
Qed.

Lemma balance_loop (u : string) (utxos : list Utxo) :
  forall sum : Z,
    foldl (fun sum u' =>
             foldl (fun sum a =>
                      if String.eqb (unit a) u then (sum + quantity a)%Z else sum)
               sum (amount u'))
      sum utxos
    = (sum + sumZ (map quantity
                     (List.filter (fun a => String.eqb (unit a) u)
                        (flat_map amount utxos))))%Z.
Proof.
  assert (Hinner : forall (l : list AmountEntry) (sum : Z),
            foldl (fun sum a =>
                     if String.eqb (unit a) u then (sum + quantity a)%Z else sum)
              sum l
            = (sum + sumZ (map quantity
                             (List.filter (fun a => String.eqb (unit a) u) l)))%Z).
  { induction l as [|a l IH]; intros sum; cbn [foldl List.filter].
    - cbn. lia.
    - rewrite IH. destruct (String.eqb (unit a) u); cbn [map sumZ foldr];
        fold (sumZ (map quantity (List.filter (fun a => String.eqb (unit a) u) l)));
        lia. }
  induction utxos as [|u' utxos IH]; intros sum; cbn [foldl flat_map].
  - cbn. lia.
  - rewrite IH, Hinner, List.filter_app, map_app, sumZ_app. lia.
Qed.

(** X25. The balance route and the builder agree: when the units that the
    indexer reports are hexadecimal, the quantity that
    [GET /api/balance/:unit] answers for the unit of an asset is the
    quantity of that asset that a build takes as its inputs. A unit of
    fewer than 56 characters, a policy id, is refused before the indexer
    is asked; so is the unit [lovelace]. *)
Theorem balance_is_the_input_quantity (MULTISIG_ADDRESS : string)
    (bf : Blockfrost) (utxos : list Utxo) (pid nm : list byte) :
  length pid = 28%nat ->
  utxosByAddress bf MULTISIG_ADDRESS = Ok utxos ->
  Forall (fun u => Forall (fun a => unit a = "lovelace" \/ canonical (unit a))
                     (amount u)) utxos ->
  getBalance MULTISIG_ADDRESS bf (bytesToHex (pid ++ nm))
  = balance_json MULTISIG_ADDRESS (bytesToHex (pid ++ nm)) (inputQty pid nm utxos)
  /\ forall unitParam,
       (String.length unitParam < 56)%nat ->
       getBalance MULTISIG_ADDRESS bf unitParam = balance_invalid_unit.
Proof.
  intros Hpid Hutxos Hcanon. split.
  - unfold getBalance. rewrite toLowerCase_bytesToHex.
    destruct (String.eqb_spec (bytesToHex (pid ++ nm)) "") as [He|_].
    { apply (f_equal String.length) in He.
      rewrite bytesToHex_length, length_app, Hpid in He. discriminate He. }
    destruct (Nat.ltb_spec (String.length (bytesToHex (pid ++ nm))) 56) as [Hlt|_].
    { rewrite bytesToHex_length, length_app, Hpid in Hlt. lia. }
    cbn [orb]. rewrite Hutxos. f_equal.
    rewrite balance_loop, Z.add_0_l.
    unfold inputQty, carried. rewrite default_total, pick_keyed.
    f_equal. f_equal. clear Hutxos.
    induction Hcanon as [|u utxos Hu _ IH]; [reflexivity|].
    cbn [flat_map]. rewrite !List.filter_app, IH. f_equal.
    unfold utxoAssets. clear IH.
    induction Hu as [|a l Ha _ IHl]; [reflexivity|].
    cbn [List.filter]. rewrite IHl.
    destruct (String.eqb_spec (unit a) (bytesToHex (pid ++ nm))) as [Heq|Hne].
    + assert (Hl : String.eqb (unit a) "lovelace" = false).
      { rewrite Heq. apply String.eqb_neq. intros Hlove.
        apply (f_equal String.length) in Hlove.
        rewrite bytesToHex_length, length_app, Hpid in Hlove. cbn in Hlove. lia. }
      rewrite Hl. cbn [negb List.filter]. rewrite Heq, unitKey_hex.
      rewrite take_app_length' by (symmetry; exact Hpid).
      rewrite drop_app_length' by (symmetry; exact Hpid).
      now rewrite bool_decide_true.
    + destruct (String.eqb (unit a) "lovelace") eqn:Hl; cbn [negb List.filter];
        [reflexivity|].
      destruct Ha as [Ha|[bs Hbs]]; [apply String.eqb_neq in Hl; contradiction|].
      rewrite Hbs, unitKey_hex. rewrite bool_decide_false; [reflexivity|].
      intros [= Htake Hdrop]. apply Hne. rewrite Hbs. f_equal.
      now rewrite <- (take_drop 28 bs), Htake, Hdrop.
  - intros unitParam Hlen. unfold getBalance.
    assert (Hlow : String.length (toLowerCase unitParam) = String.length unitParam).
    { clear. induction unitParam as [|c s IH]; [reflexivity|].
      cbn [toLowerCase String.length]. now rewrite IH. }
    rewrite Hlow.
    destruct (Nat.ltb_spec (String.length unitParam) 56); [|lia].
    now rewrite orb_true_r.
Qed.

(** Two UTxOs with 5 tokens each: the balance of the token is 10. *)
Lemma balance_is_the_input_quantity_witness :
  getBalance "addr_ms" (Sample.chain [Sample.utxoFiveTokens; Sample.utxoPoor])
    Sample.token
  = balance_json "addr_ms" Sample.token 10.
Proof.
  destruct (balance_is_the_input_quantity "addr_ms"
              (Sample.chain [Sample.utxoFiveTokens; Sample.utxoPoor])
              [Sample.utxoFiveTokens; Sample.utxoPoor]
              (hexToBytes Sample.policy) [x4e]) as [H _].
  - reflexivity.
  - reflexivity.
  - assert (Hu : forall i q,
              Forall (fun a => unit a = "lovelace" \/ canonical (unit a))
                (amount (mkUtxo Sample.txHash i
                           [mkAmount "lovelace" q; mkAmount Sample.token 5]))).
    { intros i q. cbn [amount].
      apply Forall_cons; split; [now left|].
      apply Forall_cons; split; [|constructor].
      right. exists (hexToBytes Sample.policy ++ [x4e]). reflexivity. }
    apply Forall_cons; split; [apply Hu|].
    apply Forall_cons; split; [apply Hu | constructor].
  - exact H.
Defined.

(** ** The store and the assembler on their own *)

(** X2. [addWitness] files one witness per signer: for an unknown id it
    answers [not_found] and leaves the store alone; otherwise the signer's
    witness is the given one afterwards, a signer who signs again keeps
    the place in the order of collection, a new signer comes last, and
    the count answered is the number of signers collected. *)
Theorem addWitness_one_per_signer (txId keyHashHex witnessHex : string)
    (txs : Store) :
  match txStore.addWitness txId keyHashHex witnessHex txs with
  | (txStore.add_not_found, txs') => txs !! txId = None /\ txs' = txs
  | (txStore.add_ok count m, txs') =>
      exists rec rec',
        txs !! txId = Some rec
        /\ txs' = <[txId := rec']> txs
        /\ rec' = txStore.set_witnesses (txStore.witnesses rec') rec
        /\ m = txStore.m rec
        /\ JsMap.get keyHashHex (txStore.witnesses rec') = Some witnessHex
        /\ (forall k, k <> keyHashHex ->
                      JsMap.get k (txStore.witnesses rec')
                      = JsMap.get k (txStore.witnesses rec))
        /\ JsMap.keys (txStore.witnesses rec')
           = (if JsMap.has keyHashHex (txStore.witnesses rec)
              then JsMap.keys (txStore.witnesses rec)
              else JsMap.keys (txStore.witnesses rec) ++ [keyHashHex])
        /\ count = length (JsMap.keys (txStore.witnesses rec'))
        /\ txStore.status txId txs'
           = Some (txStore.mkStatus m (txStore.signersKeyHashes rec)
                     (JsMap.keys (txStore.witnesses rec')) (txStore.preview rec))
  end.
Proof.
  unfold txStore.addWitness.
  destruct (txs !! txId) as [rec|] eqn:Hrec; [|now split].
  exists rec,
    (txStore.set_witnesses
       (JsMap.set keyHashHex witnessHex (txStore.witnesses rec)) rec).
  cbn [txStore.witnesses txStore.set_witnesses txStore.m].
  split; [reflexivity|]. split; [reflexivity|]. split; [reflexivity|].
  split; [reflexivity|]. split.
  { now rewrite JsMap_get_set, String.eqb_refl. }
  split.
  { intros k Hk. rewrite JsMap_get_set.
    destruct (String.eqb_spec k keyHashHex); [contradiction | reflexivity]. }
  split.
  { unfold JsMap.has.
    destruct (JsMap.get keyHashHex (txStore.witnesses rec)) as [w0|] eqn:Hget.
    - apply JsMap_keys_set_present. apply JsMap_get_In in Hget.
      unfold JsMap.keys. change (map fst ?l) with (fst <$> l).
      apply list_elem_of_fmap. now exists (keyHashHex, w0).
    - rewrite JsMap_set_fresh by now apply JsMap_get_None.
      unfold JsMap.keys. now rewrite map_app. }
  split.
  { unfold JsMap.size, JsMap.keys. now rewrite length_map. }
  unfold txStore.status. now rewrite lookup_insert_eq.
Qed.

Lemma forallb_false_elem {A} (f : A -> bool) (l : list A) :
  forallb f l = false -> exists x, x ∈ l /\ f x = false.
Proof.
  induction l as [|x l IH]; [discriminate|]. cbn [forallb].
  destruct (f x) eqn:Hx.
  - intros H. destruct (IH H) as (y & Hin & Hy).
    exists y. split; [now apply list_elem_of_further | exact Hy].
  - intros _. exists x. split; [apply list_elem_of_here | exact Hx].
Qed.

Lemma parses_all (lib : CSLib) (ws : list string) :
  forallb (parses lib) ws = true ->
  exists sets,
    Forall2 (fun w s =>
               TransactionWitnessSet_from_bytes lib (hexToBytes w) = Some s)
      ws sets
    /\ flat_map (keyWitnessesOf lib) ws
       = flat_map (fun s => default [] (vkeys s)) sets.
Proof.
  induction ws as [|w ws IH]; cbn [forallb flat_map].
  - intros _. exists []. split; [constructor | reflexivity].
  - unfold parses at 1, keyWitnessesOf at 1.
    destruct (TransactionWitnessSet_from_bytes lib (hexToBytes w)) as [s|] eqn:Hw;
      [|discriminate].
    cbn [andb]. intros Hrest. destruct (IH Hrest) as (sets & Hall & Hflat).
    exists (s :: sets). split; [now constructor|].
    cbn [flat_map]. now rewrite Hflat.
Qed.

(** X12. The assembler takes the key witnesses of every stored witness set,
    all of them and in the order given, and nothing else of those sets:
    when it returns a transaction, every witness set has parsed, the key
    witnesses are those of the parsed sets, put end to end, the body is
    the stored body and the script its only native script; there is no
    key-witness field when there is no key witness. It fails, with the
    library's error, exactly when the body, the script or one of the
    witness sets does not parse. *)
Theorem assemble_takes_every_key_witness (lib : CSLib)
    (txBodyHex scriptHex : string) (witnessHexes : list string) :
  match assembleTx lib txBodyHex scriptHex witnessHexes with
  | Ok tx =>
      TransactionBody_from_bytes lib (hexToBytes txBodyHex) = Some (body tx)
      /\ (exists ns,
            NativeScript_from_bytes lib (hexToBytes scriptHex) = Some ns
            /\ native_scripts (witness_set tx) = Some [ns])
      /\ other_witnesses (witness_set tx) = []
      /\ (exists sets,
            Forall2 (fun w s =>
                       TransactionWitnessSet_from_bytes lib (hexToBytes w)
                       = Some s) witnessHexes sets
            /\ vkeys (witness_set tx)
               = match flat_map (fun s => default [] (vkeys s)) sets with
                 | [] => None
                 | agg => Some agg
                 end)
      /\ assembleAndSerializeTx lib txBodyHex scriptHex witnessHexes
         = Ok (Transaction_to_bytes lib tx)
  | Throw e =>
      e = CslError
      /\ assembleAndSerializeTx lib txBodyHex scriptHex witnessHexes = Throw e
      /\ (TransactionBody_from_bytes lib (hexToBytes txBodyHex) = None
          \/ NativeScript_from_bytes lib (hexToBytes scriptHex) = None
          \/ exists w, w ∈ witnessHexes
                       /\ TransactionWitnessSet_from_bytes lib (hexToBytes w) = None)
  end.
Proof.
  unfold assembleAndSerializeTx, assembleTx.
  destruct (TransactionBody_from_bytes lib (hexToBytes txBodyHex)) as [b|];
    cbn [csl]; [|rewrite !Throw_bind; auto].
  rewrite Ok_bind.
  destruct (NativeScript_from_bytes lib (hexToBytes scriptHex)) as [ns|];
    cbn [csl]; [|rewrite !Throw_bind; auto].
  rewrite Ok_bind, aggregateVkeys_spec.
  destruct (forallb (parses lib) witnessHexes) eqn:Hparses.
  - rewrite !Ok_bind. cbn [body witness_set].
    destruct (parses_all lib witnessHexes Hparses) as (sets & Hall & Hflat).
    split; [reflexivity|]. split.
    { exists ns. split; [reflexivity|].
      now destruct (flat_map (keyWitnessesOf lib) witnessHexes). }
    split; [now destruct (flat_map (keyWitnessesOf lib) witnessHexes)|].
    split; [|reflexivity].
    exists sets. split; [exact Hall|]. rewrite <- Hflat.
    now destruct (flat_map (keyWitnessesOf lib) witnessHexes).
  - rewrite !Throw_bind. split; [reflexivity|]. split; [reflexivity|].
    right. right.
    apply forallb_false_elem in Hparses as (w & Hin & Hw).
    exists w. split; [exact Hin|].
    unfold parses in Hw.
    now destruct (TransactionWitnessSet_from_bytes lib (hexToBytes w)).
Qed.

(** ** Adding maps of assets *)

(** X21. [jsAssetsAdd] adds the quantities of a map of assets to another,
    asset by asset, and the result lists each policy and each asset name
    once when the map added to does. *)
Theorem jsAssetsAdd_adds (dst add : JsAssets) :
  JsWf dst -> JsWf add ->
  JsWf (jsAssetsAdd dst add)
  /\ forall p n,
       assetsQty p n (jsAssetsAdd dst add)
       = match assetsQty p n dst, assetsQty p n add with
         | Some qd, Some qa => Some (qd + qa)%Z
         | Some q, None | None, Some q => Some q
         | None, None => None
         end.
Proof.
  intros Hdst Hadd. split; [now apply JsWf_add|]. intros p n.
  rewrite jsAssetsAdd_qty, (pick_flatten_wf p n add Hadd).
  destruct (assetsQty p n dst) as [qd|]; destruct (assetsQty p n add) as [qa|];
    reflexivity.
Qed.

Lemma jsAssetsAdd_adds_witness :
  jsAssetsAdd [("p", [("n", 5%Z)])] [("p", [("n", 2%Z); ("m", 1%Z)])]
  = [("p", [("n", 7%Z); ("m", 1%Z)])]
  /\ assetsQty "p" "n"
       (jsAssetsAdd [("p", [("n", 5%Z)])] [("p", [("n", 2%Z); ("m", 1%Z)])])
     = Some 7%Z.
Proof.
  split; [reflexivity|].
  destruct (jsAssetsAdd_adds [("p", [("n", 5%Z)])]
              [("p", [("n", 2%Z); ("m", 1%Z)])]) as [_ H].
  - split; apply (bool_decide_unpack _); vm_compute; exact I.
  - split; apply (bool_decide_unpack _); vm_compute; exact I.
  - exact (H "p" "n").
Defined.

(** ** The deployed two-of-two configuration *)

(** X11. With the start-up guard, nothing reaches the gateway before both keys
    have signed: when the server started (threshold 2 and two required
    key hashes), every call to the gateway, in every state the server
    reaches, is for a session in which each required key hash has a
    witness. *)
Theorem gateway_call_needs_every_signer (lib : CSLib) (MIN_ADA FIXED_FEE : Z)
    (PAYMENT_SCRIPT_CBOR_HEX : string) (PAYMENT_SUMMARY : ScriptSummary)
    (MULTISIG_ADDRESS : string) (rs : list Request) (bf : Blockfrost)
    (txId : option string) (resp : Response) (st' : ServerState)
    (txBytes : list byte) (calls : list (list byte)) :
  startupAccepts PAYMENT_SUMMARY = true ->
  let st := run lib MIN_ADA FIXED_FEE PAYMENT_SCRIPT_CBOR_HEX PAYMENT_SUMMARY
              MULTISIG_ADDRESS rs initialState in
  postSubmit lib bf txId st = (resp, st', txBytes :: calls) ->
  exists rec,
    txs st !! default "" txId = Some rec
    /\ JsMap.size (txStore.witnesses rec) = 2%nat
    /\ forall k, k ∈ REQUIRED_KEY_HASHES PAYMENT_SUMMARY ->
                 JsMap.has k (txStore.witnesses rec) = true.
Proof.
  intros Hstart st.
  pose proof (run_ok lib MIN_ADA FIXED_FEE PAYMENT_SCRIPT_CBOR_HEX PAYMENT_SUMMARY
                MULTISIG_ADDRESS rs initialState
                (initial_ok lib FIXED_FEE PAYMENT_SCRIPT_CBOR_HEX PAYMENT_SUMMARY))
    as Hok.
  pose proof (run_wf lib MIN_ADA FIXED_FEE PAYMENT_SCRIPT_CBOR_HEX PAYMENT_SUMMARY
                MULTISIG_ADDRESS rs initialState store_wf_empty) as Hwf.
  fold st in Hok, Hwf. clearbody st.
  unfold startupAccepts in Hstart.
  apply negb_true_iff, orb_false_iff in Hstart as [Hm Hlen].
  apply negb_false_iff, Nat.eqb_eq in Hm, Hlen.
  unfold postSubmit. destruct (falsy txId); [discriminate|].
  unfold txStore.getTxRecord.
  destruct (txs st !! default "" txId) as [rec|] eqn:Hrec; [|discriminate].
  destruct (_ <? _)%nat eqn:Hcount; [discriminate|].
  apply Nat.ltb_ge in Hcount. intros _. exists rec. split; [reflexivity|].
  destruct (Hok _ _ Hrec) as (_ & Hmrec & Hsigners & _ & Hnd & _).
  destruct (Hwf _ _ Hrec) as [Hinv _].
  rewrite Hmrec, Hm in Hcount. unfold session_inv in Hinv.
  rewrite Hsigners in Hinv.
  assert (Hsub : JsMap.keys (txStore.witnesses rec)
                 ⊆+ REQUIRED_KEY_HASHES PAYMENT_SUMMARY)
    by (apply NoDup_submseteq; assumption).
  assert (Hsize : length (JsMap.keys (txStore.witnesses rec))
                  = JsMap.size (txStore.witnesses rec)).
  { unfold JsMap.keys, JsMap.size. apply length_map. }
  pose proof (submseteq_length _ _ Hsub) as Hle.
  assert (Hperm : JsMap.keys (txStore.witnesses rec)
                  ≡ₚ REQUIRED_KEY_HASHES PAYMENT_SUMMARY).
  { apply submseteq_length_Permutation; [exact Hsub | lia]. }
  split; [lia|].
  intros k Hk. rewrite <- Hperm in Hk. unfold JsMap.has.
  destruct (JsMap.get k (txStore.witnesses rec)) eqn:Hget; [reflexivity|].
  exfalso. now apply (JsMap_get_None k (txStore.witnesses rec) Hget).
Qed.

(** Both signers of a two-of-two script have signed when the gateway is
    called. *)
Lemma gateway_call_needs_every_signer_witness :
  let st := run Sample.lib 2000000 1000000 "5c" summary2of2 "addr_ms"
              [Scenario.create; Scenario.sign "a10a01"; Scenario.sign "a10b02"]
              initialState in
  startupAccepts summary2of2 = true
  /\ snd (postSubmit Sample.lib Sample.accepting (Some Scenario.txId) st)
     = [hexToBytes "84b0a10a010b02"]
  /\ exists rec,
       txs st !! Scenario.txId = Some rec
       /\ JsMap.has Sample.hashA (txStore.witnesses rec) = true
       /\ JsMap.has Sample.hashB (txStore.witnesses rec) = true.
Proof.
  intros st.
  assert (Hstart : startupAccepts summary2of2 = true) by (vm_compute; reflexivity).
  assert (Hcalls :
            snd (postSubmit Sample.lib Sample.accepting (Some Scenario.txId) st)
            = [hexToBytes "84b0a10a010b02"])
    by (vm_compute; reflexivity).
  assert (Hpair : forall q : Response * ServerState * list (list byte),
            q = (fst (fst q), snd (fst q), snd q))
    by (now intros [[? ?] ?]).
  pose proof (Hpair (postSubmit Sample.lib Sample.accepting
                       (Some Scenario.txId) st)) as Hsub.
  rewrite Hcalls in Hsub.
  split; [exact Hstart|]. split; [exact Hcalls|].
  destruct (gateway_call_needs_every_signer Sample.lib 2000000 1000000 "5c"
              summary2of2 "addr_ms"
              [Scenario.create; Scenario.sign "a10a01"; Scenario.sign "a10b02"]
              Sample.accepting (Some Scenario.txId) _ _ _ [] Hstart Hsub)
    as (rec & Hrec & _ & Hall).
  exists rec. split; [exact Hrec|]. split; apply Hall.
  - apply (bool_decide_unpack _). vm_compute. exact I.
  - apply (bool_decide_unpack _). vm_compute. exact I.
Defined.
